(** * Gemini insight service: a shallow embedding of [src/lib/geminiService.ts]

    The service turns movie/series metadata into a prompt, sends it to a
    text-generation endpoint, parses the reply and reports a uniform
    success/failure record.  The embedding follows the TypeScript source
    method by method:

    - strings are sequences of UTF-16 code units, as in JavaScript;
    - the built-ins the methods call ([trim], [split], [startsWith],
      [includes], [replace] with the four patterns of the source,
      [JSON.parse], [toString]) are written out from ECMA-262 and ECMA-404;
    - what the standard leaves to the engine (case mapping outside ASCII,
      date parsing and the time zone, the digits of a number that is not a
      small integer, the wording of diagnostics) is a field of [Host], and
      the theorems hold for every host;
    - the endpoint, the timer and the logger act on a trace of events; an
      operation is a function from the trace so far to a completion (a
      value or a thrown error) and the extended trace;
    - a thrown value is an [Error] object or any other value: the service
      and the engine throw [Error] objects, the endpoint may reject with
      anything, and the [catch] clauses cast what they catch to [Error]
      without a check; the logger is taken not to throw. *)

From Stdlib Require Import String Ascii DecimalString.
From Stdlib Require Import ZArith NArith List Bool Lia.
From Equations Require Import Equations.
Import ListNotations.

Set Implicit Arguments.
Set Warnings "-register-all".

(* ===================================================================== *)
(** ** JavaScript strings *)
(* ===================================================================== *)

(** A JavaScript string is a sequence of UTF-16 code units; [length] counts
    code units. *)
Definition char16 := N.
Definition jsstring := list char16.

(** A string literal of this development, as a JavaScript string (the
    literals used are ASCII, one code unit per character). *)
Definition js (s : string) : jsstring :=
  map N_of_ascii (list_ascii_of_string s).

(** The same with every apostrophe read as a double quote, to write JSON
    samples. *)
Definition jq (s : string) : jsstring :=
  map (fun c => if N.eqb c 39 then 34%N else c) (js s).

Definition dquote : jsstring := [34%N].
Definition newline : jsstring := [10%N].

Fixpoint str_eqb (a b : jsstring) : bool :=
  match a, b with
  | [], [] => true
  | x :: a', y :: b' => N.eqb x y && str_eqb a' b'
  | _, _ => false
  end.

(** ECMA-262 WhiteSpace and LineTerminator: what [\s] matches and what
    [trim] removes. *)
Definition isWhiteSpace (c : char16) : bool :=
  ((9 <=? c) && (c <=? 13) || (c =? 32) || (c =? 160) || (c =? 5760)
   || (8192 <=? c) && (c <=? 8202) || (c =? 8232) || (c =? 8233)
   || (c =? 8239) || (c =? 8287) || (c =? 12288) || (c =? 65279))%N.

Definition isDigit (c : char16) : bool := ((48 <=? c) && (c <=? 57))%N.

Fixpoint dropWhile (p : char16 -> bool) (s : jsstring) : jsstring :=
  match s with
  | [] => []
  | c :: r => if p c then dropWhile p r else s
  end.

Fixpoint takeWhile (p : char16 -> bool) (s : jsstring) : jsstring :=
  match s with
  | [] => []
  | c :: r => if p c then c :: takeWhile p r else []
  end.

Definition trimStart (s : jsstring) : jsstring := dropWhile isWhiteSpace s.
Definition trimEnd (s : jsstring) : jsstring :=
  rev (dropWhile isWhiteSpace (rev s)).
(** [String.prototype.trim] *)
Definition trim (s : jsstring) : jsstring := trimEnd (trimStart s).

(** [s.startsWith(p)] *)
Fixpoint startsWith (p s : jsstring) : bool :=
  match p, s with
  | [], _ => true
  | x :: p', y :: s' => N.eqb x y && startsWith p' s'
  | _ :: _, [] => false
  end.

(** [s.includes(p)] *)
Fixpoint includes (s p : jsstring) : bool :=
  startsWith p s ||
  match s with
  | [] => false
  | _ :: r => includes r p
  end.

(** [s.split("\n")]: the pieces between line feeds, at least one piece. *)
Fixpoint splitLines (s : jsstring) : list jsstring :=
  match s with
  | [] => [[]]
  | c :: r =>
      if N.eqb c 10 then [] :: splitLines r
      else match splitLines r with
           | l :: ls => (c :: l) :: ls
           | [] => [[c]]
           end
  end.

(** [xs.join(sep)] on strings. *)
Fixpoint join (sep : jsstring) (xs : list jsstring) : jsstring :=
  match xs with
  | [] => []
  | [x] => x
  | x :: rest => x ++ sep ++ join sep rest
  end.

Definition isAscii (c : char16) : bool := N.ltb c 128.

(** The ASCII part of case mapping. *)
Definition asciiLower (c : char16) : char16 :=
  if ((65 <=? c) && (c <=? 90))%N then (c + 32)%N else c.

(* ===================================================================== *)
(** ** Numbers *)
(* ===================================================================== *)

(** A finite number is kept as the decimal [mant * 10 ^ exp10] it was
    written as; it stands for the double nearest to that value (every
    finite double is such a decimal). *)
Record decimal := { mant : Z; exp10 : Z }.

Inductive number :=
| NaN
| Fin (d : decimal).

Definition ofZ (z : Z) : number := Fin {| mant := z; exp10 := 0 |}.

(** The double nearest to a decimal is zero exactly when the decimal is at
    most half the least subnormal, [2 ^ -1075], in magnitude (a tie goes to
    the even neighbour, zero). *)
Definition decimalIsZero (d : decimal) : bool :=
  (if mant d =? 0 then true
   else if 0 <=? exp10 d then false
   else Z.abs (mant d) * 2 ^ 1075 <=? 10 ^ (- exp10 d))%Z.

(** The integer a decimal denotes, when it denotes one. *)
Definition decimalInteger (d : decimal) : option Z :=
  (if mant d =? 0 then Some 0
   else if 0 <=? exp10 d then Some (mant d * 10 ^ exp10 d)
   else let p := 10 ^ (- exp10 d) in
        if mant d mod p =? 0 then Some (mant d / p) else None)%Z.

(** Decimal digits of an integer, with a leading minus sign when negative. *)
Definition digitsOfZ (z : Z) : jsstring :=
  js (NilZero.string_of_int (Z.to_int z)).

(* ===================================================================== *)
(** ** JSON values and [JSON.parse] *)
(* ===================================================================== *)

Inductive JSON :=
| JNull
| JBool (b : bool)
| JNum (d : decimal)
| JStr (s : jsstring)
| JArr (items : list JSON)
| JObj (members : list (jsstring * JSON)).

(** Own property lookup, [o[k]]. *)
Fixpoint getProp (k : jsstring) (o : list (jsstring * JSON)) : option JSON :=
  match o with
  | [] => None
  | (k', v) :: rest => if str_eqb k k' then Some v else getProp k rest
  end.

(** [CreateDataProperty]: a repeated key keeps its place and takes the new
    value. *)
Fixpoint setProp (k : jsstring) (v : JSON) (o : list (jsstring * JSON))
  : list (jsstring * JSON) :=
  match o with
  | [] => [(k, v)]
  | (k', v') :: rest =>
      if str_eqb k k' then (k, v) :: rest else (k', v') :: setProp k v rest
  end.

(** Result of a parsing step: the input is not JSON, the step ran out of
    recursion budget, or a value and the unread rest. *)
Inductive parsed (A : Type) :=
| SyntaxErr
| OutOfFuel
| Parsed (a : A) (rest : jsstring).
Arguments SyntaxErr {A}.
Arguments OutOfFuel {A}.

(** JSON white space: space, tab, line feed, carriage return. *)
Definition isJsonWs (c : char16) : bool :=
  ((c =? 32) || (c =? 9) || (c =? 10) || (c =? 13))%N.
Definition skipWs (s : jsstring) : jsstring := dropWhile isJsonWs s.

Definition hexVal (c : char16) : option N :=
  (if (48 <=? c) && (c <=? 57) then Some (c - 48)
   else if (65 <=? c) && (c <=? 70) then Some (c - 55)
   else if (97 <=? c) && (c <=? 102) then Some (c - 87)
   else None)%N.

(** The characters of a string literal after its opening quote. *)
Fixpoint parseChars (s : jsstring) : parsed jsstring :=
  match s with
  | [] => SyntaxErr
  | c :: r =>
      if N.eqb c 34 then Parsed [] r
      else if N.eqb c 92 then
        match r with
        | e :: r1 =>
            let simple (u : char16) :=
              match parseChars r1 with
              | Parsed t rest => Parsed (u :: t) rest
              | other => other
              end in
            if N.eqb e 34 then simple 34%N
            else if N.eqb e 92 then simple 92%N
            else if N.eqb e 47 then simple 47%N
            else if N.eqb e 98 then simple 8%N
            else if N.eqb e 102 then simple 12%N
            else if N.eqb e 110 then simple 10%N
            else if N.eqb e 114 then simple 13%N
            else if N.eqb e 116 then simple 9%N
            else if N.eqb e 117 then
              match r1 with
              | h1 :: h2 :: h3 :: h4 :: r2 =>
                  match hexVal h1, hexVal h2, hexVal h3, hexVal h4 with
                  | Some a, Some b, Some c', Some d =>
                      match parseChars r2 with
                      | Parsed t rest =>
                          Parsed ((((a * 16 + b) * 16 + c') * 16 + d)%N :: t) rest
                      | other => other
                      end
                  | _, _, _, _ => SyntaxErr
                  end
              | _ => SyntaxErr
              end
            else SyntaxErr
        | [] => SyntaxErr
        end
      else if N.ltb c 32 then SyntaxErr
      else match parseChars r with
           | Parsed t rest => Parsed (c :: t) rest
           | other => other
           end
  end.

(** The value of a run of decimal digits. *)
Definition digitsVal (ds : jsstring) : Z :=
  fold_left (fun acc c => (acc * 10 + Z.of_N (c - 48))%Z) ds 0%Z.

(** A number literal: an optional minus sign; then a single 0, or a digit
    1-9 followed by any digits; then optionally a point and one or more
    digits; then optionally e or E, an optional sign and one or more
    digits. *)
Definition parseNumber (s : jsstring) : parsed decimal :=
  let (neg, s0) := match s with
                   | c :: r => if N.eqb c 45 then (true, r) else (false, s)
                   | [] => (false, s)
                   end in
  let intDigits := match s0 with
                   | c :: _ => if N.eqb c 48 then [c] else takeWhile isDigit s0
                   | [] => []
                   end in
  match intDigits with
  | [] => SyntaxErr
  | _ =>
      let s1 := skipn (length intDigits) s0 in
      let fracPart :=
        match s1 with
        | c :: r =>
            if N.eqb c 46 then
              match takeWhile isDigit r with
              | [] => None
              | ds => Some (ds, skipn (length ds) r)
              end
            else Some ([], s1)
        | [] => Some ([], s1)
        end in
      match fracPart with
      | None => SyntaxErr
      | Some (fracDigits, s2) =>
          let expPart :=
            match s2 with
            | c :: r =>
                if N.eqb c 101 || N.eqb c 69 then
                  let (eneg, r1) :=
                    match r with
                    | sg :: r' =>
                        if N.eqb sg 45 then (true, r')
                        else if N.eqb sg 43 then (false, r')
                        else (false, r)
                    | [] => (false, r)
                    end in
                  match takeWhile isDigit r1 with
                  | [] => None
                  | ds => Some ((if eneg then - digitsVal ds else digitsVal ds)%Z,
                                skipn (length ds) r1)
                  end
                else Some (0%Z, s2)
            | [] => Some (0%Z, s2)
            end in
          match expPart with
          | None => SyntaxErr
          | Some (e, s3) =>
              let m := digitsVal (intDigits ++ fracDigits) in
              Parsed {| mant := if neg then (- m)%Z else m;
                        exp10 := (e - Z.of_nat (length fracDigits))%Z |} s3
          end
      end
  end.

(** Recursive descent over the grammar of ECMA-404.  [fuel] bounds the
    recursion; [JSON_parse] below supplies more than any input needs. *)
Fixpoint parseValue (fuel : nat) (s : jsstring) : parsed JSON :=
  match fuel with
  | O => OutOfFuel
  | S f =>
      match skipWs s with
      | [] => SyntaxErr
      | c :: r =>
          if N.eqb c 34 then
            match parseChars r with
            | Parsed t rest => Parsed (JStr t) rest
            | SyntaxErr => SyntaxErr
            | OutOfFuel => OutOfFuel
            end
          else if N.eqb c 91 then
            match skipWs r with
            | c1 :: r1 =>
                if N.eqb c1 93 then Parsed (JArr []) r1
                else match parseElements f r with
                     | Parsed items rest => Parsed (JArr items) rest
                     | SyntaxErr => SyntaxErr
                     | OutOfFuel => OutOfFuel
                     end
            | [] => SyntaxErr
            end
          else if N.eqb c 123 then
            match skipWs r with
            | c1 :: r1 =>
                if N.eqb c1 125 then Parsed (JObj []) r1
                else match parseMembers f [] r with
                     | Parsed ms rest => Parsed (JObj ms) rest
                     | SyntaxErr => SyntaxErr
                     | OutOfFuel => OutOfFuel
                     end
            | [] => SyntaxErr
            end
          else if startsWith (js "null") (c :: r) then Parsed JNull (skipn 4 (c :: r))
          else if startsWith (js "true") (c :: r) then Parsed (JBool true) (skipn 4 (c :: r))
          else if startsWith (js "false") (c :: r) then Parsed (JBool false) (skipn 5 (c :: r))
          else match parseNumber (c :: r) with
               | Parsed d rest => Parsed (JNum d) rest
               | SyntaxErr => SyntaxErr
               | OutOfFuel => OutOfFuel
               end
      end
  end

with parseElements (fuel : nat) (s : jsstring) : parsed (list JSON) :=
  match fuel with
  | O => OutOfFuel
  | S f =>
      match parseValue f s with
      | Parsed v rest =>
          match skipWs rest with
          | c :: r =>
              if N.eqb c 93 then Parsed [v] r
              else if N.eqb c 44 then
                match parseElements f r with
                | Parsed vs rest' => Parsed (v :: vs) rest'
                | other => other
                end
              else SyntaxErr
          | [] => SyntaxErr
          end
      | SyntaxErr => SyntaxErr
      | OutOfFuel => OutOfFuel
      end
  end

with parseMembers (fuel : nat) (acc : list (jsstring * JSON)) (s : jsstring)
  : parsed (list (jsstring * JSON)) :=
  match fuel with
  | O => OutOfFuel
  | S f =>
      match skipWs s with
      | q :: r0 =>
          if N.eqb q 34 then
            match parseChars r0 with
            | Parsed k rest0 =>
                match skipWs rest0 with
                | colon :: r1 =>
                    if N.eqb colon 58 then
                      match parseValue f r1 with
                      | Parsed v rest =>
                          match skipWs rest with
                          | c :: r =>
                              if N.eqb c 125 then Parsed (setProp k v acc) r
                              else if N.eqb c 44 then parseMembers f (setProp k v acc) r
                              else SyntaxErr
                          | [] => SyntaxErr
                          end
                      | SyntaxErr => SyntaxErr
                      | OutOfFuel => OutOfFuel
                      end
                    else SyntaxErr
                | [] => SyntaxErr
                end
            | SyntaxErr => SyntaxErr
            | OutOfFuel => OutOfFuel
            end
          else SyntaxErr
      | [] => SyntaxErr
      end
  end.

(** [JSON.parse(text)]: [None] when it throws a [SyntaxError]. *)
Definition JSON_parse (text : jsstring) : option JSON :=
  match parseValue (2 * length text + 2) text with
  | Parsed v rest =>
      match skipWs rest with
      | [] => Some v
      | _ :: _ => None
      end
  | SyntaxErr => None
  | OutOfFuel => None
  end.

(* ===================================================================== *)
(** ** The engine *)
(* ===================================================================== *)

(** What ECMA-262 leaves to the engine, or what needs its Unicode and time
    zone tables.  Every definition below that depends on one of these takes
    the host as an argument, and theorems hold for every host. *)
Record Host := {
  (** [toLowerCase] at a code unit outside ASCII, given the text before and
      after it (the mapping of a final sigma looks at its neighbours). *)
  lowerOther : jsstring -> char16 -> jsstring -> jsstring;
  (** [new Date(s).getFullYear()]; [None] is NaN, the year of an invalid
      date.  Which strings are dates beyond the ISO format, and the time
      zone the year is read in, are the engine's. *)
  Date_getFullYear : jsstring -> option Z;
  (** [Number.prototype.toString] of a number that is not an integer below
      [2 ^ 53] in magnitude. *)
  Number_toString_other : decimal -> jsstring;
  (** The message of the [SyntaxError] [JSON.parse] throws on a text. *)
  SyntaxError_message : jsstring -> jsstring;
  (** The message of the [TypeError] thrown when the named callee is not a
      function. *)
  notFunction_message : jsstring -> jsstring;
  (** The message of the [TypeError] thrown when an object has no
      primitive value. *)
  notPrimitive_message : jsstring;
  (** The message of the [TypeError] thrown when a member of [undefined]
      or [null] is read, the callee being the member. *)
  nullish_message : jsstring -> jsstring
}.

Inductive ErrorKind := PlainError | SyntaxError | TypeError.

(** An [Error] object.  The [catch] clauses of the service read only its
    [message]. *)
Record JsError := { kind : ErrorKind; message : jsstring }.

Definition mkError (msg : jsstring) : JsError :=
  {| kind := PlainError; message := msg |}.

(** What a [throw] statement or a rejected promise carries: an [Error]
    object, or any other value ([None] being [undefined]; a primitive, an
    array or an object literal as JSON has them).  The service and the
    engine throw [Error] objects only; the value a call of the endpoint
    rejects with is the endpoint's to choose. *)
Inductive thrown :=
| ErrorObject (e : JsError)
| PlainValue (v : option JSON).
Coercion ErrorObject : JsError >-> thrown.

(** How an evaluation ends: with a value, or by throwing. *)
Inductive completion (A : Type) :=
| Normal (a : A)
| Throw (t : thrown).
Arguments Throw {A}.

Definition bindC {A B} (c : completion A) (k : A -> completion B)
  : completion B :=
  match c with
  | Normal a => k a
  | Throw e => Throw e
  end.

(** Completions in order: the values of all, or what the first that throws
    threw. *)
Fixpoint sequenceC {A} (cs : list (completion A)) : completion (list A) :=
  match cs with
  | [] => Normal []
  | c :: r =>
      bindC c (fun a => bindC (sequenceC r) (fun rest => Normal (a :: rest)))
  end.

(** JavaScript truthiness of the values met here; an absent property
    ([undefined]) is falsy. *)
Definition truthyStr (o : option jsstring) : bool :=
  match o with
  | Some (_ :: _) => true
  | _ => false
  end.

Definition truthyNum (o : option number) : bool :=
  match o with
  | Some (Fin d) => negb (decimalIsZero d)
  | _ => false
  end.

Definition truthy (o : option JSON) : bool :=
  match o with
  | None => false
  | Some JNull => false
  | Some (JBool b) => b
  | Some (JNum d) => negb (decimalIsZero d)
  | Some (JStr s) => negb (str_eqb s [])
  | Some (JArr _) => true
  | Some (JObj _) => true
  end.

(** [s?.k] on a value [JSON.parse] returned: only objects carry the member
    names read here. *)
Definition member (s : JSON) (k : jsstring) : option JSON :=
  match s with
  | JObj ms => getProp k ms
  | _ => None
  end.

Definition hasOwn (k : jsstring) (ms : list (jsstring * JSON)) : bool :=
  match getProp k ms with
  | Some _ => true
  | None => false
  end.

(** A value that no object with a member of its own named [toString]
    hides in: not such an object, and not an array that holds one at any
    depth. *)
Fixpoint printable (v : JSON) : bool :=
  match v with
  | JArr items => forallb printable items
  | JObj ms => negb (hasOwn (js "toString") ms)
  | _ => true
  end.

Definition isStringValue (v : option JSON) : bool :=
  match v with
  | Some (JStr _) => true
  | _ => false
  end.

Section Engine.
Variable host : Host.

(** [String.prototype.toLowerCase]. *)
Fixpoint lowerFrom (before s : jsstring) : jsstring :=
  match s with
  | [] => []
  | c :: r =>
      (if isAscii c then [asciiLower c] else lowerOther host before c r)
        ++ lowerFrom (before ++ [c]) r
  end.
Definition toLowerCase (s : jsstring) : jsstring := lowerFrom [] s.

(** [Number::toString] in radix 10. *)
Definition Number_toString (d : decimal) : jsstring :=
  match decimalInteger d with
  | Some z => if (Z.abs z <? 2 ^ 53)%Z then digitsOfZ z
              else Number_toString_other host d
  | None => Number_toString_other host d
  end.

(** [ToString] of a number, as a template literal applies it. *)
Definition showNum (n : number) : jsstring :=
  match n with
  | NaN => js "NaN"
  | Fin d => Number_toString d
  end.

Definition showOptNum (o : option number) : jsstring :=
  match o with
  | Some n => showNum n
  | None => js "undefined"
  end.

Definition showOptStr (o : option jsstring) : jsstring :=
  match o with
  | Some s => s
  | None => js "undefined"
  end.

(** The abstract operation [ToString] on a parsed JSON value.  An array
    joins its elements with commas ([null] prints as nothing); an object
    prints through [Object.prototype.toString] unless a member of its own
    named [toString] hides it, and such a member is never a function. *)
Fixpoint ToString (v : JSON) : completion jsstring :=
  match v with
  | JNull => Normal (js "null")
  | JBool b => Normal (if b then js "true" else js "false")
  | JNum d => Normal (Number_toString d)
  | JStr s => Normal s
  | JArr items =>
      bindC
        (sequenceC
           (map (fun x => match x with
                          | JNull => Normal []
                          | _ => ToString x
                          end) items))
        (fun parts => Normal (join (js ",") parts))
  | JObj ms =>
      if hasOwn (js "toString") ms
      then Throw {| kind := TypeError; message := notPrimitive_message host |}
      else Normal (js "[object Object]")
  end.

(** The method call [v.toString()], [callee] being the source text of the
    callee and [None] the value [undefined]. *)
Definition callToString (callee : jsstring) (v : option JSON)
  : completion jsstring :=
  match v with
  | None | Some JNull =>
      Throw {| kind := TypeError; message := nullish_message host callee |}
  | Some (JObj ms) =>
      if hasOwn (js "toString") ms
      then Throw {| kind := TypeError; message := notFunction_message host callee |}
      else Normal (js "[object Object]")
  | Some v' => ToString v'
  end.

(** The method call [v.trim()]: only a string has a [trim] that is a
    function. *)
Definition callTrim (callee : jsstring) (v : option JSON)
  : completion jsstring :=
  match v with
  | None | Some JNull =>
      Throw {| kind := TypeError; message := nullish_message host callee |}
  | Some (JStr s) => Normal (trim s)
  | Some _ =>
      Throw {| kind := TypeError; message := notFunction_message host callee |}
  end.

End Engine.

(* ===================================================================== *)
(** ** Data model of the service *)
(* ===================================================================== *)

Module Movie.
(** [interface MovieData]: every field optional. *)
Record Named := { name_of : jsstring }.
Record Genre := { genre_id : option number; genre_name : jsstring }.
Record MovieData := {
  title : option jsstring;
  name : option jsstring;
  release_date : option jsstring;
  first_air_date : option jsstring;
  overview : option jsstring;
  genre_ids : option (list number);
  vote_average : option number;
  id : option number;
  director : option jsstring;
  cast : option (list jsstring);
  runtime : option number;
  genres : option (list Genre);
  production_companies : option (list Named);
  original_language : option jsstring;
  created_by : option (list Named);
  episode_run_time : option (list number);
  number_of_seasons : option number;
  number_of_episodes : option number;
  networks : option (list Named)
}.
(** The object literal [{}]. *)
Definition empty : MovieData :=
  Build_MovieData None None None None None None None None None None
                  None None None None None None None None None.
End Movie.

Module Facts.
(** [interface AIFactsResponse] *)
Record AIFactsResponse := {
  facts : list jsstring;
  success : bool;
  error : option jsstring
}.
End Facts.

Module Sugg.
Record Suggestion := {
  title : jsstring;
  year : jsstring;
  type : jsstring;
  overview : jsstring;
  reason : jsstring;
  searchKeyword : jsstring
}.
(** [interface AISuggestionResponse] *)
Record AISuggestionResponse := {
  suggestion : Suggestion;
  success : bool;
  error : option jsstring
}.
End Sugg.

(* ===================================================================== *)
(** ** Regular expressions of the parsers *)
(* ===================================================================== *)

(** [s.replace(/^```json\s*/i, "")]: a leading fence, the word in either
    letter case, and the white space after it. *)
Definition stripFenceOpen (s : jsstring) : jsstring :=
  if startsWith (js "```") s
     && str_eqb (map asciiLower (firstn 4 (skipn 3 s))) (js "json")
  then dropWhile isWhiteSpace (skipn 7 s)
  else s.

(** [s.replace(/```\s*$/i, "")]: the leftmost fence that only white space
    separates from the end of the text is cut off with that white space. *)
Fixpoint stripFenceClose (s : jsstring) : jsstring :=
  match s with
  | [] => []
  | c :: r =>
      if startsWith (js "```") s && forallb isWhiteSpace (skipn 3 s)
      then []
      else c :: stripFenceClose r
  end.

(** The [cleaned] text both parsers hand to [JSON.parse]. *)
Definition cleaned (responseText : jsstring) : jsstring :=
  trim (stripFenceClose (stripFenceOpen responseText)).

(** [l.replace(/^\d+\.\s*/, "")] *)
Definition stripEnumeration (l : jsstring) : jsstring :=
  match takeWhile isDigit l with
  | [] => l
  | ds =>
      match skipn (length ds) l with
      | c :: r => if N.eqb c 46 then dropWhile isWhiteSpace r else l
      | [] => l
      end
  end.

(** The character class of the second pattern as the source file spells
    it: hyphen, asterisk, and the three characters U+00E2, U+20AC,
    U+00A2. *)
Definition isBullet (c : char16) : bool :=
  ((c =? 45) || (c =? 42) || (c =? 226) || (c =? 8364) || (c =? 162))%N.

(** [l.replace(/^[-*...]\s*/, "")] *)
Definition stripBullet (l : jsstring) : jsstring :=
  match l with
  | c :: r => if isBullet c then dropWhile isWhiteSpace r else l
  | [] => l
  end.

(* ===================================================================== *)
(** ** Parsers *)
(* ===================================================================== *)

(** [f => typeof f === "string" && f.trim().length > 10] *)
Definition isFact (f : JSON) : bool :=
  match f with
  | JStr s => Nat.ltb 10 (length (trim s))
  | _ => false
  end.

(** The strings among JSON values (after [isFact], all of them). *)
Fixpoint strings (vs : list JSON) : list jsstring :=
  match vs with
  | [] => []
  | JStr s :: r => s :: strings r
  | _ :: r => strings r
  end.

(** [l => l.length > 20 && !l.startsWith("{") && !l.startsWith("[")] *)
Definition isFactLine (l : jsstring) : bool :=
  Nat.ltb 20 (length l) && negb (startsWith (js "{") l)
  && negb (startsWith (js "[") l).

(** The [catch] branch of [parseFactsResponse]. *)
Definition factLines (responseText : jsstring) : list jsstring :=
  firstn 10
    (map (fun l => stripBullet (stripEnumeration l))
       (filter isFactLine (map trim (splitLines responseText)))).

Definition parseFactsResponse (responseText : jsstring) : list jsstring :=
  match JSON_parse (cleaned responseText) with
  | Some (JArr facts) => strings (firstn 10 (filter isFact facts))
  | Some _ => []
  | None => factLines responseText
  end.

(** The four messages [handleError] maps provider errors to. *)
Definition authMessage : jsstring :=
  js "AI service authentication failed. Please check configuration.".
Definition rateLimitMessage : jsstring :=
  js "AI service rate limit exceeded. Please try again later.".
Definition overloadMessage : jsstring :=
  js "The AI service is temporarily overloaded. Please try again shortly.".
Definition safetyMessage : jsstring :=
  js "Content was blocked by safety filters.".

Section Parsers.
Variable host : Host.

Definition isMovieOrSeries (v : option JSON) : bool :=
  match v with
  | Some (JStr t) => str_eqb t (js "movie") || str_eqb t (js "series")
  | _ => false
  end.

Definition typeString (v : option JSON) : jsstring :=
  match v with
  | Some (JStr t) => t
  | _ => []
  end.

Definition parseSuggestionResponse (responseText : jsstring)
  : completion Sugg.Suggestion :=
  match JSON_parse (cleaned responseText) with
  | None =>
      Throw {| kind := SyntaxError;
               message := SyntaxError_message host (cleaned responseText) |}
  | Some s =>
      if negb (truthy (member s (js "title")))
         || negb (truthy (member s (js "year")))
         || negb (truthy (member s (js "type")))
         || negb (truthy (member s (js "overview")))
         || negb (truthy (member s (js "reason")))
         || negb (truthy (member s (js "searchKeyword")))
      then Throw (mkError (js "Invalid suggestion format"))
      else if negb (isMovieOrSeries (member s (js "type")))
      then Throw (mkError (js "Invalid suggestion type"))
      else
        bindC (callTrim host (js "s.title.trim") (member s (js "title"))) (fun title =>
        bindC (callToString host (js "s.year.toString") (member s (js "year"))) (fun year =>
        bindC (callTrim host (js "s.overview.trim") (member s (js "overview"))) (fun overview =>
        bindC (callTrim host (js "s.reason.trim") (member s (js "reason"))) (fun reason =>
        bindC (callTrim host (js "s.searchKeyword.trim") (member s (js "searchKeyword"))) (fun searchKeyword =>
        Normal {| Sugg.title := title;
                  Sugg.year := year;
                  Sugg.type := typeString (member s (js "type"));
                  Sugg.overview := overview;
                  Sugg.reason := reason;
                  Sugg.searchKeyword := searchKeyword |})))))
  end.

(** [handleError]: the message the service reports for a caught error. *)
Definition handleError (error : JsError) : jsstring :=
  let message' := toLowerCase host (message error) in
  if includes message' (js "api key") || includes message' (js "authentication")
  then authMessage
  else if includes message' (js "quota") || includes message' (js "rate limit")
  then rateLimitMessage
  else if includes message' (js "overloaded") || includes message' (js "unavailable")
  then overloadMessage
  else if includes message' (js "blocked") || includes message' (js "safety")
  then safetyMessage
  else message error.

(** [this.handleError(error as Error)] in a [catch] clause, [error] being
    whatever was caught.  The cast checks nothing: [handleError] starts
    with [error.message.toLowerCase()], which throws a [TypeError] when
    [error] is [undefined] or [null], when it has no [message] (a string
    or a number that was thrown, an object without that member), and when
    its [message] is not a string.  A value with a string [message] is
    handled as an [Error] with that message is. *)
Definition handleCaught (error : thrown) : completion jsstring :=
  match error with
  | ErrorObject e => Normal (handleError e)
  | PlainValue None | PlainValue (Some JNull) =>
      Throw {| kind := TypeError;
               message := nullish_message host (js "error.message") |}
  | PlainValue (Some v) =>
      match member v (js "message") with
      | Some (JStr m) => Normal (handleError (mkError m))
      | None | Some JNull =>
          Throw {| kind := TypeError;
                   message := nullish_message host
                                (js "error.message.toLowerCase") |}
      | Some _ =>
          Throw {| kind := TypeError;
                   message := notFunction_message host
                                (js "error.message.toLowerCase") |}
      end
  end.

End Parsers.

(* ===================================================================== *)
(** ** Prompt generation *)
(* ===================================================================== *)

Definition lines (ls : list jsstring) : jsstring := join newline ls.

Section Prompts.
Variable host : Host.

(** [date ? new Date(date).getFullYear() : "Unknown"], as the template
    literal prints it. *)
Definition yearOf (date : option jsstring) : jsstring :=
  if truthyStr date
  then match Date_getFullYear host (showOptStr date) with
       | Some y => digitsOfZ y
       | None => js "NaN"
       end
  else js "Unknown".

(** [xs?.length] used as a condition. *)
Definition nonEmpty {A} (xs : option (list A)) : bool :=
  match xs with
  | Some (_ :: _) => true
  | _ => false
  end.

Definition names (xs : option (list Movie.Named)) : jsstring :=
  match xs with
  | Some l => join (js ", ") (map Movie.name_of l)
  | None => []
  end.

(** [a || b] on strings, [a] possibly absent. *)
Definition orElse (a : option jsstring) (b : jsstring) : jsstring :=
  if truthyStr a then showOptStr a else b.

(** [const isTV = !!data.name] *)
Definition isTV (data : Movie.MovieData) : bool := truthyStr (Movie.name data).

(** [const title = isTV ? data.name : data.title], as the template prints
    it. *)
Definition promptTitle (data : Movie.MovieData) : jsstring :=
  showOptStr (if isTV data then Movie.name data else Movie.title data).

(** [const releaseYear], as the template prints it. *)
Definition releaseYear (data : Movie.MovieData) : jsstring :=
  if isTV data then yearOf (Movie.first_air_date data)
  else yearOf (Movie.release_date data).

Definition createMoviePrompt (data : Movie.MovieData) : jsstring :=
  let isTV := isTV data in
  lines [
    js "You are an expert cinematic researcher with deep knowledge of movies and TV shows.";
    [];
    jq "GOAL: Generate Top 10 most exciting and factual information about '"
      ++ promptTitle data ++ jq "' (" ++ releaseYear data ++ js ") - a "
      ++ (if isTV then js "TV Series" else js "Movie") ++ js ".";
    [];
    js "IMPORTANT: Use only your training data knowledge. Focus on well-known, verifiable facts that would be commonly reported.";
    [];
    js "Basic Info:";
    js "- Overview: " ++ orElse (Movie.overview data) (js "Not available");
    js "- Language: " ++ orElse (Movie.original_language data) (js "en");
    js "- Genres: "
      ++ orElse (option_map (fun gs => join (js ", ") (map Movie.genre_name gs))
                            (Movie.genres data))
                (js "various");
    js "- Runtime: "
      ++ (if truthyNum (Movie.runtime data)
          then showOptNum host (Movie.runtime data) ++ js " minutes"
          else js "not specified");
    (if nonEmpty (Movie.production_companies data)
     then js "- Producers: " ++ names (Movie.production_companies data)
     else []);
    (if isTV && nonEmpty (Movie.created_by data)
     then js "- Creators: " ++ names (Movie.created_by data)
     else []);
    (if isTV && nonEmpty (Movie.networks data)
     then js "- Networks: " ++ names (Movie.networks data)
     else []);
    (if isTV && truthyNum (Movie.number_of_seasons data)
     then js "- Seasons: " ++ showOptNum host (Movie.number_of_seasons data)
          ++ js ", Episodes: " ++ showOptNum host (Movie.number_of_episodes data)
     else []);
    [];
    js "Requirements:";
    js "1. Focus on widely-known, well-documented facts from your training data";
    js "2. Format as compelling, single-paragraph facts";
    js "3. Include box office/streaming performance if available";
    js "4. Cover production stories, cast details, awards, controversies";
    js "5. Make each fact attention-grabbing and viral-worthy";
    js "6. Ensure accuracy - only include information you're confident about";
    [];
    js "Return exactly 10 facts as JSON array:";
    jq "['Exciting fact 1', 'Exciting fact 2', ...]";
    [];
    js "Return ONLY the JSON array, no other text."
  ].

End Prompts.

Definition createSuggestionPrompt : jsstring :=
  lines [
    js "You are a film curator recommending hidden gems and underrated titles.";
    [];
    js "Recommend one exceptional movie or TV series that deserves more recognition.";
    [];
    js "Focus on:";
    js "- Hidden gems and cult classics";
    js "- International and independent films";
    js "- Critically acclaimed but overlooked titles";
    [];
    js "Return as JSON:";
    js "{";
    jq "  'title': 'Exact title',";
    jq "  'year': 'Release year',";
    jq "  'type': 'movie or series',";
    jq "  'overview': '2-3 sentence plot summary',";
    jq "  'reason': 'Why this is worth watching',";
    jq "  'searchKeyword': 'Best search term'";
    js "}";
    [];
    js "Return ONLY the JSON object, no other text."
  ].

(* ===================================================================== *)
(** ** Effects: the endpoint, the timer and the logger *)
(* ===================================================================== *)

(** What the service does to the outside, in order. *)
Inductive event :=
| Called (model contents : jsstring)
| Slept (ms : Z)
| LogInfo (msg : jsstring) (title : option jsstring)
| LogError (msg : jsstring) (error : jsstring).

(** The trace so far, oldest event first. *)
Definition world := list event.

(** The reply of [generateContent]: [response] may be nullish, and so may
    its [text]. *)
Inductive response :=
| NoResponse
| Response (text : option jsstring).

(** [response?.text] *)
Definition textOf (r : response) : option jsstring :=
  match r with
  | NoResponse => None
  | Response t => t
  end.

(** The promise of one call settles: it resolves, or rejects with some
    value. *)
Inductive outcome :=
| Resolves (r : response)
| Rejects (t : thrown).

(** An effectful computation: from the trace so far to a completion and
    the extended trace. *)
Definition Eff (A : Type) := world -> completion A * world.

Definition ret {A} (a : A) : Eff A := fun w => (Normal a, w).
Definition throw {A} (t : thrown) : Eff A := fun w => (Throw t, w).
(** A pure evaluation inside an effectful one. *)
Definition eval {A} (c : completion A) : Eff A := fun w => (c, w).
Definition bind {A B} (m : Eff A) (k : A -> Eff B) : Eff B :=
  fun w =>
    match m w with
    | (Normal a, w') => k a w'
    | (Throw e, w') => (Throw e, w')
    end.
(** [try { m } catch (error) { h error }] *)
Definition tryCatch {A} (m : Eff A) (h : thrown -> Eff A) : Eff A :=
  fun w =>
    match m w with
    | (Normal a, w') => (Normal a, w')
    | (Throw e, w') => h e w'
    end.
Definition emit (e : event) : Eff unit := fun w => (Normal tt, w ++ [e]).

Declare Scope eff_scope.
Delimit Scope eff_scope with eff.
Notation "x <- m ;; k" := (bind m (fun x => k))
  (at level 61, m at next level, right associativity) : eff_scope.
Notation "m ;;; k" := (bind m (fun _ => k))
  (at level 61, right associativity) : eff_scope.

Definition countCalls (w : world) : nat :=
  length (filter (fun e => match e with Called _ _ => true | _ => false end) w).

Definition MODEL_NAME : jsstring := js "gemini-2.0-flash".

Section Service.
Variable host : Host.
(** The endpoint: how its [n]-th call (from 0) settles. *)
Variable endpoint : nat -> outcome.

(** [this.ai.models.generateContent({ model, contents })] *)
Definition generateContent (contents : jsstring) : Eff response :=
  fun w =>
    let w' := w ++ [Called MODEL_NAME contents] in
    match endpoint (countCalls w) with
    | Resolves r => (Normal r, w')
    | Rejects e => (Throw e, w')
    end.

Equations? retry {T} (fn : Eff T) (retries : Z) (delayMs : Z) (w : world)
  : completion T * world by wf (Z.to_nat retries) lt :=
retry fn retries delayMs w with fn w := {
  | (Normal v, w1) => (Normal v, w1)
  | (Throw err, w1) with Z_le_gt_dec retries 0 := {
      | left _ => (Throw err, w1)
      | right _ => retry fn (retries - 1) (delayMs * 2) (w1 ++ [Slept delayMs])
    }
}.
Proof. lia. Qed.

Definition failure (msg : jsstring) : Facts.AIFactsResponse :=
  {| Facts.facts := []; Facts.success := false; Facts.error := Some msg |}.

(** [data.name || data.title] *)
Definition titleOf (data : Movie.MovieData) : option jsstring :=
  if truthyStr (Movie.name data) then Movie.name data else Movie.title data.

Definition generateFacts (data : Movie.MovieData) : Eff Facts.AIFactsResponse :=
  tryCatch
    (let title := titleOf data in
     if negb (truthyStr title) then throw (mkError (js "Title is required"))
     else
       (emit (LogInfo (js "Generating AI facts") title) ;;;
        response <- retry (generateContent (createMoviePrompt host data)) 2 900 ;;
        if negb (truthyStr (textOf response))
        then throw (mkError (js "Empty response from Gemini API"))
        else
          let facts := parseFactsResponse (showOptStr (textOf response)) in
          if Nat.eqb (length facts) 0
          then throw (mkError (js "No valid facts extracted"))
          else ret {| Facts.facts := facts; Facts.success := true;
                      Facts.error := None |})%eff)
    (fun error =>
       (msg <- eval (handleCaught host error) ;;
        emit (LogError (js "Error generating AI facts") msg) ;;;
        ret (failure msg))%eff).

Definition placeholder : Sugg.Suggestion :=
  {| Sugg.title := []; Sugg.year := []; Sugg.type := js "movie";
     Sugg.overview := []; Sugg.reason := []; Sugg.searchKeyword := [] |}.

Definition generateSuggestion : Eff Sugg.AISuggestionResponse :=
  tryCatch
    (emit (LogInfo (js "Generating AI suggestion") None) ;;;
     response <- generateContent createSuggestionPrompt ;;
     if negb (truthyStr (textOf response))
     then throw (mkError (js "Empty response from Gemini API"))
     else
       match parseSuggestionResponse host (showOptStr (textOf response)) with
       | Throw e => throw e
       | Normal suggestion =>
           ret {| Sugg.suggestion := suggestion; Sugg.success := true;
                  Sugg.error := None |}
       end)%eff
    (fun error =>
       (msg <- eval (handleCaught host error) ;;
        emit (LogError (js "Error generating AI suggestion") msg) ;;;
        ret {| Sugg.suggestion := placeholder; Sugg.success := false;
               Sugg.error := Some msg |})%eff).

End Service.

(* ===================================================================== *)
(** ** The module-level handle *)
(* ===================================================================== *)

(** What the module does while it sets the service up, in order: the
    client it creates and the lines it logs. *)
Inductive setupEvent :=
| ClientCreated (apiKey : jsstring)
| InfoLogged (msg : jsstring)
| ErrorLogged (msg : jsstring).

(** A [GeminiService] object: the key its client was created with, and
    its identity, the number of services constructed before it. *)
Record GeminiService := { apiKeyOf : jsstring; identity : nat }.

(** The module's state: the variable [geminiServiceInstance] ([None] is
    [null]) and what setting up has done so far. *)
Record moduleState := {
  geminiServiceInstance : option GeminiService;
  setupLog : list setupEvent
}.

(** A computation on the module's state. *)
Definition Setup (A : Type) := moduleState -> completion A * moduleState.

(** [!apiKey?.trim()], [None] being [undefined]. *)
Definition blankKey (apiKey : option jsstring) : bool :=
  negb (truthyStr (option_map trim apiKey)).

(** How many clients have been created so far. *)
Definition clientsCreated (log : list setupEvent) : nat :=
  length (filter (fun e => match e with ClientCreated _ => true | _ => false end) log).

(** [new GeminiService(apiKey)]: the check of the key, then the client
    (the library's constructor is taken to return), then the log line. *)
Definition newGeminiService (apiKey : option jsstring) : Setup GeminiService :=
  fun st =>
    if blankKey apiKey
    then (Throw (mkError (js "Invalid API key provided")), st)
    else
      let key := showOptStr apiKey in
      (Normal {| apiKeyOf := key; identity := clientsCreated (setupLog st) |},
       {| geminiServiceInstance := geminiServiceInstance st;
          setupLog := setupLog st
                      ++ [ClientCreated key;
                          InfoLogged (js "GeminiService initialized successfully")] |}).

(** [getGeminiService()], [env] being [process.env.GEMINI_API_KEY] at the
    time of the call. *)
Definition getGeminiService (env : option jsstring) : Setup GeminiService :=
  fun st =>
    match geminiServiceInstance st with
    | Some service => (Normal service, st)
    | None =>
        if blankKey env
        then (Throw (mkError (js "GEMINI_API_KEY is not configured")),
              {| geminiServiceInstance := None;
                 setupLog := setupLog st
                             ++ [ErrorLogged (js "GEMINI_API_KEY is missing")] |})
        else
          match newGeminiService env st with
          | (Normal service, st') =>
              (Normal service,
               {| geminiServiceInstance := Some service;
                  setupLog := setupLog st' |})
          | (Throw e, st') => (Throw e, st')
          end
    end.

(* ===================================================================== *)
(** ** A reference host *)
(* ===================================================================== *)

(** The year of a date-only ISO string [YYYY-MM-DD]; every other string is
    an invalid date for this host. *)
Definition isoYear (s : jsstring) : option Z :=
  match s with
  | [y1; y2; y3; y4; d1; m1; m2; d2; a1; a2] =>
      let month := digitsVal [m1; m2] in
      let day := digitsVal [a1; a2] in
      if forallb isDigit [y1; y2; y3; y4; m1; m2; a1; a2]
         && N.eqb d1 45 && N.eqb d2 45
         && (1 <=? month)%Z && (month <=? 12)%Z
         && (1 <=? day)%Z && (day <=? 31)%Z
      then Some (digitsVal [y1; y2; y3; y4])
      else None
  | _ => None
  end.

(** A small host to run the service on: no case mapping outside ASCII,
    ISO dates read in UTC, other numbers printed as mantissa and exponent,
    and diagnostics in the wording of V8. *)
Definition plainHost : Host := {|
  lowerOther := fun _ c _ => [c];
  Date_getFullYear := isoYear;
  Number_toString_other :=
    fun d => digitsOfZ (mant d) ++ js "e" ++ digitsOfZ (exp10 d);
  SyntaxError_message := fun text => js "Unexpected token in JSON";
  notFunction_message := fun callee => callee ++ js " is not a function";
  notPrimitive_message := js "Cannot convert object to primitive value";
  nullish_message := fun callee => js "Cannot read properties of undefined"
|}.

(* ===================================================================== *)
(** ** Sample data *)
(* ===================================================================== *)

(** A movie, a series, and a movie whose release date is a placeholder. *)
Definition sampleMovie : Movie.MovieData :=
  {| Movie.title := Some (js "Heat"); Movie.name := None;
     Movie.release_date := Some (js "1995-12-15"); Movie.first_air_date := None;
     Movie.overview := None; Movie.genre_ids := None; Movie.vote_average := None;
     Movie.id := None; Movie.director := None; Movie.cast := None;
     Movie.runtime := Some (ofZ 170); Movie.genres := None;
     Movie.production_companies := None; Movie.original_language := None;
     Movie.created_by := None; Movie.episode_run_time := None;
     Movie.number_of_seasons := None; Movie.number_of_episodes := None;
     Movie.networks := None |}.

Definition sampleSeries : Movie.MovieData :=
  {| Movie.title := None; Movie.name := Some (js "Dark");
     Movie.release_date := None; Movie.first_air_date := Some (js "2017-12-01");
     Movie.overview := None; Movie.genre_ids := None; Movie.vote_average := None;
     Movie.id := None; Movie.director := None; Movie.cast := None;
     Movie.runtime := None; Movie.genres := None;
     Movie.production_companies := None; Movie.original_language := None;
     Movie.created_by := None; Movie.episode_run_time := None;
     Movie.number_of_seasons := Some (ofZ 3);
     Movie.number_of_episodes := Some (ofZ 26);
     Movie.networks := None |}.

Definition undatedMovie : Movie.MovieData :=
  {| Movie.title := Some (js "Heat"); Movie.name := None;
     Movie.release_date := Some (js "TBA"); Movie.first_air_date := None;
     Movie.overview := None; Movie.genre_ids := None; Movie.vote_average := None;
     Movie.id := None; Movie.director := None; Movie.cast := None;
     Movie.runtime := None; Movie.genres := None;
     Movie.production_companies := None; Movie.original_language := None;
     Movie.created_by := None; Movie.episode_run_time := None;
     Movie.number_of_seasons := None; Movie.number_of_episodes := None;
     Movie.networks := None |}.

(** A fenced reply of two facts; an endpoint that is unavailable twice and
    then sends it, and one that never replies. *)
Definition unavailable : JsError := mkError (js "503 Service Unavailable").
Definition twoFacts : jsstring :=
  js "```json" ++ newline
     ++ jq "['a valid fact here','another one too']" ++ newline ++ js "```".
Definition flaky (n : nat) : outcome :=
  if Nat.ltb n 2 then Rejects unavailable
  else Resolves (Response (Some twoFacts)).
Definition down (n : nat) : outcome := Rejects unavailable.

(** An endpoint whose rejections carry no message. *)
Definition silent (n : nat) : outcome := Rejects (mkError []).

(** An endpoint that rejects with a string, not with an [Error]. *)
Definition throwsText (n : nat) : outcome :=
  Rejects (PlainValue (Some (JStr (js "socket hang up")))).

(** A reply whose only line is an enumeration marker, twenty spaces and a
    short word. *)
Definition numberedStub : jsstring := js "1.                    Heat".

(** A reply that is a JSON string, not an array: the line-based extraction
    would keep it, but it is not consulted. *)
Definition quotedFact : jsstring :=
  jq "'Heat was filmed on location in Los Angeles'".

(** Fifteen facts in a JSON array. *)
Definition fifteenFacts : jsstring :=
  jq "['fact number 01','fact number 02','fact number 03','fact number 04','fact number 05','fact number 06','fact number 07','fact number 08','fact number 09','fact number 10','fact number 11','fact number 12','fact number 13','fact number 14','fact number 15']".

(** An array whose only element is ten characters followed by five
    spaces. *)
Definition paddedFact : jsstring := jq "['Heat, 1995     ']".

(** A reply of one line: four spaces, then seventeen characters. *)
Definition indentedLine : jsstring := js "    Shot in 107 days.".

(** The sample suggestion, and variants of it: a type outside the
    enumeration, a title that is a number, a title that is blank. *)
Definition sampleSuggestion : jsstring :=
  jq "{'title':'X','year':2020,'type':'movie','overview':'o','reason':'r','searchKeyword':'k'}".
Definition bookSuggestion : jsstring :=
  jq "{'title':'X','year':2020,'type':'book','overview':'o','reason':'r','searchKeyword':'k'}".
Definition numericTitle : jsstring :=
  jq "{'title':1995,'year':2020,'type':'movie','overview':'o','reason':'r','searchKeyword':'k'}".
Definition blankTitle : jsstring :=
  jq "{'title':'   ','year':'1995','type':'movie','overview':'o','reason':'r','searchKeyword':'k'}".

(** An endpoint that is unavailable four times before it replies, and
    one whose replies carry no text. *)
Definition stubborn (n : nat) : outcome :=
  if Nat.ltb n 4 then Rejects unavailable
  else Resolves (Response (Some twoFacts)).
Definition mute (n : nat) : outcome := Resolves (Response None).

(** [sampleMovie] with credits, a rating and identifiers. *)
Definition creditedMovie : Movie.MovieData :=
  {| Movie.title := Some (js "Heat"); Movie.name := None;
     Movie.release_date := Some (js "1995-12-15"); Movie.first_air_date := None;
     Movie.overview := None; Movie.genre_ids := Some [ofZ 80; ofZ 18];
     Movie.vote_average := Some (ofZ 8);
     Movie.id := Some (ofZ 949); Movie.director := Some (js "Michael Mann");
     Movie.cast := Some [js "Al Pacino"; js "Robert De Niro"];
     Movie.runtime := Some (ofZ 170); Movie.genres := None;
     Movie.production_companies := None; Movie.original_language := None;
     Movie.created_by := Some [{| Movie.name_of := js "nobody" |}];
     Movie.episode_run_time := Some [ofZ 45];
     Movie.number_of_seasons := Some (ofZ 2);
     Movie.number_of_episodes := Some (ofZ 20);
     Movie.networks := Some [{| Movie.name_of := js "none" |}] |}.

(** The module as it is loaded. *)
Definition freshModule : moduleState :=
  {| geminiServiceInstance := None; setupLog := [] |}.

(* ===================================================================== *)
(** ** Vocabulary of the statements *)
(* ===================================================================== *)

(** The phrases [handleError] looks for. *)
Definition phrases : list jsstring :=
  [js "api key"; js "authentication"; js "quota"; js "rate limit";
   js "overloaded"; js "unavailable"; js "blocked"; js "safety"].

(** The prompt up to the title. *)
Definition promptHead : jsstring :=
  js "You are an expert cinematic researcher with deep knowledge of movies and TV shows."
  ++ newline ++ newline
  ++ jq "GOAL: Generate Top 10 most exciting and factual information about '".

(** The date field the prompt reads: [first_air_date] of a series,
    [release_date] of a movie. *)
Definition relevantDate (data : Movie.MovieData) : option jsstring :=
  if isTV data then Movie.first_air_date data else Movie.release_date data.

(** [s.trim().length > 10] *)
Definition longEnough (s : jsstring) : bool := Nat.ltb 10 (length (trim s)).

(** The member of an object named by a literal. *)
Definition field (ms : list (jsstring * JSON)) (k : string) : option JSON :=
  getProp (js k) ms.

(** [!s?.title || !s?.year || ...] is false: the six members are there
    and truthy. *)
Definition sixPresent (ms : list (jsstring * JSON)) : bool :=
  truthy (getProp (js "title") ms) && truthy (getProp (js "year") ms)
  && truthy (getProp (js "type") ms) && truthy (getProp (js "overview") ms)
  && truthy (getProp (js "reason") ms)
  && truthy (getProp (js "searchKeyword") ms).

(** The member of a parsed value that a text field of the result comes
    from: a non-empty string, returned trimmed. *)
Definition textField (s : JSON) (k : string) (out : jsstring) : Prop :=
  exists t, member s (js k) = Some (JStr t) /\ t <> [] /\ out = trim t.

(** A text without a backquote. *)
Definition noFence (s : jsstring) : bool :=
  forallb (fun c => negb (N.eqb c 96)) s.

(** A text that does not begin with white space. *)
Definition noLeadingSpace (s : jsstring) : bool :=
  match s with
  | c :: _ => negb (isWhiteSpace c)
  | [] => true
  end.

(** What holds of the parser at a given fuel: a parsed value leaves less
    input than it was given, and fuel beyond twice the length of the
    input is never used up. *)
Definition fuelFacts (fuel : nat) : Prop :=
  (forall s v rest,
      parseValue fuel s = Parsed v rest -> length rest < length s)
  /\ (forall s vs rest,
         parseElements fuel s = Parsed vs rest -> length rest < length s)
  /\ (forall acc s ms rest,
         parseMembers fuel acc s = Parsed ms rest -> length rest < length s)
  /\ (forall s, 2 * length s + 1 <= fuel -> parseValue fuel s <> OutOfFuel)
  /\ (forall s, 2 * length s + 2 <= fuel -> parseElements fuel s <> OutOfFuel)
  /\ (forall acc s,
         2 * length s + 1 <= fuel -> parseMembers fuel acc s <> OutOfFuel).

(** The engine's diagnostics are not empty texts. *)
Definition soundDiagnostics (host : Host) : Prop :=
  (forall text, SyntaxError_message host text <> [])
  /\ (forall callee, notFunction_message host callee <> [])
  /\ notPrimitive_message host <> []
  /\ (forall callee, nullish_message host callee <> []).

(** A completion of the endpoint call is how some call settled. *)
Definition settledBy (endpoint : nat -> outcome) (c : completion response)
  : Prop :=
  match c with
  | Normal r => exists n, endpoint n = Resolves r
  | Throw e => exists n, endpoint n = Rejects e
  end.

(** The [message] of a thrown value, when it has one that is a string:
    that of an [Error] object, or the member of that name of an object
    literal. *)
Definition stringMessage (t : thrown) : option jsstring :=
  match t with
  | ErrorObject e => Some (message e)
  | PlainValue (Some (JObj ms)) =>
      match getProp (js "message") ms with
      | Some (JStr m) => Some m
      | _ => None
      end
  | PlainValue _ => None
  end.

(** The endpoint rejects only with values that have a string message, as
    [Error] objects do. *)
Definition rejectsWithStrings (endpoint : nat -> outcome) : Prop :=
  forall n t, endpoint n = Rejects t -> stringMessage t <> None.

(** The string messages of the endpoint's rejections are not empty. *)
Definition rejectsWithMessage (endpoint : nat -> outcome) : Prop :=
  forall n t m, endpoint n = Rejects t -> stringMessage t = Some m -> m <> [].

(** The trace only grows, and [retry] adds only what the operation adds
    and its own pauses. *)
Definition extendsBy (allowed : event -> Prop) (w w' : world) : Prop :=
  exists evs, w' = w ++ evs /\ Forall allowed evs.

(** What [generateFacts] may add to the trace for a record: log entries,
    pauses, and calls of the model with the prompt of that record, the
    record having a title. *)
Definition factsEvent (host : Host) (data : Movie.MovieData) (e : event) : Prop :=
  match e with
  | Called model contents =>
      model = MODEL_NAME /\ contents = createMoviePrompt host data
      /\ truthyStr (titleOf data) = true
  | _ => True
  end.

(** What the [catch] clause of [generateFacts] makes of a caught value. *)
Definition factsFailed (host : Host) (t : thrown) (w : world)
  : completion Facts.AIFactsResponse * world :=
  match handleCaught host t with
  | Normal msg =>
      (Normal (failure msg),
       w ++ [LogError (js "Error generating AI facts") msg])
  | Throw e => (Throw e, w)
  end.

(** *** Traces, replies and views *)

(** The trace of [k + 1] attempts at the model with [k] pauses between
    them, the first pause [delayMs] long and each next one twice the one
    before. *)
Fixpoint attempts (contents : jsstring) (delayMs : Z) (k : nat) : list event :=
  match k with
  | O => [Called MODEL_NAME contents]
  | S k' =>
      Called MODEL_NAME contents :: Slept delayMs
        :: attempts contents (delayMs * 2) k'
  end.

(** The time a trace spends in pauses. *)
Fixpoint pauseTotal (w : world) : Z :=
  match w with
  | [] => 0
  | Slept ms :: r => ms + pauseTotal r
  | _ :: r => pauseTotal r
  end.

(** The log entry a failed operation leaves, none when it succeeded. *)
Definition errorEntry (msg : jsstring) (error : option jsstring) : list event :=
  match error with
  | Some m => [LogError msg m]
  | None => []
  end.

(** [f] stands somewhere in [s]. *)
Definition infix (f s : jsstring) : Prop := exists pre post, s = pre ++ f ++ post.
(** [f] is the end of [s]. *)
Definition suffix (f s : jsstring) : Prop := exists pre, s = pre ++ f.

(** A character that stands for itself in a JSON string literal. *)
Definition plainChar (c : char16) : bool :=
  negb (N.eqb c 34) && negb (N.eqb c 92) && negb (N.ltb c 32).
Definition plain (s : jsstring) : bool := forallb plainChar s.

(** A string of plain characters as a JSON string literal. *)
Definition quoted (s : jsstring) : jsstring := dquote ++ s ++ dquote.

(** An array literal of such strings; [gap] is the white space after each
    comma. *)
Definition arrayLiteral (gap : jsstring) (ss : list jsstring) : jsstring :=
  js "[" ++ join (js "," ++ gap) (map quoted ss) ++ js "]".

(** One member of an object literal, [mid] being the white space after
    the colon. *)
Definition memberText (mid : jsstring) (kv : jsstring * jsstring) : jsstring :=
  quoted (fst kv) ++ js ":" ++ mid ++ quoted (snd kv).

(** An object literal of string members: [lead] is the white space before
    each member, [mid] the white space after each colon, [close] the white
    space before the closing brace. *)
Definition objectLiteral (lead mid close : jsstring)
           (fields : list (jsstring * jsstring)) : jsstring :=
  js "{" ++ lead ++ join (js "," ++ lead) (map (memberText mid) fields)
     ++ close ++ js "}".

(** The object a list of string members builds, a later member replacing
    an earlier one of the same name. *)
Definition objectOf (fields : list (jsstring * jsstring))
  : list (jsstring * JSON) :=
  fold_left (fun acc kv => setProp (fst kv) (JStr (snd kv)) acc) fields [].

(** A reply in the format [createSuggestionPrompt] asks for. *)
Definition suggestionReply (lead mid close : jsstring)
           (title year type overview reason searchKeyword : jsstring) : jsstring :=
  objectLiteral lead mid close
    [(js "title", title); (js "year", year); (js "type", type);
     (js "overview", overview); (js "reason", reason);
     (js "searchKeyword", searchKeyword)].

(** A member whose name and value are made of plain characters. *)
Definition plainField (kv : jsstring * jsstring) : Prop :=
  plain (fst kv) = true /\ plain (snd kv) = true.

(** The names of a list of companies, creators or networks. *)
Definition namesOf (xs : option (list Movie.Named)) : option (list jsstring) :=
  option_map (map Movie.name_of) xs.

(** What [createMoviePrompt] reads of a record: of a movie the title, the
    release date and the general fields; of a series the name, the first
    air date, the general fields and the series fields.  Genres, companies,
    creators and networks count by their names only. *)
Inductive promptView :=
| MovieView (title release_date overview original_language : option jsstring)
            (genres : option (list jsstring)) (runtime : option number)
            (production_companies : option (list jsstring))
| SeriesView (name first_air_date overview original_language : option jsstring)
             (genres : option (list jsstring)) (runtime : option number)
             (production_companies created_by networks : option (list jsstring))
             (number_of_seasons number_of_episodes : option number).

Definition viewOf (data : Movie.MovieData) : promptView :=
  if isTV data
  then SeriesView (Movie.name data) (Movie.first_air_date data)
                  (Movie.overview data) (Movie.original_language data)
                  (option_map (map Movie.genre_name) (Movie.genres data))
                  (Movie.runtime data)
                  (namesOf (Movie.production_companies data))
                  (namesOf (Movie.created_by data))
                  (namesOf (Movie.networks data))
                  (Movie.number_of_seasons data)
                  (Movie.number_of_episodes data)
  else MovieView (Movie.title data) (Movie.release_date data)
                 (Movie.overview data) (Movie.original_language data)
                 (option_map (map Movie.genre_name) (Movie.genres data))
                 (Movie.runtime data)
                 (namesOf (Movie.production_companies data)).

(** A line of a text that is neither its first nor its last line. *)
Definition hasLine (text l : jsstring) : Prop :=
  exists pre post, text = pre ++ newline ++ l ++ newline ++ post.

(** Calls of [getGeminiService] one after the other, under the
    environments given: their completions and the state they leave. *)
Fixpoint getRepeatedly (envs : list (option jsstring)) (st : moduleState)
  : list (completion GeminiService) * moduleState :=
  match envs with
  | [] => ([], st)
  | env :: rest =>
      let (c, st') := getGeminiService env st in
      let (cs, st'') := getRepeatedly rest st' in
      (c :: cs, st'')
  end.

(* ===================================================================== *)
(** * Properties *)
(* ===================================================================== *)

(** ** Strings *)

Lemma str_eqb_eq (a b : jsstring) : str_eqb a b = true <-> a = b.
Proof.
  revert b; induction a as [|x a IH]; intros [|y b]; simpl; split;
    try congruence; try reflexivity.
  - intros H. apply andb_true_iff in H as [Hx Hr].
    apply N.eqb_eq in Hx. apply IH in Hr. congruence.
  - intros H. injection H as -> ->.
    rewrite N.eqb_refl. simpl. now apply IH.
Qed.

Lemma str_eqb_refl (a : jsstring) : str_eqb a a = true.
Proof. now apply str_eqb_eq. Qed.

Lemma startsWith_iff (p s : jsstring) :
  startsWith p s = true <-> exists r, s = p ++ r.
Proof.
  revert s; induction p as [|x p IH]; intros s; simpl.
  - split; [intros _; now exists s | reflexivity].
  - destruct s as [|y s].
    + split; [discriminate | intros [r Hr]; discriminate].
    + rewrite andb_true_iff, N.eqb_eq, IH. split.
      * intros [-> [r ->]]. now exists r.
      * intros [r Hr]. injection Hr as -> ->. split; [reflexivity | now exists r].
Qed.

Lemma includes_iff (s p : jsstring) :
  includes s p = true <-> exists pre post, s = pre ++ p ++ post.
Proof.
  induction s as [|c s IH].
  - simpl. rewrite orb_false_r, startsWith_iff. split.
    + intros [r Hr]. now exists [], r.
    + intros [pre [post H]]. destruct pre; [now exists post | discriminate].
  - cbn [includes]. rewrite orb_true_iff, startsWith_iff, IH. split.
    + intros [[r Hr] | [pre [post H]]].
      * now exists [], r.
      * exists (c :: pre), post. simpl. now rewrite H.
    + intros [[|x pre] [post H]].
      * left. now exists post.
      * right. injection H as -> ->. now exists pre, post.
Qed.

Lemma asciiLower_isAscii (c : char16) :
  isAscii (asciiLower c) = true -> isAscii c = true.
Proof.
  unfold asciiLower, isAscii.
  destruct ((65 <=? c) && (c <=? 90))%N eqn:E; [|trivial].
  intros _. apply andb_true_iff in E as [_ E].
  apply N.leb_le in E. apply N.ltb_lt. lia.
Qed.

Lemma map_asciiLower_isAscii (w : jsstring) :
  forallb isAscii (map asciiLower w) = true -> forallb isAscii w = true.
Proof.
  induction w as [|c w IH]; simpl; [trivial|].
  rewrite !andb_true_iff. intros [Hc Hw].
  split; [now apply asciiLower_isAscii | now apply IH].
Qed.

(** *** White space and lines *)

Lemma dropWhile_all (p : char16 -> bool) (ws rest : jsstring) :
  forallb p ws = true ->
  match rest with c :: _ => p c = false | [] => True end ->
  dropWhile p (ws ++ rest) = rest.
Proof.
  intros Hws Hrest. induction ws as [|c ws IH]; simpl.
  - destruct rest as [|c rest]; [reflexivity|]. simpl. now rewrite Hrest.
  - simpl in Hws. apply andb_true_iff in Hws as [-> Hws]. now apply IH.
Qed.

Lemma takeWhile_all (p : char16 -> bool) (ds rest : jsstring) :
  forallb p ds = true ->
  match rest with c :: _ => p c = false | [] => True end ->
  takeWhile p (ds ++ rest) = ds.
Proof.
  intros Hds Hrest. induction ds as [|c ds IH]; simpl.
  - destruct rest as [|c rest]; [reflexivity|]. simpl. now rewrite Hrest.
  - simpl in Hds. apply andb_true_iff in Hds as [-> Hds]. now rewrite IH.
Qed.

Lemma noLeadingSpace_head (rest : jsstring) :
  noLeadingSpace rest = true ->
  match rest with c :: _ => isWhiteSpace c = false | [] => True end.
Proof.
  destruct rest as [|c rest]; simpl; [trivial|]. now intros H%negb_true_iff.
Qed.

Lemma dropWhile_only (p : char16 -> bool) (ws : jsstring) :
  forallb p ws = true -> dropWhile p ws = [].
Proof.
  intros H. rewrite <- (app_nil_r ws). now apply dropWhile_all.
Qed.

Lemma dropWhile_keeps (p : char16 -> bool) (s : jsstring) :
  match s with c :: _ => p c = false | [] => True end -> dropWhile p s = s.
Proof. intros H. now apply (dropWhile_all p [] s). Qed.

(** White space around a text that neither begins nor ends with white
    space is what [trim] removes. *)
Lemma trim_padded (a s b : jsstring) :
  forallb isWhiteSpace a = true -> forallb isWhiteSpace b = true ->
  noLeadingSpace s = true -> noLeadingSpace (rev s) = true ->
  trim (a ++ s ++ b) = s.
Proof.
  intros Ha Hb Hs Hr. unfold trim, trimStart, trimEnd.
  destruct s as [|c s].
  - simpl. rewrite (dropWhile_only isWhiteSpace (a ++ b))
      by (rewrite forallb_app; now rewrite Ha, Hb).
    reflexivity.
  - rewrite (dropWhile_all isWhiteSpace a ((c :: s) ++ b)) by
      (try assumption; now apply noLeadingSpace_head in Hs).
    rewrite rev_app_distr.
    rewrite dropWhile_all.
    + apply rev_involutive.
    + rewrite forallb_forall in *. intros x Hx. apply Hb. now apply in_rev.
    + now apply noLeadingSpace_head.
Qed.

Lemma splitLines_nonempty (s : jsstring) : splitLines s <> [].
Proof.
  induction s as [|c s IH]; simpl; [discriminate|].
  destruct (N.eqb c 10); [discriminate|].
  destruct (splitLines s); [contradiction|discriminate].
Qed.

(** The lines of a text, joined by line feeds, are the text; no line holds
    a line feed. *)
Lemma splitLines_join (s : jsstring) :
  join newline (splitLines s) = s
  /\ Forall (fun l => ~ In 10%N l) (splitLines s).
Proof.
  induction s as [|c s [IHj IHf]]; simpl.
  - split; [reflexivity|]. constructor; [intros []|constructor].
  - pose proof (splitLines_nonempty s) as Hne.
    destruct (N.eqb c 10) eqn:Hc.
    + apply N.eqb_eq in Hc. subst c. split.
      * destruct (splitLines s) as [|l ls] eqn:E; [contradiction|].
        cbn [join]. cbn [join] in IHj. simpl. now rewrite <- IHj.
      * constructor; [intros []|assumption].
    + apply N.eqb_neq in Hc.
      destruct (splitLines s) as [|l ls] eqn:E; [contradiction|]. split.
      * rewrite <- IHj. destruct ls; reflexivity.
      * inversion IHf as [|? ? Hl Hls]; subst. constructor; [|assumption].
        intros [H|H]; [now apply Hc | now apply Hl].
Qed.

(** ** [JSON.parse] is total *)

(** The parser recurses on fuel.  This section shows that the fuel
    [JSON_parse] supplies is never used up, so that [None] always stands
    for a [SyntaxError]. *)

Lemma dropWhile_length (p : char16 -> bool) (s : jsstring) :
  length (dropWhile p s) <= length s.
Proof.
  induction s as [|c s IH]; simpl; [lia|].
  destruct (p c); simpl; lia.
Qed.

Lemma takeWhile_length (p : char16 -> bool) (s : jsstring) :
  length (takeWhile p s) <= length s.
Proof.
  induction s as [|c s IH]; simpl; [lia|].
  destruct (p c); simpl; lia.
Qed.

Lemma skipWs_cons (s r : jsstring) (c : char16) :
  skipWs s = c :: r -> length r < length s.
Proof.
  intros H. pose proof (dropWhile_length isJsonWs s) as L.
  unfold skipWs in H. rewrite H in L. simpl in L. lia.
Qed.

(** Induction on the length of a text. *)
Lemma shorter_ind (P : jsstring -> Prop) :
  (forall s, (forall r, length r < length s -> P r) -> P s) ->
  forall s, P s.
Proof.
  intros Step s.
  induction s as [s IH]
    using (well_founded_induction
             (Wf_nat.well_founded_ltof _ (@length char16))).
  apply Step. exact IH.
Qed.

(** Destruct what the innermost [match] of the goal looks at. *)
Ltac destr_scrutinee :=
  match goal with
  | |- context [match ?x with _ => _ end] =>
      lazymatch x with
      | context [match _ with _ => _ end] => fail
      | _ => destruct x eqn:?
      end
  end.

Lemma parseChars_shorter (s t rest : jsstring) :
  parseChars s = Parsed t rest -> length rest < length s.
Proof.
  revert t rest. induction s as [s IH] using shorter_ind. intros t rest.
  destruct s as [|c r]; simpl; [discriminate|].
  destruct (N.eqb c 34); [intros [= <- <-]; simpl; lia|].
  destruct (N.eqb c 92).
  - destruct r as [|e r1]; [discriminate|].
    assert (Next : forall u,
               match parseChars r1 with
               | Parsed t0 rest0 => Parsed (u :: t0) rest0
               | other => other
               end = Parsed t rest ->
               length rest < S (S (length r1))).
    { intros u. destruct (parseChars r1) eqn:E; try discriminate.
      intros [= <- <-]. apply IH in E; simpl; lia. }
    repeat match goal with
           | |- context [if ?b then _ else _] =>
               destruct b; [now apply Next|]
           end.
    destruct (N.eqb e 117); [|discriminate].
    destruct r1 as [|h1 [|h2 [|h3 [|h4 r2]]]]; try discriminate.
    destruct (hexVal h1), (hexVal h2), (hexVal h3), (hexVal h4);
      try discriminate.
    destruct (parseChars r2) eqn:E; try discriminate.
    intros [= <- <-]. apply IH in E; simpl in *; lia.
  - destruct (N.ltb c 32); [discriminate|].
    destruct (parseChars r) eqn:E; try discriminate.
    intros [= <- <-]. apply IH in E; simpl; lia.
Qed.

Lemma parseChars_total (s : jsstring) : parseChars s <> OutOfFuel.
Proof.
  induction s as [s IH] using shorter_ind.
  destruct s as [|c r]; simpl; [discriminate|].
  destruct (N.eqb c 34); [discriminate|].
  destruct (N.eqb c 92).
  - destruct r as [|e r1]; [discriminate|].
    assert (Next : forall u,
               match parseChars r1 with
               | Parsed t0 rest0 => Parsed (u :: t0) rest0
               | other => other
               end <> OutOfFuel).
    { intros u. destruct (parseChars r1) eqn:E; try discriminate.
      exfalso. apply (IH r1); [simpl; lia | exact E]. }
    repeat match goal with
           | |- context [if ?b then _ else _] =>
               destruct b; [now apply Next|]
           end.
    destruct (N.eqb e 117); [|discriminate].
    destruct r1 as [|h1 [|h2 [|h3 [|h4 r2]]]]; try discriminate.
    destruct (hexVal h1), (hexVal h2), (hexVal h3), (hexVal h4);
      try discriminate.
    destruct (parseChars r2) eqn:E; try discriminate.
    exfalso. apply (IH r2); [simpl; lia | exact E].
  - destruct (N.ltb c 32); [discriminate|].
    destruct (parseChars r) eqn:E; try discriminate.
    exfalso. apply (IH r); [simpl; lia | exact E].
Qed.

(** Turn what is known of prefixes and suffixes into facts about
    lengths. *)
Ltac lengths :=
  repeat match goal with
         | H : (_, _) = (_, _) |- _ => injection H as ? ?
         | H : Some _ = Some _ |- _ => injection H as ?
         end;
  subst;
  repeat match goal with
         | H : @eq (list _) _ _ |- _ => apply (f_equal (@length _)) in H
         end;
  rewrite ?length_skipn in *;
  repeat match goal with
         | |- context [takeWhile ?p ?l] =>
             lazymatch goal with
             | _ : length (takeWhile p l) <= length l |- _ => fail
             | _ => pose proof (takeWhile_length p l)
             end
         | _ : context [takeWhile ?p ?l] |- _ =>
             lazymatch goal with
             | _ : length (takeWhile p l) <= length l |- _ => fail
             | _ => pose proof (takeWhile_length p l)
             end
         end;
  cbn [length] in *; try lia.

Ltac finish_lengths :=
  cbn [length] in *; rewrite ?length_skipn; cbn [length]; try lia;
  repeat match goal with
         | |- context [match ?l with _ => _ end] => destruct l
         end;
  cbn [length] in *; lia.

Lemma parseNumber_shorter (s rest : jsstring) (d : decimal) :
  parseNumber s = Parsed d rest -> length rest < length s.
Proof.
  unfold parseNumber.
  repeat destr_scrutinee; try discriminate; intros [= <- <-]; lengths.
  all: repeat match goal with
              | |- context [match ?l with _ => _ end] => destruct l
              end;
       cbn [length] in *; rewrite ?length_skipn in *; lia.
Qed.

Lemma parseNumber_total (s : jsstring) : parseNumber s <> OutOfFuel.
Proof. unfold parseNumber. repeat destr_scrutinee; discriminate. Qed.

Ltac shorter IHv IHe IHm :=
  repeat match goal with
         | H : skipWs _ = _ :: _ |- _ => apply skipWs_cons in H
         | H : parseChars _ = Parsed _ _ |- _ => apply parseChars_shorter in H
         | H : parseNumber _ = Parsed _ _ |- _ => apply parseNumber_shorter in H
         | H : parseValue _ _ = Parsed _ _ |- _ => apply IHv in H
         | H : parseElements _ _ = Parsed _ _ |- _ => apply IHe in H
         | H : parseMembers _ _ _ = Parsed _ _ |- _ => apply IHm in H
         end.

Ltac out_of_fuel FV FE FM :=
  match goal with
  | H : parseChars ?s = OutOfFuel |- _ =>
      exfalso; exact (@parseChars_total s H)
  | H : parseNumber ?s = OutOfFuel |- _ =>
      exfalso; exact (@parseNumber_total s H)
  | H : parseValue _ ?s = OutOfFuel |- _ =>
      exfalso; apply (FV s); [|exact H]
  | H : parseElements _ ?s = OutOfFuel |- _ =>
      exfalso; apply (FE s); [|exact H]
  | H : parseMembers _ ?a ?s = OutOfFuel |- _ =>
      exfalso; apply (FM a s); [|exact H]
  end.

Lemma parse_fuel (fuel : nat) : fuelFacts fuel.
Proof.
  induction fuel as [|f (IHv & IHe & IHm & FV & FE & FM)]; unfold fuelFacts.
  - repeat split; intros; simpl in *; try discriminate; lia.
  - repeat split.
    + intros s v rest. cbn [parseValue].
      repeat destr_scrutinee; try discriminate; intros [= <- <-];
        shorter IHv IHe IHm; finish_lengths.
    + intros s vs rest. cbn [parseElements].
      repeat destr_scrutinee; try discriminate; intros [= <- <-];
        shorter IHv IHe IHm; finish_lengths.
    + intros acc s ms rest. cbn [parseMembers].
      repeat destr_scrutinee; try discriminate; try (intros [= <- <-]);
        try (intros Hrec); shorter IHv IHe IHm; finish_lengths.
    + intros s Hf. cbn [parseValue].
      repeat destr_scrutinee; try discriminate;
        out_of_fuel FV FE FM; shorter IHv IHe IHm; finish_lengths.
    + intros s Hf. cbn [parseElements].
      repeat destr_scrutinee; try discriminate; try (intros Hrec);
        out_of_fuel FV FE FM; shorter IHv IHe IHm; finish_lengths.
    + intros acc s Hf. cbn [parseMembers].
      repeat destr_scrutinee; try discriminate; try (intros Hrec);
        out_of_fuel FV FE FM; shorter IHv IHe IHm; finish_lengths.
Qed.

(** [JSON.parse] never gives up for lack of fuel. *)
Lemma JSON_parse_fuel (text : jsstring) :
  parseValue (2 * length text + 2) text <> OutOfFuel.
Proof. apply parse_fuel. lia. Qed.

(** [None] stands for a syntax error, in the value or after it. *)
Lemma JSON_parse_None (text : jsstring) :
  JSON_parse text = None ->
  parseValue (2 * length text + 2) text = SyntaxErr
  \/ exists v rest,
      parseValue (2 * length text + 2) text = Parsed v rest
      /\ skipWs rest <> [].
Proof.
  unfold JSON_parse. pose proof (JSON_parse_fuel text) as F.
  destruct (parseValue (2 * length text + 2) text) as [| |v rest] eqn:E;
    [now left | congruence |].
  destruct (skipWs rest) as [|c r] eqn:W; [discriminate|]. intros _.
  right. exists v, rest. split; [reflexivity | now rewrite W].
Qed.

(** ** Case mapping *)

Section CaseMapping.
Variable host : Host.

Lemma lowerFrom_ascii_app (before w post : jsstring) :
  forallb isAscii w = true ->
  lowerFrom host before (w ++ post)
  = map asciiLower w ++ lowerFrom host (before ++ w) post.
Proof.
  revert before; induction w as [|c w IH]; intros before; simpl.
  - now rewrite app_nil_r.
  - rewrite andb_true_iff. intros [Hc Hw].
    rewrite Hc. simpl.
    rewrite IH by assumption. now rewrite <- app_assoc.
Qed.

Lemma lowerFrom_ascii (before s : jsstring) :
  forallb isAscii s = true -> lowerFrom host before s = map asciiLower s.
Proof.
  intros H. rewrite <- (app_nil_r s) at 1.
  rewrite lowerFrom_ascii_app by assumption. simpl. apply app_nil_r.
Qed.

Lemma lowerFrom_keeps_ascii (pre w post before : jsstring) :
  forallb isAscii w = true ->
  exists x y,
    lowerFrom host before (pre ++ w ++ post) = x ++ map asciiLower w ++ y.
Proof.
  intros Hw. revert before; induction pre as [|c pre IH]; intros before.
  - exists [], (lowerFrom host (before ++ w) post). simpl.
    now apply lowerFrom_ascii_app.
  - destruct (IH (before ++ [c])) as [x [y E]].
    eexists (_ ++ x), y. simpl. rewrite E, <- app_assoc. reflexivity.
Qed.

(** An occurrence of a phrase in any ASCII letter case survives lower
    casing: the lowered text includes the lower-case phrase. *)
Lemma includes_toLowerCase (m pre w post phrase : jsstring) :
  m = pre ++ w ++ post ->
  map asciiLower w = phrase ->
  forallb isAscii phrase = true ->
  includes (toLowerCase host m) phrase = true.
Proof.
  intros -> Hw Hp. apply includes_iff. unfold toLowerCase.
  destruct (lowerFrom_keeps_ascii pre w post []) as [x [y E]].
  - apply map_asciiLower_isAscii. now rewrite Hw.
  - rewrite E, Hw. eauto.
Qed.

(** On an ASCII message the host has no say. *)
Lemma toLowerCase_ascii (m : jsstring) :
  forallb isAscii m = true -> toLowerCase host m = map asciiLower m.
Proof. apply lowerFrom_ascii. Qed.

End CaseMapping.

(** ** Error normalisation *)

Section ErrorTaxonomy.
Variable host : Host.

(** On an ASCII message every host classifies alike. *)
Lemma handleError_ascii (error : JsError) :
  forallb isAscii (message error) = true ->
  handleError host error = handleError plainHost error.
Proof.
  intros H. unfold handleError.
  now rewrite !toLowerCase_ascii by assumption.
Qed.

Lemma handleError_nonempty (error : JsError) :
  message error <> [] -> handleError host error <> [].
Proof.
  intros H. unfold handleError.
  repeat match goal with
         | |- context [if ?b then _ else _] => destruct b
         end; try discriminate; assumption.
Qed.

(** [handleError] reads nothing of an error but its message. *)
Lemma handleError_message (error : JsError) :
  handleError host error = handleError host (mkError (message error)).
Proof. reflexivity. Qed.

(** A caught value with a string message is handled as an [Error] with
    that message; any other makes the [catch] clause throw a [TypeError]
    of the engine. *)
Lemma handleCaught_string (t : thrown) (m : jsstring) :
  stringMessage t = Some m ->
  handleCaught host t = Normal (handleError host (mkError m)).
Proof.
  destruct t as [e|[[| | | |items|ms]|]];
    cbn [stringMessage handleCaught member]; try discriminate.
  - now intros [= <-].
  - destruct (getProp (js "message") ms) as [[| | |s| |]|]; try discriminate.
    now intros [= <-].
Qed.

Lemma handleCaught_no_string (t : thrown) :
  stringMessage t = None ->
  exists e,
    handleCaught host t = Throw (ErrorObject e)
    /\ kind e = TypeError
    /\ (message e = nullish_message host (js "error.message")
        \/ message e = nullish_message host (js "error.message.toLowerCase")
        \/ message e = notFunction_message host (js "error.message.toLowerCase")).
Proof.
  destruct t as [e|[[| | | |items|ms]|]];
    cbn [stringMessage handleCaught member]; try discriminate;
    try (intros _; eexists; split; [reflexivity|]; cbn [kind message]; tauto).
  destruct (getProp (js "message") ms) as [[| | |s| |]|]; try discriminate;
    intros _; eexists; (split; [reflexivity|]); cbn [kind message]; tauto.
Qed.

Lemma handleCaught_throws (t : thrown) (u : thrown) :
  handleCaught host t = Throw u -> stringMessage t = None.
Proof.
  destruct (stringMessage t) as [m|] eqn:E; [|reflexivity].
  rewrite (handleCaught_string t E). discriminate.
Qed.

(** C7 (amended): [handleError] lower-cases the message and tests it for
    the phrases in priority order, the first group that matches deciding
    the result and the message passing through verbatim when none does;
    a phrase occurring in the message in any ASCII letter case is found;
    and a message containing "quota exceeded" in any letter case maps to
    the rate-limit message provided no authentication phrase matches. *)
Theorem handleError_first_match_wins (error : JsError) :
  let m := toLowerCase host (message error) in
  let auth := includes m (js "api key") || includes m (js "authentication") in
  let rate := includes m (js "quota") || includes m (js "rate limit") in
  let over := includes m (js "overloaded") || includes m (js "unavailable") in
  let safe := includes m (js "blocked") || includes m (js "safety") in
  (auth = true -> handleError host error = authMessage) /\
  (auth = false -> rate = true -> handleError host error = rateLimitMessage) /\
  (auth = false -> rate = false -> over = true ->
   handleError host error = overloadMessage) /\
  (auth = false -> rate = false -> over = false -> safe = true ->
   handleError host error = safetyMessage) /\
  (auth = false -> rate = false -> over = false -> safe = false ->
   handleError host error = message error) /\
  (forall phrase pre w post,
      In phrase phrases ->
      message error = pre ++ w ++ post ->
      map asciiLower w = phrase ->
      includes m phrase = true) /\
  (forall pre w post,
      message error = pre ++ w ++ post ->
      map asciiLower w = js "quota exceeded" ->
      auth = false ->
      handleError host error = rateLimitMessage).
Proof.
  intros m auth rate over safe.
  assert (Hfound : forall phrase pre w post,
             forallb isAscii phrase = true ->
             message error = pre ++ w ++ post ->
             map asciiLower w = phrase ->
             includes m phrase = true).
  { intros phrase pre w post Hp Hm Hw.
    exact (includes_toLowerCase host pre w post Hm Hw Hp). }
  unfold handleError. fold m. fold auth. fold rate. fold over. fold safe.
  repeat split.
  - now intros ->.
  - now intros -> ->.
  - now intros -> -> ->.
  - now intros -> -> -> ->.
  - now intros -> -> -> ->.
  - intros phrase pre w post Hin. apply Hfound.
    unfold phrases in Hin. simpl in Hin.
    repeat (destruct Hin as [<- | Hin]; [reflexivity|]). contradiction.
  - intros pre w post Hm Hw ->.
    assert (Hq : includes m (js "quota") = true).
    { apply (Hfound (js "quota") pre (firstn 5 w) (skipn 5 w ++ post)).
      - reflexivity.
      - now rewrite (app_assoc (firstn 5 w)), firstn_skipn.
      - now rewrite <- firstn_map, Hw. }
    unfold rate. now rewrite Hq.
Qed.

End ErrorTaxonomy.

(** The amended C7 at work: an upper-case quota message on the reference
    host. *)
Lemma handleError_first_match_wins_witness :
  handleError plainHost (mkError (js "429: QUOTA EXCEEDED for this project"))
  = rateLimitMessage.
Proof.
  apply (proj2 (proj2 (proj2 (proj2 (proj2 (proj2
           (handleError_first_match_wins plainHost
              (mkError (js "429: QUOTA EXCEEDED for this project")))))))))
    with (pre := js "429: ") (w := js "QUOTA EXCEEDED")
         (post := js " for this project");
    vm_compute; reflexivity.
Defined.

(** C7 as stated fails: this message contains "Quota exceeded", yet the
    authentication phrase "api key" comes first in the priority order and
    the result is the authentication message. *)
Lemma handleError_quota_after_api_key :
  includes (js "Invalid API key: Quota exceeded") (js "Quota exceeded") = true
  /\ handleError plainHost (mkError (js "Invalid API key: Quota exceeded"))
     = authMessage
  /\ authMessage <> rateLimitMessage.
Proof.
  split; [|split]; [vm_compute; reflexivity .. | discriminate].
Qed.

(** ** The retry wrapper *)

Lemma countCalls_app (w1 w2 : world) :
  countCalls (w1 ++ w2) = countCalls w1 + countCalls w2.
Proof. unfold countCalls. now rewrite filter_app, length_app. Qed.

Section Retry.
Context {T : Type}.
Variable fn : Eff T.

Lemma retry_returns (retries delayMs : Z) (w w1 : world) (v : T) :
  fn w = (Normal v, w1) -> retry fn retries delayMs w = (Normal v, w1).
Proof. intros H. rewrite retry_equation_1, H. reflexivity. Qed.

Lemma retry_gives_up (retries delayMs : Z) (w w1 : world) (e : thrown) :
  fn w = (Throw e, w1) -> (retries <= 0)%Z ->
  retry fn retries delayMs w = (Throw e, w1).
Proof.
  intros H Hr. rewrite retry_equation_1, H. simpl.
  destruct (Z_le_gt_dec retries 0); [reflexivity | lia].
Qed.

Lemma retry_tries_again (retries delayMs : Z) (w w1 : world) (e : thrown) :
  fn w = (Throw e, w1) -> (0 < retries)%Z ->
  retry fn retries delayMs w
  = retry fn (retries - 1) (delayMs * 2) (w1 ++ [Slept delayMs]).
Proof.
  intros H Hr. rewrite retry_equation_1, H. simpl.
  destruct (Z_le_gt_dec retries 0); [lia | reflexivity].
Qed.

(** Whatever holds of every completion of the operation holds of the
    completion of [retry]: it returns what some attempt returned, or throws
    what some attempt threw. *)
Lemma retry_completion (P : completion T -> Prop) :
  (forall w, P (fst (fn w))) ->
  forall retries delayMs w, P (fst (retry fn retries delayMs w)).
Proof.
  intros HP retries.
  remember (Z.to_nat retries) as n eqn:Hn. revert retries Hn.
  induction n as [|n IH]; intros retries Hn delayMs w;
    specialize (HP w) as Hw; destruct (fn w) as [[v|e] w1] eqn:E.
  - now rewrite (retry_returns _ _ E).
  - erewrite retry_gives_up; [exact Hw | eassumption | lia].
  - now rewrite (retry_returns _ _ E).
  - erewrite retry_tries_again; [apply IH; lia | eassumption | lia].
Qed.

End Retry.

(** ** The two operations *)

Section OwnMessages.
Variable host : Host.

(** The service's own error messages contain none of the phrases and pass
    through [handleError] unchanged. *)
Lemma handleError_title_required :
  handleError host (mkError (js "Title is required")) = js "Title is required".
Proof. now rewrite handleError_ascii. Qed.

Lemma handleError_empty_response :
  handleError host (mkError (js "Empty response from Gemini API"))
  = js "Empty response from Gemini API".
Proof. now rewrite handleError_ascii. Qed.

Lemma handleError_no_facts :
  handleError host (mkError (js "No valid facts extracted"))
  = js "No valid facts extracted".
Proof. now rewrite handleError_ascii. Qed.

Lemma handleError_invalid_format :
  handleError host (mkError (js "Invalid suggestion format"))
  = js "Invalid suggestion format".
Proof. now rewrite handleError_ascii. Qed.

Lemma handleError_invalid_type :
  handleError host (mkError (js "Invalid suggestion type"))
  = js "Invalid suggestion type".
Proof. now rewrite handleError_ascii. Qed.

End OwnMessages.

Section FactsOperation.
Variable host : Host.
Variable endpoint : nat -> outcome.

Lemma generateContent_run (contents : jsstring) (w : world) :
  generateContent endpoint contents w
  = (match endpoint (countCalls w) with
     | Resolves r => Normal r
     | Rejects e => Throw e
     end, w ++ [Called MODEL_NAME contents]).
Proof. unfold generateContent. now destruct (endpoint (countCalls w)). Qed.

(** [generateFacts] step by step, once a title is there. *)
Lemma generateFacts_run (data : Movie.MovieData) (w : world) :
  truthyStr (titleOf data) = true ->
  generateFacts host endpoint data w
  = match retry (generateContent endpoint (createMoviePrompt host data)) 2 900
            (w ++ [LogInfo (js "Generating AI facts") (titleOf data)]) with
    | (Normal response, w1) =>
        if truthyStr (textOf response)
        then
          let facts := parseFactsResponse (showOptStr (textOf response)) in
          if Nat.eqb (length facts) 0
          then factsFailed host (mkError (js "No valid facts extracted")) w1
          else (Normal {| Facts.facts := facts; Facts.success := true;
                          Facts.error := None |}, w1)
        else factsFailed host (mkError (js "Empty response from Gemini API")) w1
    | (Throw e, w1) => factsFailed host e w1
    end.
Proof.
  intros Ht. unfold generateFacts, tryCatch, bind, emit, factsFailed.
  rewrite Ht. cbn [negb].
  destruct (retry _ 2 900 _) as [[response|e] w1]; [|reflexivity].
  destruct (truthyStr (textOf response)); cbn [negb]; [|reflexivity].
  destruct (Nat.eqb _ 0); reflexivity.
Qed.

(** C9: without a name and without a title (absent or empty),
    [generateFacts] resolves with [{ facts: [], success: false, error:
    "Title is required" }]; the only thing it does to the outside is to log
    that error, so the endpoint is not called. *)
Theorem generateFacts_title_required (data : Movie.MovieData) (w : world) :
  truthyStr (Movie.name data) = false ->
  truthyStr (Movie.title data) = false ->
  generateFacts host endpoint data w
  = (Normal {| Facts.facts := []; Facts.success := false;
               Facts.error := Some (js "Title is required") |},
     w ++ [LogError (js "Error generating AI facts") (js "Title is required")])
  /\ countCalls (snd (generateFacts host endpoint data w)) = countCalls w.
Proof.
  intros Hn Ht.
  assert (E : generateFacts host endpoint data w
              = (Normal {| Facts.facts := []; Facts.success := false;
                           Facts.error := Some (js "Title is required") |},
                 w ++ [LogError (js "Error generating AI facts")
                                (js "Title is required")])).
  { unfold generateFacts, tryCatch, titleOf. rewrite Hn, Ht. cbn [negb].
    unfold throw, bind, emit, ret, eval. cbn [handleCaught].
    now rewrite handleError_title_required. }
  split; [exact E|].
  rewrite E. cbn [snd]. rewrite countCalls_app. cbn. lia.
Qed.

End FactsOperation.

(** C9 at the empty record [{}], whatever the endpoint would answer. *)
Lemma generateFacts_title_required_witness :
  generateFacts plainHost (fun _ => Resolves (Response (Some (js "unused"))))
                Movie.empty []
  = (Normal {| Facts.facts := []; Facts.success := false;
               Facts.error := Some (js "Title is required") |},
     [LogError (js "Error generating AI facts") (js "Title is required")]).
Proof.
  exact (proj1 (generateFacts_title_required plainHost
                  (fun _ => Resolves (Response (Some (js "unused"))))
                  Movie.empty [] eq_refl eq_refl)).
Defined.

Section RetriedCall.
Variable host : Host.
Variable endpoint : nat -> outcome.

Lemma attempt_rejects (contents : jsstring) (w : world) (e : thrown) (n : nat) :
  countCalls w = n -> endpoint n = Rejects e ->
  generateContent endpoint contents w
  = (Throw e, w ++ [Called MODEL_NAME contents]).
Proof. intros <- H. now rewrite generateContent_run, H. Qed.

Lemma attempt_resolves (contents : jsstring) (w : world) (r : response) (n : nat) :
  countCalls w = n -> endpoint n = Resolves r ->
  generateContent endpoint contents w
  = (Normal r, w ++ [Called MODEL_NAME contents]).
Proof. intros <- H. now rewrite generateContent_run, H. Qed.

(** After two failed attempts [retry] ends as the third attempt ends. *)
Lemma retry_third_attempt {T : Type} (fn : Eff T) (delayMs : Z)
      (w w1 w2 : world) (e1 e2 : thrown) :
  fn w = (Throw e1, w1) ->
  fn (w1 ++ [Slept delayMs]) = (Throw e2, w2) ->
  retry fn 2 delayMs w = fn (w2 ++ [Slept (delayMs * 2)]).
Proof.
  intros H1 H2.
  erewrite retry_tries_again; [|exact H1|lia].
  erewrite retry_tries_again; [|exact H2|lia].
  destruct (fn (w2 ++ [Slept (delayMs * 2)])) as [[v|e3] w3] eqn:H3.
  - now apply retry_returns.
  - apply retry_gives_up; [exact H3 | lia].
Qed.

Lemma retry_after_two_rejections (contents : jsstring) (w : world)
      (e1 e2 : thrown) :
  endpoint (countCalls w) = Rejects e1 ->
  endpoint (countCalls w + 1) = Rejects e2 ->
  retry (generateContent endpoint contents) 2 900 w
  = generateContent endpoint contents
      (w ++ [Called MODEL_NAME contents; Slept 900;
             Called MODEL_NAME contents; Slept 1800]).
Proof.
  intros H1 H2.
  pose proof (attempt_rejects contents w eq_refl H1) as A1.
  assert (A2 : generateContent endpoint contents
                 ((w ++ [Called MODEL_NAME contents]) ++ [Slept 900])
               = (Throw e2,
                  ((w ++ [Called MODEL_NAME contents]) ++ [Slept 900])
                    ++ [Called MODEL_NAME contents])).
  { eapply attempt_rejects; [|exact H2].
    rewrite !countCalls_app. cbn. lia. }
  erewrite retry_third_attempt; [|exact A1|exact A2].
  rewrite <- !app_assoc. reflexivity.
Qed.

(** The retried endpoint call makes one, two or three calls. *)
Lemma retry_call_count (contents : jsstring) (w : world) :
  let w' := snd (retry (generateContent endpoint contents) 2 900 w) in
  countCalls w + 1 <= countCalls w' <= countCalls w + 3.
Proof.
  cbv zeta.
  destruct (endpoint (countCalls w)) as [r1|e1] eqn:E1.
  - erewrite retry_returns;
      [|exact (attempt_resolves contents w eq_refl E1)].
    cbn [snd]. rewrite countCalls_app. cbn. lia.
  - destruct (endpoint (countCalls w + 1)) as [r2|e2] eqn:E2.
    + erewrite retry_tries_again;
        [|exact (attempt_rejects contents w eq_refl E1)|lia].
      erewrite retry_returns.
      2:{ eapply attempt_resolves; [|exact E2].
          rewrite !countCalls_app. cbn. lia. }
      cbn [snd]. rewrite !countCalls_app. cbn. lia.
    + rewrite (retry_after_two_rejections contents w E1 E2).
      rewrite generateContent_run. cbn [snd].
      rewrite !countCalls_app. cbn. lia.
Qed.


(** C10: a reply whose cleaned text is JSON but not an array yields no
    facts, the line-based extraction not being tried; when that reply is
    what the retried call returns, [generateFacts] resolves with [{ facts:
    [], success: false, error: "No valid facts extracted" }] and logs that
    error. *)
Theorem parseFacts_json_not_array (text : jsstring) (v : JSON) :
  JSON_parse (cleaned text) = Some v ->
  (forall items, v <> JArr items) ->
  parseFactsResponse text = [] /\
  forall data w w1,
    truthyStr (titleOf data) = true ->
    retry (generateContent endpoint (createMoviePrompt host data)) 2 900
          (w ++ [LogInfo (js "Generating AI facts") (titleOf data)])
    = (Normal (Response (Some text)), w1) ->
    generateFacts host endpoint data w
    = (Normal {| Facts.facts := []; Facts.success := false;
                 Facts.error := Some (js "No valid facts extracted") |},
       w1 ++ [LogError (js "Error generating AI facts")
                       (js "No valid facts extracted")]).
Proof.
  intros Hp Hv.
  assert (E : parseFactsResponse text = []).
  { unfold parseFactsResponse. rewrite Hp.
    destruct v; try reflexivity. now elim (Hv items). }
  split; [exact E|].
  intros data w w1 Ht Hr.
  rewrite generateFacts_run by exact Ht. rewrite Hr.
  destruct text as [|c text]; [discriminate Hp|].
  cbn [textOf truthyStr showOptStr]. rewrite E. cbn [length Nat.eqb].
  unfold factsFailed. cbn [handleCaught].
  now rewrite handleError_no_facts.
Qed.

End RetriedCall.



(** C10 on a reply that is one JSON string. *)
Lemma parseFacts_json_not_array_witness :
  parseFactsResponse quotedFact = []
  /\ factLines quotedFact = [quotedFact]
  /\ generateFacts plainHost (fun _ => Resolves (Response (Some quotedFact)))
                   sampleMovie []
     = (Normal {| Facts.facts := []; Facts.success := false;
                  Facts.error := Some (js "No valid facts extracted") |},
        [LogInfo (js "Generating AI facts") (Some (js "Heat"));
         Called MODEL_NAME (createMoviePrompt plainHost sampleMovie);
         LogError (js "Error generating AI facts")
                  (js "No valid facts extracted")]).
Proof.
  assert (Hp : JSON_parse (cleaned quotedFact)
               = Some (JStr (js "Heat was filmed on location in Los Angeles")))
    by (vm_compute; reflexivity).
  assert (Hv : forall items,
             JStr (js "Heat was filmed on location in Los Angeles")
             <> JArr items) by discriminate.
  pose proof (parseFacts_json_not_array plainHost
                (fun _ => Resolves (Response (Some quotedFact)))
                quotedFact Hp Hv) as [E G].
  split; [exact E|]. split; [vm_compute; reflexivity|].
  exact (G sampleMovie []
           [LogInfo (js "Generating AI facts") (Some (js "Heat"));
            Called MODEL_NAME (createMoviePrompt plainHost sampleMovie)]
           eq_refl eq_refl).
Defined.

(** *** What the operations add to the trace *)

Lemma extendsBy_trans (allowed : event -> Prop) (w1 w2 w3 : world) :
  extendsBy allowed w1 w2 -> extendsBy allowed w2 w3 ->
  extendsBy allowed w1 w3.
Proof.
  intros [e1 [-> F1]] [e2 [-> F2]]. exists (e1 ++ e2).
  split; [now rewrite app_assoc | now apply Forall_app].
Qed.

Lemma extendsBy_one (allowed : event -> Prop) (w : world) (e : event) :
  allowed e -> extendsBy allowed w (w ++ [e]).
Proof. intros H. exists [e]. split; [reflexivity | now constructor]. Qed.

Lemma retry_extends {T : Type} (fn : Eff T) (allowed : event -> Prop) :
  (forall w, extendsBy allowed w (snd (fn w))) ->
  (forall ms, allowed (Slept ms)) ->
  forall retries delayMs w,
    extendsBy allowed w (snd (retry fn retries delayMs w)).
Proof.
  intros Hfn Hsleep retries.
  remember (Z.to_nat retries) as n eqn:Hn. revert retries Hn.
  induction n as [|n IH]; intros retries Hn delayMs w;
    specialize (Hfn w) as Hw; destruct (fn w) as [[v|e] w1] eqn:E.
  - erewrite retry_returns; [exact Hw | eassumption].
  - erewrite retry_gives_up; [exact Hw | eassumption | lia].
  - erewrite retry_returns; [exact Hw | eassumption].
  - erewrite retry_tries_again; [|eassumption|lia].
    eapply extendsBy_trans; [exact Hw|]. cbn [snd].
    eapply extendsBy_trans; [apply extendsBy_one, Hsleep|].
    apply IH. lia.
Qed.

(** [generateFacts] calls the model only with the prompt of its record,
    and only for a record with a title. *)
Lemma generateFacts_trace (host : Host) (endpoint : nat -> outcome)
      (data : Movie.MovieData) (w : world) :
  extendsBy (factsEvent host data) w
            (snd (generateFacts host endpoint data w)).
Proof.
  destruct (truthyStr (titleOf data)) eqn:Ht.
  - rewrite generateFacts_run by exact Ht.
    assert (R : extendsBy (factsEvent host data) w
                  (snd (retry (generateContent endpoint
                                 (createMoviePrompt host data)) 2 900
                          (w ++ [LogInfo (js "Generating AI facts")
                                         (titleOf data)])))).
    { eapply extendsBy_trans;
        [exact (@extendsBy_one (factsEvent host data) w
                  (LogInfo (js "Generating AI facts") (titleOf data)) I)|].
      apply retry_extends; [|intros ms; exact I].
      intros u. rewrite generateContent_run. cbn [snd].
      apply extendsBy_one. cbn. auto. }
    assert (L : forall e u,
               extendsBy (factsEvent host data) w u ->
               extendsBy (factsEvent host data) w
                 (snd (factsFailed host e u))).
    { intros e u Hu. unfold factsFailed.
      destruct (handleCaught host e) as [msg|e']; cbn [snd]; [|exact Hu].
      eapply extendsBy_trans; [exact Hu|]. apply extendsBy_one. exact I. }
    destruct (retry _ 2 900 _) as [[resp|e] w1]; cbn [snd] in R.
    + destruct (truthyStr (textOf resp)); [|now apply L].
      cbv zeta. destruct (Nat.eqb _ 0); [now apply L | exact R].
    + now apply L.
  - unfold generateFacts, tryCatch. rewrite Ht. cbn [negb].
    unfold throw, bind, emit, ret. cbn [snd].
    apply extendsBy_one. exact I.
Qed.

(** ** The facts prompt *)

Section PromptProperties.
Variable host : Host.

(** The GOAL line: title in quotes, year in brackets, media kind. *)
Lemma createMoviePrompt_goal_line (data : Movie.MovieData) :
  exists rest,
    createMoviePrompt host data
    = promptHead ++ promptTitle data ++ jq "' (" ++ releaseYear host data
      ++ js ") - a " ++ (if isTV data then js "TV Series" else js "Movie")
      ++ js "." ++ newline ++ rest.
Proof.
  unfold createMoviePrompt, lines, promptHead. cbn [join].
  eexists. rewrite <- !app_assoc. reflexivity.
Qed.

Lemma releaseYear_relevantDate (data : Movie.MovieData) :
  releaseYear host data = yearOf host (relevantDate data).
Proof. unfold releaseYear, relevantDate. now destruct (isTV data). Qed.

(** An absent or empty date prints as "Unknown". *)
Lemma releaseYear_absent (data : Movie.MovieData) :
  truthyStr (relevantDate data) = false ->
  releaseYear host data = js "Unknown".
Proof.
  intros H. rewrite releaseYear_relevantDate. unfold yearOf. now rewrite H.
Qed.

(** A date the engine can read prints as its year. *)
Lemma releaseYear_valid (data : Movie.MovieData) (date : jsstring) (y : Z) :
  relevantDate data = Some date -> date <> [] ->
  Date_getFullYear host date = Some y ->
  releaseYear host data = digitsOfZ y.
Proof.
  intros Hd Hne Hy. rewrite releaseYear_relevantDate, Hd. unfold yearOf.
  destruct date as [|c date]; [congruence|]. cbn [truthyStr showOptStr].
  now rewrite Hy.
Qed.

(** C2, where the code departs from it: a date that is present but that
    the engine cannot read prints as "NaN", not as "Unknown". *)
Theorem releaseYear_invalid_date (data : Movie.MovieData) (date : jsstring) :
  relevantDate data = Some date -> date <> [] ->
  Date_getFullYear host date = None ->
  releaseYear host data = js "NaN"
  /\ js "NaN" <> js "Unknown"
  /\ exists rest,
      createMoviePrompt host data
      = promptHead ++ promptTitle data ++ jq "' (" ++ js "NaN"
        ++ js ") - a " ++ (if isTV data then js "TV Series" else js "Movie")
        ++ js "." ++ newline ++ rest.
Proof.
  intros Hd Hne Hy.
  assert (E : releaseYear host data = js "NaN").
  { rewrite releaseYear_relevantDate, Hd. unfold yearOf.
    destruct date as [|c date]; [congruence|]. cbn [truthyStr showOptStr].
    now rewrite Hy. }
  split; [exact E|]. split; [discriminate|].
  rewrite <- E. apply createMoviePrompt_goal_line.
Qed.

(** C3: a record with a name is labelled "TV Series", with the name as
    title and the year of [first_air_date]; a record without one is
    labelled "Movie", with [title] and the year of [release_date].  So it
    is for the prompt of a record whose name is not empty, respectively
    whose name is absent or empty; and so it is for every prompt
    [generateFacts] sends for a record with a name and no title,
    respectively with a title and no name (an empty name or title sends
    none). *)
Theorem prompt_labels_media_kind (data : Movie.MovieData) :
  (forall n, Movie.name data = Some n -> n <> [] ->
     exists rest,
       createMoviePrompt host data
       = promptHead ++ n ++ jq "' ("
         ++ yearOf host (Movie.first_air_date data)
         ++ js ") - a TV Series." ++ newline ++ rest) /\
  (forall t, Movie.title data = Some t -> truthyStr (Movie.name data) = false ->
     exists rest,
       createMoviePrompt host data
       = promptHead ++ t ++ jq "' ("
         ++ yearOf host (Movie.release_date data)
         ++ js ") - a Movie." ++ newline ++ rest) /\
  (forall n endpoint w,
      Movie.name data = Some n -> Movie.title data = None ->
      exists evs,
        snd (generateFacts host endpoint data w) = w ++ evs
        /\ forall model contents,
            In (Called model contents) evs ->
            exists rest,
              contents
              = promptHead ++ n ++ jq "' ("
                ++ yearOf host (Movie.first_air_date data)
                ++ js ") - a TV Series." ++ newline ++ rest) /\
  (forall t endpoint w,
      Movie.title data = Some t -> Movie.name data = None ->
      exists evs,
        snd (generateFacts host endpoint data w) = w ++ evs
        /\ forall model contents,
            In (Called model contents) evs ->
            exists rest,
              contents
              = promptHead ++ t ++ jq "' ("
                ++ yearOf host (Movie.release_date data)
                ++ js ") - a Movie." ++ newline ++ rest).
Proof.
  destruct (createMoviePrompt_goal_line data) as [rest E].
  assert (Series : forall n, Movie.name data = Some n -> n <> [] ->
             exists rest,
               createMoviePrompt host data
               = promptHead ++ n ++ jq "' ("
                 ++ yearOf host (Movie.first_air_date data)
                 ++ js ") - a TV Series." ++ newline ++ rest).
  { intros n Hn Hne. exists rest. rewrite E.
    unfold promptTitle, releaseYear, isTV. rewrite Hn.
    destruct n as [|c n]; [congruence|]. cbn [truthyStr showOptStr].
    reflexivity. }
  assert (Film : forall t, Movie.title data = Some t ->
             truthyStr (Movie.name data) = false ->
             exists rest,
               createMoviePrompt host data
               = promptHead ++ t ++ jq "' ("
                 ++ yearOf host (Movie.release_date data)
                 ++ js ") - a Movie." ++ newline ++ rest).
  { intros t Ht Hn. exists rest. rewrite E.
    unfold promptTitle, releaseYear, isTV. rewrite Hn, Ht.
    cbn [showOptStr]. reflexivity. }
  split; [exact Series|]. split; [exact Film|]. split.
  - intros n endpoint w Hn Ht.
    destruct (generateFacts_trace host endpoint data w) as [evs [Ew Fe]].
    exists evs. split; [exact Ew|]. intros model contents Hin.
    rewrite Forall_forall in Fe. specialize (Fe _ Hin) as (_ & -> & Htitle).
    apply Series; [exact Hn|]. intros ->.
    unfold titleOf in Htitle. rewrite Hn, Ht in Htitle. discriminate.
  - intros t endpoint w Ht Hn.
    destruct (generateFacts_trace host endpoint data w) as [evs [Ew Fe]].
    exists evs. split; [exact Ew|]. intros model contents Hin.
    rewrite Forall_forall in Fe. specialize (Fe _ Hin) as (_ & -> & _).
    apply Film; [exact Ht|]. now rewrite Hn.
Qed.

End PromptProperties.

(** The prompt for [{ title: "Heat", release_date: "TBA" }] reads
    ["Heat" (NaN) - a Movie.], and [generateFacts] sends it. *)
Lemma releaseYear_invalid_date_witness :
  releaseYear plainHost undatedMovie = js "NaN"
  /\ (exists rest,
         createMoviePrompt plainHost undatedMovie
         = promptHead ++ jq "Heat' (NaN) - a Movie." ++ newline ++ rest)
  /\ In (Called MODEL_NAME (createMoviePrompt plainHost undatedMovie))
        (snd (generateFacts plainHost flaky undatedMovie [])).
Proof.
  assert (Hne : js "TBA" <> []) by discriminate.
  destruct (releaseYear_invalid_date plainHost undatedMovie
              eq_refl Hne eq_refl) as [E [_ [rest P]]].
  split; [exact E|]. split; [exists rest; exact P|].
  vm_compute. right. left. reflexivity.
Defined.

(** The prompts of a series and of a movie. *)
Lemma prompt_labels_media_kind_witness :
  (exists rest,
      createMoviePrompt plainHost sampleSeries
      = promptHead ++ jq "Dark' (2017) - a TV Series." ++ newline ++ rest)
  /\ (exists rest,
      createMoviePrompt plainHost sampleMovie
      = promptHead ++ jq "Heat' (1995) - a Movie." ++ newline ++ rest).
Proof.
  split.
  - assert (Hne : js "Dark" <> []) by discriminate.
    destruct (proj1 (prompt_labels_media_kind plainHost sampleSeries)
                (js "Dark") eq_refl Hne) as [rest P].
    exists rest. exact P.
  - destruct (proj1 (proj2 (prompt_labels_media_kind plainHost sampleMovie))
                (js "Heat") eq_refl eq_refl) as [rest P].
    exists rest. exact P.
Defined.

(** ** The facts parser *)

Lemma strings_firstn_filter (n : nat) (items : list JSON) :
  strings (firstn n (filter isFact items))
  = firstn n (filter longEnough (strings items)).
Proof.
  revert n; induction items as [|x items IH]; intros n.
  - now destruct n.
  - destruct x as [| b | d | s | xs | ms]; cbn [filter isFact strings];
      try apply IH.
    fold (longEnough s). destruct (longEnough s); [|apply IH].
    destruct n as [|n]; [reflexivity|].
    cbn [firstn strings]. now rewrite IH.
Qed.

(** *** Cleaning *)

Lemma stripFenceClose_fenced (body : jsstring) :
  noFence body = true ->
  stripFenceClose (body ++ newline ++ js "```") = body ++ newline.
Proof.
  intros H. induction body as [|c body IH].
  - reflexivity.
  - simpl in H. apply andb_true_iff in H as [Hc H].
    cbn [app stripFenceClose].
    assert (E : startsWith (js "```") (c :: body ++ newline ++ js "```") = false).
    { apply negb_true_iff in Hc. change (js "```") with [96%N; 96%N; 96%N].
      cbn [startsWith]. rewrite N.eqb_sym, Hc. reflexivity. }
    rewrite E. cbn [andb]. now rewrite IH.
Qed.

(** The cleaned text of a fenced reply is what stands between the fences. *)
Lemma cleaned_fenced (body : jsstring) :
  noFence body = true ->
  noLeadingSpace body = true -> noLeadingSpace (rev body) = true ->
  cleaned (js "```json" ++ newline ++ body ++ newline ++ js "```") = body.
Proof.
  intros Hf Hs Hr. unfold cleaned.
  assert (E : stripFenceOpen (js "```json" ++ newline ++ body ++ newline ++ js "```")
              = dropWhile isWhiteSpace (newline ++ body ++ newline ++ js "```"))
    by reflexivity.
  rewrite E. clear E.
  destruct body as [|c body].
  - reflexivity.
  - rewrite (dropWhile_all isWhiteSpace newline) by
      (try reflexivity; now apply noLeadingSpace_head in Hs).
    rewrite stripFenceClose_fenced by assumption.
    rewrite <- (app_nil_l ((c :: body) ++ newline)).
    now apply trim_padded.
Qed.

(** C4 (amended): when the cleaned text is a JSON array, the result is its
    string elements whose trimmed length exceeds 10, as they stand in the
    array (untrimmed, in order, repeats kept), cut to the first 10.  So it
    is for a JSON array between a [```json] fence and a closing fence; the
    fenced array of two facts yields those two, and of fifteen facts the
    first ten are returned. *)
Theorem parseFacts_json_array (text : jsstring) (items : list JSON) :
  JSON_parse (cleaned text) = Some (JArr items) ->
  parseFactsResponse text = firstn 10 (filter longEnough (strings items))
  /\ (forall body elements,
         noFence body = true ->
         noLeadingSpace body = true -> noLeadingSpace (rev body) = true ->
         JSON_parse body = Some (JArr elements) ->
         parseFactsResponse
           (js "```json" ++ newline ++ body ++ newline ++ js "```")
         = firstn 10 (filter longEnough (strings elements)))
  /\ parseFactsResponse twoFacts
     = [js "a valid fact here"; js "another one too"]
  /\ parseFactsResponse fifteenFacts
     = [js "fact number 01"; js "fact number 02"; js "fact number 03";
        js "fact number 04"; js "fact number 05"; js "fact number 06";
        js "fact number 07"; js "fact number 08"; js "fact number 09";
        js "fact number 10"].
Proof.
  assert (Arr : forall t xs,
             JSON_parse (cleaned t) = Some (JArr xs) ->
             parseFactsResponse t
             = firstn 10 (filter longEnough (strings xs))).
  { intros t xs Hp. unfold parseFactsResponse. rewrite Hp.
    apply strings_firstn_filter. }
  intros Hp. split; [|split; [|split]].
  - now apply Arr.
  - intros body elements Hf Hs Hr Hb. apply Arr.
    now rewrite cleaned_fenced.
  - vm_compute. reflexivity.
  - vm_compute. reflexivity.
Qed.

(** The amended C4 on the fenced reply of two facts. *)
Lemma parseFacts_json_array_witness :
  parseFactsResponse twoFacts
  = firstn 10 (filter longEnough
                 [js "a valid fact here"; js "another one too"]).
Proof.
  assert (Hp : JSON_parse (cleaned twoFacts)
               = Some (JArr [JStr (js "a valid fact here");
                             JStr (js "another one too")]))
    by (vm_compute; reflexivity).
  exact (proj1 (parseFacts_json_array twoFacts Hp)).
Defined.

(** C4 as stated fails: the only element of this array is a string of 15
    characters, more than 10, and it is not returned, because only 10 of
    them are left after trimming. *)
Lemma parseFacts_drops_padded_string :
  JSON_parse (cleaned paddedFact) = Some (JArr [JStr (js "Heat, 1995     ")])
  /\ Nat.ltb 10 (length (js "Heat, 1995     ")) = true
  /\ parseFactsResponse paddedFact = [].
Proof. repeat split; vm_compute; reflexivity. Qed.

(** A leading run of digits with its full stop goes, and the white space
    after it. *)
Lemma stripEnumeration_marker (ds ws rest : jsstring) :
  ds <> [] -> forallb isDigit ds = true ->
  forallb isWhiteSpace ws = true -> noLeadingSpace rest = true ->
  stripEnumeration (ds ++ js "." ++ ws ++ rest) = rest.
Proof.
  intros Hne Hds Hws Hrest. unfold stripEnumeration.
  rewrite takeWhile_all by (assumption || reflexivity).
  destruct ds as [|d ds]; [congruence|].
  rewrite skipn_app, skipn_all, Nat.sub_diag. cbn [app skipn js map
    list_ascii_of_string N_of_ascii].
  change (N.eqb _ 46) with true. cbn iota.
  apply dropWhile_all; [assumption | now apply noLeadingSpace_head].
Qed.

(** A leading bullet goes, and the white space after it. *)
Lemma stripBullet_marker (c : char16) (ws rest : jsstring) :
  isBullet c = true ->
  forallb isWhiteSpace ws = true -> noLeadingSpace rest = true ->
  stripBullet (c :: ws ++ rest) = rest.
Proof.
  intros Hc Hws Hrest. unfold stripBullet. rewrite Hc.
  apply dropWhile_all; [assumption | now apply noLeadingSpace_head].
Qed.

(** The characters of the bullet class are those of the source file as
    it stands; the bullet U+2022 is not among them and stays. *)
Lemma stripBullet_class (c : char16) :
  isBullet c = true
  <-> c = 45%N \/ c = 42%N \/ c = 226%N \/ c = 8364%N \/ c = 162%N.
Proof.
  unfold isBullet. rewrite !orb_true_iff, !N.eqb_eq. tauto.
Qed.

(** C5 (amended): when [JSON.parse] throws on the cleaned text, the result
    is made from the lines of the reply: each line is trimmed; the trimmed
    lines longer than 20 characters that begin with neither a brace nor a
    bracket are kept; from each kept line a leading run of digits with its
    full stop, and then a leading bullet (a hyphen or an asterisk among
    the characters of the class), are removed with the white space after
    them; the first 10 are returned.  The reply of one long and one short
    line yields the long line. *)
Theorem parseFacts_fallback (text : jsstring) :
  JSON_parse (cleaned text) = None ->
  parseFactsResponse text
  = firstn 10
      (map (fun l => stripBullet (stripEnumeration l))
         (filter (fun l => Nat.ltb 20 (length l)
                           && negb (startsWith (js "{") l)
                           && negb (startsWith (js "[") l))
            (map trim (splitLines text))))
  /\ (forall ds ws rest,
         ds <> [] -> forallb isDigit ds = true ->
         forallb isWhiteSpace ws = true -> noLeadingSpace rest = true ->
         stripEnumeration (ds ++ js "." ++ ws ++ rest) = rest)
  /\ (forall c ws rest,
         isBullet c = true ->
         forallb isWhiteSpace ws = true -> noLeadingSpace rest = true ->
         stripBullet (c :: ws ++ rest) = rest)
  /\ stripBullet (js "- a") = js "a" /\ stripBullet (js "* a") = js "a"
  /\ parseFactsResponse
       (js "not json at all but this line is long enough to count"
           ++ newline ++ js "short")
     = [js "not json at all but this line is long enough to count"].
Proof.
  intros Hp. split; [|split; [|split; [|split; [|split]]]].
  - unfold parseFactsResponse. now rewrite Hp.
  - apply stripEnumeration_marker.
  - apply stripBullet_marker.
  - reflexivity.
  - reflexivity.
  - vm_compute. reflexivity.
Qed.

(** The amended C5 on a reply of three lines: a numbered one, an indented
    bulleted one, and one that begins with a brace. *)
Lemma parseFacts_fallback_witness :
  parseFactsResponse
    (js "1. Heat was shot in 107 days" ++ newline
        ++ js "  - Pacino and De Niro share two scenes" ++ newline
        ++ js "{ not a fact, looks like JSON }")
  = [js "Heat was shot in 107 days";
     js "Pacino and De Niro share two scenes"].
Proof.
  rewrite (proj1 (parseFacts_fallback
                    (js "1. Heat was shot in 107 days" ++ newline
                        ++ js "  - Pacino and De Niro share two scenes"
                        ++ newline
                        ++ js "{ not a fact, looks like JSON }")
                    eq_refl)).
  vm_compute. reflexivity.
Defined.

(** C5 as stated fails: this reply is one line of 21 characters that begins
    with a space, so it is longer than 20 characters and begins with
    neither a brace nor a bracket; it is dropped, because 17 characters are
    left after trimming. *)
Lemma parseFacts_drops_indented_line :
  JSON_parse (cleaned indentedLine) = None
  /\ splitLines indentedLine = [indentedLine]
  /\ isFactLine indentedLine = true
  /\ parseFactsResponse indentedLine = [].
Proof. repeat split; vm_compute; reflexivity. Qed.

(** ** The suggestion parser *)

Lemma bindC_Normal {A B} (c : completion A) (k : A -> completion B) (b : B) :
  bindC c k = Normal b <-> exists a, c = Normal a /\ k a = Normal b.
Proof.
  destruct c as [a|e]; simpl; split.
  - intros H. now exists a.
  - now intros [a' [[= <-] H]].
  - discriminate.
  - now intros [a' [[=] _]].
Qed.

Lemma truthy_string (t : jsstring) : truthy (Some (JStr t)) = true <-> t <> [].
Proof. destruct t; simpl; split; congruence. Qed.

Lemma isMovieOrSeries_iff (v : option JSON) :
  isMovieOrSeries v = true
  <-> exists ty, v = Some (JStr ty) /\ (ty = js "movie" \/ ty = js "series").
Proof.
  split.
  - destruct v as [[| b | d | t | xs | ms]|]; simpl; try discriminate.
    rewrite orb_true_iff, !str_eqb_eq. intros H. now exists t.
  - intros [ty [-> H]]. simpl. rewrite orb_true_iff, !str_eqb_eq. exact H.
Qed.

Section SuggestionParser.
Variable host : Host.

Lemma callTrim_Normal (callee : jsstring) (v : option JSON) (s : jsstring) :
  callTrim host callee v = Normal s <-> exists t, v = Some (JStr t) /\ s = trim t.
Proof.
  split.
  - destruct v as [[| b | d | t | xs | ms]|]; simpl; try discriminate.
    intros [= <-]. now exists t.
  - now intros [t [-> ->]].
Qed.

(** When [parseSuggestionResponse] returns, and what. *)
Lemma parseSuggestion_returns (text : jsstring) (sug : Sugg.Suggestion) :
  parseSuggestionResponse host text = Normal sug
  <-> exists s y,
      JSON_parse (cleaned text) = Some s
      /\ textField s "title" (Sugg.title sug)
      /\ member s (js "year") = Some y
      /\ truthy (Some y) = true
      /\ callToString host (js "s.year.toString") (Some y)
         = Normal (Sugg.year sug)
      /\ member s (js "type") = Some (JStr (Sugg.type sug))
      /\ (Sugg.type sug = js "movie" \/ Sugg.type sug = js "series")
      /\ textField s "overview" (Sugg.overview sug)
      /\ textField s "reason" (Sugg.reason sug)
      /\ textField s "searchKeyword" (Sugg.searchKeyword sug).
Proof.
  unfold parseSuggestionResponse, textField. split.
  - destruct (JSON_parse (cleaned text)) as [s|]; [|discriminate].
    destruct (_ || _) eqn:Hf; [discriminate|].
    destruct (negb (isMovieOrSeries _)) eqn:Hty; [discriminate|].
    repeat (apply orb_false_iff in Hf as [Hf ?]).
    repeat match goal with
           | H : negb _ = false |- _ => apply negb_false_iff in H
           end.
    apply isMovieOrSeries_iff in Hty as [ty [Ety Hty]].
    intros Ret.
    apply bindC_Normal in Ret as [title [Ht Ret]].
    apply bindC_Normal in Ret as [year [Hy Ret]].
    apply bindC_Normal in Ret as [overview [Ho Ret]].
    apply bindC_Normal in Ret as [reason [Hr Ret]].
    apply bindC_Normal in Ret as [keyword [Hk Ret]].
    injection Ret as <-. cbn [Sugg.title Sugg.year Sugg.type Sugg.overview
                                       Sugg.reason Sugg.searchKeyword].
    apply callTrim_Normal in Ht as [t [Et ->]].
    apply callTrim_Normal in Ho as [o [Eo ->]].
    apply callTrim_Normal in Hr as [r [Er ->]].
    apply callTrim_Normal in Hk as [k [Ek ->]].
    rewrite Et, Eo, Er, Ek in *.
    destruct (member s (js "year")) as [y|] eqn:Ey; [|discriminate].
    exists s, y. rewrite Ety. cbn [typeString].
    repeat match goal with
           | H : truthy (Some (JStr _)) = true |- _ => apply truthy_string in H
           end.
    repeat split; eauto.
  - destruct sug as [title year type overview reason keyword].
    cbn [Sugg.title Sugg.year Sugg.type Sugg.overview Sugg.reason
                    Sugg.searchKeyword].
    intros (s & y & Hp & (t & Et & Ht & ->) & Ey & Hy & Hys & Ety & Hty
            & (o & Eo & Ho & ->) & (r & Er & Hr & ->) & (k & Ek & Hk & ->)).
    rewrite Hp, Et, Ey, Ety, Eo, Er, Ek, Hy.
    apply truthy_string in Ht, Ho, Hr, Hk. rewrite Ht, Ho, Hr, Hk.
    assert (Hms : isMovieOrSeries (Some (JStr type)) = true)
      by (apply isMovieOrSeries_iff; eauto).
    assert (Htt : truthy (Some (JStr type)) = true)
      by (destruct Hty as [-> | ->]; reflexivity).
    rewrite Hms, Htt. cbn [negb orb bindC callTrim typeString].
    rewrite Hys. reflexivity.
Qed.

End SuggestionParser.

(** Induction on JSON values that reaches the elements of arrays. *)
Section JSON_induction.
Variable P : JSON -> Prop.
Hypothesis HNull : P JNull.
Hypothesis HBool : forall b, P (JBool b).
Hypothesis HNum : forall d, P (JNum d).
Hypothesis HStr : forall s, P (JStr s).
Hypothesis HArr : forall items, Forall P items -> P (JArr items).
Hypothesis HObj : forall ms, P (JObj ms).

Fixpoint JSON_elements_ind (v : JSON) : P v :=
  match v with
  | JNull => HNull
  | JBool b => HBool b
  | JNum d => HNum d
  | JStr s => HStr s
  | JArr items =>
      HArr ((fix all (xs : list JSON) : Forall P xs :=
               match xs with
               | [] => Forall_nil P
               | x :: r => Forall_cons x (JSON_elements_ind x) (all r)
               end) items)
  | JObj ms => HObj ms
  end.
End JSON_induction.

Lemma sequenceC_Normal {A} (cs : list (completion A)) :
  (exists l, sequenceC cs = Normal l)
  <-> Forall (fun c => exists a, c = Normal a) cs.
Proof.
  induction cs as [|c cs IH]; simpl.
  - split; [constructor | now exists []].
  - split.
    + intros [l H]. apply bindC_Normal in H as [a [Ha H]].
      apply bindC_Normal in H as [rest [Hr _]].
      constructor; [now exists a | apply IH; now exists rest].
    + intros H. inversion H as [|c' cs' [a Ha] Hcs]; subst.
      apply IH in Hcs as [rest Hr]. exists (a :: rest).
      simpl. now rewrite Hr.
Qed.

Section Printing.
Variable host : Host.

(** [ToString] returns exactly on the printable values. *)
Lemma ToString_printable (v : JSON) :
  printable v = true <-> exists s, ToString host v = Normal s.
Proof.
  induction v as [| b | d | s | items IH | ms] using JSON_elements_ind;
    cbn [printable ToString];
    try (split; [intros _; eexists; reflexivity | reflexivity]).
  - rewrite forallb_forall. split.
    + intros H.
      assert (S : exists parts,
                 sequenceC (map (fun x => match x with
                                          | JNull => Normal []
                                          | _ => ToString host x
                                          end) items) = Normal parts).
      { apply sequenceC_Normal. apply Forall_map.
        rewrite Forall_forall in *. intros x Hx.
        destruct x; try (now apply IH; [|apply H]); now eexists. }
      destruct S as [parts ->]. now eexists.
    + intros [s H]. apply bindC_Normal in H as [parts [Hs _]].
      assert (S : Forall (fun c => exists a, c = Normal a)
                    (map (fun x => match x with
                                   | JNull => Normal []
                                   | _ => ToString host x
                                   end) items))
        by (apply sequenceC_Normal; now exists parts).
      rewrite Forall_forall in *. intros x Hx.
      specialize (S _ (in_map _ _ _ Hx)). specialize (IH x Hx).
      destruct x; try (now apply IH); reflexivity.
  - destruct (hasOwn (js "toString") ms); simpl; split;
      try discriminate; try reflexivity.
    + now intros [s H].
    + intros _. now eexists.
Qed.

(** [year.toString()] returns exactly on the printable truthy values. *)
Lemma callToString_printable (callee : jsstring) (y : JSON) :
  truthy (Some y) = true ->
  (printable y = true
   <-> exists s, callToString host callee (Some y) = Normal s).
Proof.
  intros Hy. destruct y as [| b | d | s | items | ms];
    try discriminate Hy;
    try (cbn [callToString]; apply ToString_printable).
  cbn [callToString printable].
  destruct (hasOwn (js "toString") ms); simpl; split;
    try discriminate; try reflexivity.
  - now intros [s H].
  - intros _. now eexists.
Qed.

End Printing.

Section SuggestionValidation.
Variable host : Host.

Lemma isStringValue_iff (v : option JSON) :
  isStringValue v = true <-> exists t, v = Some (JStr t).
Proof.
  destruct v as [[| b | d | t | xs | ms]|]; simpl; split;
    try discriminate; try (now intros [t' [=]]); eauto.
Qed.

(** C6 (amended): for a reply whose cleaned text is a JSON object,
    [parseSuggestionResponse] returns exactly when the six members are
    present and truthy, [type] is the string "movie" or "series", the
    members [title], [overview], [reason] and [searchKeyword] are strings,
    and [year] is printable; it then returns the four texts trimmed, [type]
    as it is and [year.toString()], which leaves a string as it is and
    turns the number 2020 into "2020".  A missing or falsy member throws
    "Invalid suggestion format"; with all six truthy, any other [type]
    throws "Invalid suggestion type".  A cleaned text that is not JSON
    throws the [SyntaxError] of [JSON.parse]; nothing else is tried. *)
Theorem parseSuggestion_validation (text : jsstring) :
  (forall ms,
      JSON_parse (cleaned text) = Some (JObj ms) ->
      ((exists sug, parseSuggestionResponse host text = Normal sug)
       <-> sixPresent ms = true
           /\ isMovieOrSeries (field ms "type") = true
           /\ isStringValue (field ms "title") = true
           /\ isStringValue (field ms "overview") = true
           /\ isStringValue (field ms "reason") = true
           /\ isStringValue (field ms "searchKeyword") = true
           /\ exists y, field ms "year" = Some y /\ printable y = true)
      /\ (forall sug,
             parseSuggestionResponse host text = Normal sug ->
             (exists t, field ms "title" = Some (JStr t) /\ Sugg.title sug = trim t)
             /\ (exists y, field ms "year" = Some y
                           /\ callToString host (js "s.year.toString") (Some y)
                              = Normal (Sugg.year sug))
             /\ field ms "type" = Some (JStr (Sugg.type sug))
             /\ (exists o, field ms "overview" = Some (JStr o)
                           /\ Sugg.overview sug = trim o)
             /\ (exists r, field ms "reason" = Some (JStr r)
                           /\ Sugg.reason sug = trim r)
             /\ (exists k, field ms "searchKeyword" = Some (JStr k)
                           /\ Sugg.searchKeyword sug = trim k))
      /\ (sixPresent ms = false ->
          parseSuggestionResponse host text
          = Throw (mkError (js "Invalid suggestion format")))
      /\ (sixPresent ms = true -> isMovieOrSeries (field ms "type") = false ->
          parseSuggestionResponse host text
          = Throw (mkError (js "Invalid suggestion type"))))
  /\ (JSON_parse (cleaned text) = None ->
      parseSuggestionResponse host text
      = Throw {| kind := SyntaxError;
                 message := SyntaxError_message host (cleaned text) |})
  /\ (forall callee s, callToString host callee (Some (JStr s)) = Normal s)
  /\ (forall callee,
         callToString host callee (Some (JNum {| mant := 2020; exp10 := 0 |}))
         = Normal (js "2020"))
  /\ parseSuggestionResponse host sampleSuggestion
     = Normal {| Sugg.title := js "X"; Sugg.year := js "2020";
                 Sugg.type := js "movie"; Sugg.overview := js "o";
                 Sugg.reason := js "r"; Sugg.searchKeyword := js "k" |}
  /\ parseSuggestionResponse host bookSuggestion
     = Throw (mkError (js "Invalid suggestion type")).
Proof.
  split; [|split; [|split; [|split; [|split]]]].
  - intros ms Hp. split; [|split; [|split]].
    + split.
      * intros [sug H]. apply parseSuggestion_returns in H.
        destruct H as (s & y & Hs & (t & Et & Ht & _) & Ey & Hy & Hys & Ety
                       & Hty & (o & Eo & Ho & _) & (r & Er & Hr & _)
                       & (k & Ek & Hk & _)).
        rewrite Hp in Hs. injection Hs as <-. cbn [member] in *.
        unfold sixPresent, field. rewrite Et, Ey, Ety, Eo, Er, Ek, Hy.
        apply truthy_string in Ht, Ho, Hr, Hk. rewrite Ht, Ho, Hr, Hk.
        assert (Hms : isMovieOrSeries (Some (JStr (Sugg.type sug))) = true)
          by (apply isMovieOrSeries_iff; eauto).
        assert (Htt : truthy (Some (JStr (Sugg.type sug))) = true)
          by (destruct Hty as [-> | ->]; reflexivity).
        rewrite Hms, Htt. repeat split.
        exists y. split; [reflexivity|].
        apply (callToString_printable host (js "s.year.toString") y Hy).
        eauto.
      * intros (Hsix & Hty & Ht & Ho & Hr & Hk & y & Ey & Hy).
        unfold sixPresent, field in *.
        repeat (apply andb_true_iff in Hsix as [Hsix ?]).
        apply isStringValue_iff in Ht as [t Et], Ho as [o Eo], Hr as [r Er],
              Hk as [k Ek].
        apply isMovieOrSeries_iff in Hty as [ty [Ety Hty]].
        rewrite Ey in *. rewrite Et, Eo, Er, Ek in *.
        destruct (proj1 (callToString_printable host (js "s.year.toString")
                           y ltac:(assumption)) Hy) as [ys Hys].
        exists {| Sugg.title := trim t; Sugg.year := ys; Sugg.type := ty;
                  Sugg.overview := trim o; Sugg.reason := trim r;
                  Sugg.searchKeyword := trim k |}.
        apply parseSuggestion_returns. exists (JObj ms), y.
        unfold textField. cbn [member Sugg.title Sugg.year Sugg.type
                                      Sugg.overview Sugg.reason
                                      Sugg.searchKeyword].
        repeat match goal with
               | H : truthy (Some (JStr _)) = true |- _ =>
                   apply truthy_string in H
               end.
        repeat split; eauto.
    + intros sug H. apply parseSuggestion_returns in H.
      destruct H as (s & y & Hs & (t & Et & _ & Etv) & Ey & _ & Hys & Ety
                     & _ & (o & Eo & _ & Eov) & (r & Er & _ & Erv)
                     & (k & Ek & _ & Ekv)).
      rewrite Hp in Hs. injection Hs as <-. cbn [member] in *.
      unfold field. repeat split; eauto.
    + intros Hsix. unfold parseSuggestionResponse. rewrite Hp.
      cbn [member]. unfold sixPresent in Hsix.
      repeat match goal with
             | H : context [truthy ?v] |- _ => destruct (truthy v)
             end; simpl in *; congruence.
    + intros Hsix Hty. unfold parseSuggestionResponse. rewrite Hp.
      cbn [member]. unfold field in Hty. rewrite Hty.
      unfold sixPresent in Hsix.
      repeat match goal with
             | H : context [truthy ?v] |- _ => destruct (truthy v)
             end; simpl in *; congruence.
  - intros Hp. unfold parseSuggestionResponse. now rewrite Hp.
  - reflexivity.
  - reflexivity.
  - vm_compute. reflexivity.
  - vm_compute. reflexivity.
Qed.

End SuggestionValidation.

(** The amended C6 on the sample reply: it is accepted. *)
Lemma parseSuggestion_validation_witness :
  exists sug, parseSuggestionResponse plainHost sampleSuggestion = Normal sug.
Proof.
  assert (Hp : JSON_parse (cleaned sampleSuggestion)
               = Some (JObj [(js "title", JStr (js "X"));
                             (js "year", JNum {| mant := 2020; exp10 := 0 |});
                             (js "type", JStr (js "movie"));
                             (js "overview", JStr (js "o"));
                             (js "reason", JStr (js "r"));
                             (js "searchKeyword", JStr (js "k"))]))
    by (vm_compute; reflexivity).
  destruct (proj1 (parseSuggestion_validation plainHost sampleSuggestion)
              _ Hp) as [Hiff _].
  apply Hiff. repeat split; try reflexivity.
  eexists. split; reflexivity.
Defined.

(** C6 as stated fails: in this reply the six members are all truthy and
    [type] is "movie", but [title] is a number, which has no [trim]; the
    parser throws a [TypeError]. *)
Lemma parseSuggestion_rejects_numeric_title :
  (exists ms,
      JSON_parse (cleaned numericTitle) = Some (JObj ms)
      /\ sixPresent ms = true
      /\ getProp (js "type") ms = Some (JStr (js "movie")))
  /\ parseSuggestionResponse plainHost numericTitle
     = Throw {| kind := TypeError;
                message := js "s.title.trim is not a function" |}.
Proof.
  split; [eexists; repeat split|]; vm_compute; reflexivity.
Qed.

(** ** Runs of the retried call *)

Lemma countCalls_attempts (contents : jsstring) (delayMs : Z) (k : nat) :
  countCalls (attempts contents delayMs k) = S k.
Proof.
  revert delayMs; induction k as [|k IH]; intros d; [reflexivity|].
  cbn [attempts]. change (countCalls (Called MODEL_NAME contents :: Slept d :: ?l))
    with (S (countCalls l)). now rewrite IH.
Qed.

Lemma pauseTotal_app (w1 w2 : world) :
  pauseTotal (w1 ++ w2) = (pauseTotal w1 + pauseTotal w2)%Z.
Proof.
  induction w1 as [|[| | |] w1 IH]; cbn [app pauseTotal]; lia.
Qed.

Lemma pauseTotal_attempts (contents : jsstring) (delayMs : Z) (k : nat) :
  pauseTotal (attempts contents delayMs k) = (delayMs * (2 ^ Z.of_nat k - 1))%Z.
Proof.
  revert delayMs; induction k as [|k IH]; intros d.
  - cbn. lia.
  - cbn [attempts pauseTotal]. rewrite IH.
    rewrite Nat2Z.inj_succ, Z.pow_succ_r by lia. lia.
Qed.

(** Every run of [retry] on the model is a run of attempts: some number
    [k] of rejected calls, at most the budget, each followed by a pause,
    and then the call that settles it. *)
Lemma retry_attempts (endpoint : nat -> outcome) (contents : jsstring)
      (retries delayMs : Z) (w : world) :
  exists k,
    k <= Z.to_nat retries
    /\ (forall i, i < k -> exists e, endpoint (countCalls w + i) = Rejects e)
    /\ retry (generateContent endpoint contents) retries delayMs w
       = (match endpoint (countCalls w + k) with
          | Resolves r => Normal r
          | Rejects e => Throw e
          end, w ++ attempts contents delayMs k)
    /\ (forall e, endpoint (countCalls w + k) = Rejects e -> k = Z.to_nat retries).
Proof.
  remember (Z.to_nat retries) as n eqn:Hn. revert retries Hn delayMs w.
  assert (Stop : forall m retries delayMs w,
             (forall e, endpoint (countCalls w) = Rejects e ->
                        (retries <= 0)%Z /\ 0 = m) ->
             0 <= m
             /\ (forall i, i < 0 ->
                   exists e, endpoint (countCalls w + i) = Rejects e)
             /\ retry (generateContent endpoint contents) retries delayMs w
                = (match endpoint (countCalls w + 0) with
                   | Resolves r => Normal r
                   | Rejects e => Throw e
                   end, w ++ attempts contents delayMs 0)
             /\ (forall e, endpoint (countCalls w + 0) = Rejects e -> 0 = m)).
  { intros m retries delayMs w Hr. rewrite Nat.add_0_r.
    split; [lia|]. split; [intros i Hi; lia|]. split.
    - destruct (endpoint (countCalls w)) as [r|e] eqn:E.
      + erewrite retry_returns; [reflexivity|].
        now rewrite generateContent_run, E.
      + erewrite retry_gives_up; [reflexivity| |now apply (Hr e)].
        now rewrite generateContent_run, E.
    - intros e He. now apply (Hr e). }
  induction n as [|n IH]; intros retries Hn delayMs w;
    destruct (endpoint (countCalls w)) as [r|e] eqn:E.
  - exists 0. apply Stop. intros e He. split; [lia|reflexivity].
  - exists 0. apply Stop. intros e' He. split; [lia|reflexivity].
  - exists 0. apply Stop. intros e He. congruence.
  - destruct (IH (retries - 1)%Z ltac:(lia) (delayMs * 2)%Z
                (w ++ [Called MODEL_NAME contents] ++ [Slept delayMs]))
      as (k & Hk & Hrej & Hrun & Hlast).
    assert (C : forall i,
               countCalls (w ++ [Called MODEL_NAME contents] ++ [Slept delayMs]) + i
               = countCalls w + S i).
    { intros i. rewrite countCalls_app. cbn. lia. }
    exists (S k). split; [lia|]. split; [|split].
    + intros [|i] Hi.
      * rewrite Nat.add_0_r. eauto.
      * rewrite <- C. apply Hrej. lia.
    + erewrite retry_tries_again; [| |lia].
      2:{ now rewrite generateContent_run, E. }
      rewrite <- app_assoc. rewrite Hrun, C.
      cbn [attempts]. now rewrite <- !app_assoc.
    + intros e' He'. rewrite <- C in He'. apply Hlast in He'. lia.
Qed.

(** ** The result records *)

Lemma trim_length (s : jsstring) : length (trim s) <= length s.
Proof.
  unfold trim, trimEnd, trimStart. rewrite length_rev.
  etransitivity; [apply dropWhile_length|]. rewrite length_rev.
  apply dropWhile_length.
Qed.

Lemma strings_length (vs : list JSON) : length (strings vs) <= length vs.
Proof.
  induction vs as [|v vs IH]; simpl; [lia|].
  destruct v; simpl; lia.
Qed.

(** At most ten facts come back. *)
Lemma parseFacts_at_most_ten (text : jsstring) :
  length (parseFactsResponse text) <= 10.
Proof.
  unfold parseFactsResponse, factLines.
  destruct (JSON_parse (cleaned text)) as [[| b | d | s | items | ms]|];
    try (cbn [length]; lia).
  - etransitivity; [apply strings_length|]. apply firstn_le_length.
  - apply firstn_le_length.
Qed.

(** From a JSON array, every fact has more than ten characters. *)
Lemma parseFacts_array_long (text : jsstring) (items : list JSON) :
  JSON_parse (cleaned text) = Some (JArr items) ->
  Forall (fun f => 10 < length f) (parseFactsResponse text).
Proof.
  intros Hp. unfold parseFactsResponse. rewrite Hp, strings_firstn_filter.
  apply Forall_forall. intros f Hf.
  apply (In_nth_error) in Hf as [i Hi].
  assert (Hin : In f (filter longEnough (strings items))).
  { apply nth_error_In with i.
    destruct (Nat.lt_ge_cases i 10) as [Hlt | Hge].
    - now rewrite nth_error_firstn, (proj2 (Nat.ltb_lt _ _) Hlt) in Hi.
    - rewrite nth_error_firstn in Hi.
      now rewrite (proj2 (Nat.ltb_ge _ _) Hge) in Hi. }
  apply filter_In in Hin as [_ Hl]. unfold longEnough in Hl.
  apply Nat.ltb_lt in Hl. pose proof (trim_length f). lia.
Qed.

Lemma bindC_Throw {A B} (c : completion A) (k : A -> completion B) (e : JsError) :
  bindC c k = Throw e
  <-> c = Throw e \/ exists a, c = Normal a /\ k a = Throw e.
Proof.
  destruct c as [a|e']; simpl; split.
  - intros H. right. now exists a.
  - intros [H | [a' [[= <-] H]]]; [discriminate | exact H].
  - intros [= <-]. now left.
  - now intros [[= ->] | [a' [[=] _]]].
Qed.

Lemma sequenceC_Throw {A} (cs : list (completion A)) (e : JsError) :
  sequenceC cs = Throw e -> In (Throw e) cs.
Proof.
  induction cs as [|c cs IH]; simpl; [discriminate|].
  intros H. apply bindC_Throw in H as [-> | [a [-> H]]]; [now left|].
  apply bindC_Throw in H as [H | [rest [_ H]]]; [|discriminate].
  right. now apply IH.
Qed.

Section Diagnostics.
Variable host : Host.
Hypothesis sound : soundDiagnostics host.

Lemma ToString_throws (v : JSON) (e : JsError) :
  ToString host v = Throw e -> message e <> [].
Proof.
  destruct sound as (_ & _ & Hprim & _).
  induction v as [| b | d | s | items IH | ms] using JSON_elements_ind;
    cbn [ToString]; try discriminate.
  - intros H. apply bindC_Throw in H as [H | [parts [_ H]]]; [|discriminate].
    apply sequenceC_Throw, in_map_iff in H as [x [Hx Hin]].
    rewrite Forall_forall in IH. specialize (IH x Hin).
    destruct x; try discriminate; now apply IH.
  - destruct (hasOwn (js "toString") ms); [|discriminate].
    now intros [= <-].
Qed.

Lemma callToString_throws (callee : jsstring) (v : option JSON) (e : JsError) :
  callToString host callee v = Throw e -> message e <> [].
Proof.
  destruct sound as (_ & Hfun & _ & Hnull).
  destruct v as [[| b | d | s | items | ms]|]; cbn [callToString];
    try (intros [= <-]; apply Hnull);
    try apply ToString_throws.
  destruct (hasOwn (js "toString") ms); [|discriminate].
  intros [= <-]. apply Hfun.
Qed.

Lemma callTrim_throws (callee : jsstring) (v : option JSON) (e : JsError) :
  callTrim host callee v = Throw e -> message e <> [].
Proof.
  destruct sound as (_ & Hfun & _ & Hnull).
  destruct v as [[| b | d | s | items | ms]|]; cbn [callTrim];
    try discriminate; intros [= <-]; (apply Hnull || apply Hfun).
Qed.

(** Whatever [parseSuggestionResponse] throws carries a message. *)
Lemma parseSuggestion_throws (text : jsstring) (e : JsError) :
  parseSuggestionResponse host text = Throw e -> message e <> [].
Proof.
  unfold parseSuggestionResponse.
  destruct (JSON_parse (cleaned text)) as [s|].
  2:{ intros [= <-]. apply sound. }
  destruct (_ || _); [now intros [= <-]|].
  destruct (negb (isMovieOrSeries _)); [now intros [= <-]|].
  intros H.
  repeat match type of H with
         | bindC _ _ = Throw _ =>
             apply bindC_Throw in H as [H | [? [_ H]]];
             [first [now apply callTrim_throws in H
                    | now apply callToString_throws in H]|]
         end.
  discriminate.
Qed.

End Diagnostics.

(** The pure evaluations throw [Error] objects only. *)
Lemma bindC_throws_error {A B} (c : completion A) (k : A -> completion B)
      (t : thrown) :
  (forall u, c = Throw u -> exists e : JsError, u = e) ->
  (forall a u, k a = Throw u -> exists e : JsError, u = e) ->
  bindC c k = Throw t -> exists e : JsError, t = e.
Proof.
  intros Hc Hk. destruct c as [a|u]; cbn [bindC].
  - apply Hk.
  - intros [= <-]. now apply Hc.
Qed.

Lemma sequenceC_throws_error {A} (cs : list (completion A)) (t : thrown) :
  Forall (fun c => forall u, c = Throw u -> exists e : JsError, u = e) cs ->
  sequenceC cs = Throw t -> exists e : JsError, t = e.
Proof.
  intros H. revert t.
  induction H as [|c cs Hc _ IH]; intros t; cbn [sequenceC]; [discriminate|].
  apply bindC_throws_error; [exact Hc|].
  intros a u. apply bindC_throws_error; [exact IH|discriminate].
Qed.

Lemma ToString_throws_error (host : Host) (v : JSON) (t : thrown) :
  ToString host v = Throw t -> exists e : JsError, t = e.
Proof.
  revert t.
  induction v as [| b | d | s | items IH | ms] using JSON_elements_ind;
    intros t; cbn [ToString]; try discriminate.
  - apply bindC_throws_error; [|discriminate].
    intros u. apply sequenceC_throws_error.
    rewrite Forall_forall in *. intros c Hc.
    apply in_map_iff in Hc as (x & <- & Hx). intros u'.
    destruct x; try discriminate; now apply IH.
  - destruct (hasOwn (js "toString") ms); [|discriminate].
    intros [= <-]. eauto.
Qed.

Lemma callToString_throws_error (host : Host) (callee : jsstring)
      (v : option JSON) (t : thrown) :
  callToString host callee v = Throw t -> exists e : JsError, t = e.
Proof.
  destruct v as [[| b | d | s | items | ms]|]; cbn [callToString];
    try (intros [= <-]; eauto; fail);
    try apply ToString_throws_error.
  destruct (hasOwn (js "toString") ms); [|discriminate].
  intros [= <-]. eauto.
Qed.

Lemma callTrim_throws_error (host : Host) (callee : jsstring)
      (v : option JSON) (t : thrown) :
  callTrim host callee v = Throw t -> exists e : JsError, t = e.
Proof.
  destruct v as [[| b | d | s | items | ms]|]; cbn [callTrim];
    try discriminate; intros [= <-]; eauto.
Qed.

Lemma parseSuggestion_throws_error (host : Host) (text : jsstring)
      (t : thrown) :
  parseSuggestionResponse host text = Throw t -> exists e : JsError, t = e.
Proof.
  unfold parseSuggestionResponse.
  destruct (JSON_parse (cleaned text)) as [s|]; [|intros [= <-]; eauto].
  destruct (_ || _); [intros [= <-]; eauto|].
  destruct (negb (isMovieOrSeries _)); [intros [= <-]; eauto|].
  repeat (apply bindC_throws_error;
          [intros ?; first [apply callTrim_throws_error
                           |apply callToString_throws_error]
          |intros ? ?; cbv beta]).
  intros [=].
Qed.

Section Results.
Variable host : Host.
Variable endpoint : nat -> outcome.

Lemma retry_settled (contents : jsstring) (retries delayMs : Z) (w : world) :
  settledBy endpoint (fst (retry (generateContent endpoint contents) retries delayMs w)).
Proof.
  apply retry_completion. intros u. rewrite generateContent_run. cbn [fst].
  destruct (endpoint (countCalls u)) eqn:E; simpl; eauto.
Qed.


End Results.



(* ===================================================================== *)
(** * Further properties *)
(* ===================================================================== *)

(** ** The retry schedule *)

(** X1: [retry] around the model call follows a doubling schedule for any
    budget and any first delay.  When the first [k] calls reject, [k]
    being within the budget ([retries], or 0 when that is negative): if
    call [k] resolves, [retry] returns its reply, and if it rejects and
    [k] is the whole budget, [retry] throws that last error; either way
    the trace grows by exactly [k + 1] calls with a pause after each
    rejected one, of [delayMs], twice that, and so on, [delayMs * (2 ^ k -
    1)] in all. *)
Theorem retry_backoff (endpoint : nat -> outcome) (contents : jsstring)
        (retries delayMs : Z) (w : world) (k : nat) :
  k <= Z.to_nat retries ->
  (forall i, i < k -> exists e, endpoint (countCalls w + i) = Rejects e) ->
  (forall r,
      endpoint (countCalls w + k) = Resolves r ->
      retry (generateContent endpoint contents) retries delayMs w
      = (Normal r, w ++ attempts contents delayMs k))
  /\ (forall e,
         endpoint (countCalls w + k) = Rejects e -> k = Z.to_nat retries ->
         retry (generateContent endpoint contents) retries delayMs w
         = (Throw e, w ++ attempts contents delayMs k))
  /\ countCalls (w ++ attempts contents delayMs k) = countCalls w + k + 1
  /\ pauseTotal (w ++ attempts contents delayMs k)
     = (pauseTotal w + delayMs * (2 ^ Z.of_nat k - 1))%Z.
Proof.
  intros Hk Hrej. split; [|split; [|split]].
  - revert retries delayMs w Hk Hrej.
    induction k as [|k IH]; intros retries delayMs w Hk Hrej r Hr.
    + rewrite Nat.add_0_r in Hr.
      erewrite retry_returns; [reflexivity|].
      now rewrite generateContent_run, Hr.
    + destruct (Hrej 0 ltac:(lia)) as [e He]. rewrite Nat.add_0_r in He.
      erewrite retry_tries_again; [| |lia].
      2:{ now rewrite generateContent_run, He. }
      rewrite (IH (retries - 1)%Z (delayMs * 2)%Z _ ltac:(lia)) with (r := r).
      * cbn [attempts]. now rewrite <- !app_assoc.
      * intros i Hi. rewrite !countCalls_app. cbn.
        replace (countCalls w + 1 + 0 + i) with (countCalls w + S i) by lia.
        apply Hrej. lia.
      * rewrite !countCalls_app. cbn.
        now replace (countCalls w + 1 + 0 + k) with (countCalls w + S k) by lia.
  - revert retries delayMs w Hk Hrej.
    induction k as [|k IH]; intros retries delayMs w Hk Hrej e He Hlast.
    + rewrite Nat.add_0_r in He.
      erewrite retry_gives_up; [reflexivity| |lia].
      now rewrite generateContent_run, He.
    + destruct (Hrej 0 ltac:(lia)) as [e0 He0]. rewrite Nat.add_0_r in He0.
      erewrite retry_tries_again; [| |lia].
      2:{ now rewrite generateContent_run, He0. }
      rewrite (IH (retries - 1)%Z (delayMs * 2)%Z _ ltac:(lia)) with (e := e).
      * cbn [attempts]. now rewrite <- !app_assoc.
      * intros i Hi. rewrite !countCalls_app. cbn.
        replace (countCalls w + 1 + 0 + i) with (countCalls w + S i) by lia.
        apply Hrej. lia.
      * rewrite !countCalls_app. cbn.
        now replace (countCalls w + 1 + 0 + k) with (countCalls w + S k) by lia.
      * lia.
  - rewrite countCalls_app, countCalls_attempts. lia.
  - now rewrite pauseTotal_app, pauseTotal_attempts.
Qed.

Lemma retry_backoff_witness :
  retry (generateContent stubborn (js "prompt")) 5 100 []
  = (Normal (Response (Some twoFacts)),
     [Called MODEL_NAME (js "prompt"); Slept 100;
      Called MODEL_NAME (js "prompt"); Slept 200;
      Called MODEL_NAME (js "prompt"); Slept 400;
      Called MODEL_NAME (js "prompt"); Slept 800;
      Called MODEL_NAME (js "prompt")]).
Proof.
  refine (proj1 (@retry_backoff stubborn (js "prompt") 5 100 [] 4 _ _) _ _).
  - simpl. lia.
  - intros i Hi. exists unavailable.
    destruct i as [|[|[|[|i]]]]; try reflexivity. lia.
  - reflexivity.
Defined.

(** ** The traces of the operations *)

Ltac settle :=
  apply (f_equal2 pair);
  [reflexivity
  |cbn [Sugg.error Facts.error errorEntry]; rewrite <- ?app_assoc;
   rewrite ?app_nil_r; reflexivity].

Section OperationsShape.
Variable host : Host.
Variable endpoint : nat -> outcome.

(** X2: for a record with a title, [generateFacts] adds to the trace, in
    this order: the log entry with the title; [k + 1] calls of the model
    with the prompt of the record, [k] at most 2, with pauses of 900 and
    then 1800 ms between them; and, when it resolves, an error entry
    exactly when the result carries an error, with that very message.  The
    first [k] calls were rejected.  In a result [success] is true exactly
    when there is no error.  A rejection of the last call is the third
    one: if its value has a string message, the result is [{ facts: [],
    success: false, error }] with the normalised message; if it has none,
    [generateFacts] rejects with a [TypeError] and logs no error, and it
    rejects in no other case.  A non-empty reply text that yields facts
    makes the result those facts. *)
Theorem generateFacts_trace_shape (data : Movie.MovieData) (w : world) :
  truthyStr (titleOf data) = true ->
  exists c k,
    k <= 2
    /\ generateFacts host endpoint data w
       = (c,
          w ++ LogInfo (js "Generating AI facts") (titleOf data)
            :: attempts (createMoviePrompt host data) 900 k
            ++ match c with
               | Normal r =>
                   errorEntry (js "Error generating AI facts") (Facts.error r)
               | Throw _ => []
               end)
    /\ (forall i, i < k -> exists e, endpoint (countCalls w + i) = Rejects e)
    /\ (forall r, c = Normal r ->
          (Facts.success r = true <-> Facts.error r = None))
    /\ (forall t, endpoint (countCalls w + k) = Rejects t ->
          k = 2
          /\ (forall m,
                 stringMessage t = Some m ->
                 c = Normal {| Facts.facts := []; Facts.success := false;
                               Facts.error :=
                                 Some (handleError host (mkError m)) |})
          /\ (stringMessage t = None ->
              exists e : JsError, kind e = TypeError /\ c = Throw e))
    /\ (forall text,
           endpoint (countCalls w + k) = Resolves (Response (Some text)) ->
           text <> [] -> parseFactsResponse text <> [] ->
           c = Normal {| Facts.facts := parseFactsResponse text;
                         Facts.success := true; Facts.error := None |})
    /\ (forall u,
           c = Throw u ->
           exists t,
             endpoint (countCalls w + k) = Rejects t
             /\ stringMessage t = None).
Proof.
  intros Ht. rewrite generateFacts_run by exact Ht.
  destruct (retry_attempts endpoint (createMoviePrompt host data) 2 900
              (w ++ [LogInfo (js "Generating AI facts") (titleOf data)]))
    as (k & Hk & Hrej & Hrun & Hlast).
  assert (C : forall i,
             countCalls (w ++ [LogInfo (js "Generating AI facts") (titleOf data)]) + i
             = countCalls w + i).
  { intros i. rewrite countCalls_app. cbn. lia. }
  rewrite Hrun, C. rewrite C in Hlast. clear Hrun.
  assert (K : k <= 2) by (simpl in Hk; lia).
  set (u := (w ++ [LogInfo (js "Generating AI facts") (titleOf data)])
              ++ attempts (createMoviePrompt host data) 900 k).
  assert (F : forall m,
             (Normal (failure m),
              u ++ [LogError (js "Error generating AI facts") m])
             = (Normal (failure m),
                w ++ LogInfo (js "Generating AI facts") (titleOf data)
                  :: attempts (createMoviePrompt host data) 900 k
                  ++ errorEntry (js "Error generating AI facts")
                       (Facts.error (failure m)))).
  { intros m. unfold u. cbn [failure Facts.error errorEntry].
    now rewrite <- !app_assoc. }
  assert (G : u = w ++ LogInfo (js "Generating AI facts") (titleOf data)
                    :: attempts (createMoviePrompt host data) 900 k ++ []).
  { unfold u. rewrite app_nil_r. now rewrite <- !app_assoc. }
  assert (Rej : forall i, i < k ->
                  exists e, endpoint (countCalls w + i) = Rejects e).
  { intros i Hi. rewrite <- C. now apply Hrej. }
  destruct (endpoint (countCalls w + k)) as [resp|t] eqn:E.
  - destruct (truthyStr (textOf resp)) eqn:Tx.
    + cbv zeta. destruct (Nat.eqb _ 0) eqn:Z.
      * unfold factsFailed. cbn [handleCaught].
        eexists (Normal _), k. rewrite E. split; [exact K|]. split; [apply F|].
        split; [exact Rej|]. split.
        { intros r [= <-]. cbn. split; intros [=]. }
        split; [intros ? [=]|]. split; [|intros ? [=]].
        intros text [= ->] _ Hn.
        cbn [textOf showOptStr] in Z. apply Nat.eqb_eq in Z.
        destruct (parseFactsResponse text); [congruence|discriminate Z].
      * exists (Normal {| Facts.facts :=
                            parseFactsResponse (showOptStr (textOf resp));
                          Facts.success := true; Facts.error := None |}), k.
        rewrite E. split; [exact K|]. split.
        { cbn [Facts.error errorEntry]. now rewrite <- G. }
        split; [exact Rej|]. split.
        { intros r [= <-]. cbn. tauto. }
        split; [intros ? [=]|]. split; [|intros ? [=]].
        now intros text [= ->] _ _.
    + unfold factsFailed. cbn [handleCaught].
      eexists (Normal _), k. rewrite E. split; [exact K|]. split; [apply F|].
      split; [exact Rej|]. split.
      { intros r [= <-]. cbn. split; intros [=]. }
      split; [intros ? [=]|]. split; [|intros ? [=]].
      intros text [= ->] Hne _.
      cbn [textOf truthyStr] in Tx. destruct text; [congruence|discriminate Tx].
  - assert (K2 : k = 2) by (specialize (Hlast t eq_refl); simpl in Hlast; lia).
    unfold factsFailed. destruct (stringMessage t) as [m|] eqn:Hm.
    + rewrite (handleCaught_string host t Hm).
      eexists (Normal _), k. rewrite E. split; [exact K|]. split; [apply F|].
      split; [exact Rej|]. split.
      { intros r [= <-]. cbn. split; intros [=]. }
      split; [|split; [intros ? [=]|intros ? [=]]].
      intros t' [= <-]. split; [exact K2|]. split.
      * intros m' Hm'. rewrite Hm in Hm'. now injection Hm' as <-.
      * intros Hn. rewrite Hm in Hn. discriminate Hn.
    + destruct (handleCaught_no_string host t Hm) as (e & He & Hkind & _).
      rewrite He.
      exists (Throw e), k. rewrite E. split; [exact K|]. split; [now rewrite <- G|].
      split; [exact Rej|]. split; [intros ? [=]|].
      split; [|split; [intros ? [=]|]].
      * intros t' [= <-]. split; [exact K2|]. split.
        -- intros m' Hm'. rewrite Hm in Hm'. discriminate Hm'.
        -- intros _. now exists e.
      * intros u' _. now exists t.
Qed.

(** X3: whatever the endpoint does, [generateFacts] calls the model at
    most three times and pauses for 0, 900 or 2700 ms in all; it makes no
    call at all exactly when the record has no title. *)
Theorem generateFacts_bounded_effort (data : Movie.MovieData) (w : world) :
  let w' := snd (generateFacts host endpoint data w) in
  countCalls w' <= countCalls w + 3
  /\ (pauseTotal w' = pauseTotal w
      \/ pauseTotal w' = (pauseTotal w + 900)%Z
      \/ pauseTotal w' = (pauseTotal w + 2700)%Z)
  /\ (countCalls w' = countCalls w <-> truthyStr (titleOf data) = false).
Proof.
  cbv zeta. destruct (truthyStr (titleOf data)) eqn:Ht.
  - rewrite generateFacts_run by exact Ht.
    destruct (retry_attempts endpoint (createMoviePrompt host data) 2 900
                (w ++ [LogInfo (js "Generating AI facts") (titleOf data)]))
      as (k & Hk & _ & Hrun & _).
    rewrite Hrun. clear Hrun.
    set (w1 := (w ++ [LogInfo _ _]) ++ attempts _ 900 k).
    assert (C1 : countCalls w1 = countCalls w + S k).
    { unfold w1. rewrite !countCalls_app, countCalls_attempts. cbn. lia. }
    assert (P1 : pauseTotal w1 = (pauseTotal w + 900 * (2 ^ Z.of_nat k - 1))%Z).
    { unfold w1. rewrite !pauseTotal_app, pauseTotal_attempts. cbn. lia. }
    assert (G : forall u : completion Facts.AIFactsResponse * world,
               (snd u = w1 \/ exists e, u = factsFailed host e w1) ->
               countCalls (snd u) <= countCalls w + 3
               /\ (pauseTotal (snd u) = pauseTotal w
                   \/ pauseTotal (snd u) = (pauseTotal w + 900)%Z
                   \/ pauseTotal (snd u) = (pauseTotal w + 2700)%Z)
               /\ (countCalls (snd u) = countCalls w <-> true = false)).
    { intros u Hu.
      assert (Hc : countCalls (snd u) = countCalls w1
                   /\ pauseTotal (snd u) = pauseTotal w1).
      { destruct Hu as [->|[e ->]]; [tauto|].
        unfold factsFailed.
        destruct (handleCaught host e) as [msg|e']; cbn [snd]; [|tauto].
        rewrite countCalls_app, pauseTotal_app. cbn. lia. }
      destruct Hc as [-> ->]. rewrite C1, P1. simpl in Hk.
      split; [lia|]. split; [|split; [lia|discriminate]].
      destruct k as [|[|[|k]]]; cbn; lia. }
    destruct (endpoint _) as [resp|e]; apply G.
    + destruct (truthyStr (textOf resp)); [|right; eauto].
      cbv zeta. destruct (Nat.eqb _ 0); [right; eauto|left; reflexivity].
    + right; eauto.
  - unfold generateFacts, tryCatch. rewrite Ht. cbn [negb].
    unfold throw, bind, emit, ret, eval. cbn [handleCaught snd].
    rewrite countCalls_app, pauseTotal_app. cbn.
    split; [lia|]. split; [left; lia|]. split; [reflexivity|lia].
Qed.

(** X4: [generateSuggestion] is not retried.  It adds to the trace its log
    entry, exactly one call of the model with the suggestion prompt, and,
    when it resolves, an error entry exactly when the result carries an
    error, with that very message; it never pauses.  In a result
    [success] is true exactly when there is no error.  A rejection is
    settled at once: if its value has a string message, the result is the
    placeholder suggestion with the normalised message as error; if it
    has none, [generateSuggestion] rejects with a [TypeError] and logs no
    error, and it rejects in no other case.  A non-empty reply text
    decides the result through [parseSuggestionResponse]. *)
Theorem generateSuggestion_single_call (w : world) :
  exists c,
    generateSuggestion host endpoint w
    = (c,
       w ++ [LogInfo (js "Generating AI suggestion") None;
             Called MODEL_NAME createSuggestionPrompt]
         ++ match c with
            | Normal r =>
                errorEntry (js "Error generating AI suggestion") (Sugg.error r)
            | Throw _ => []
            end)
    /\ (forall r, c = Normal r ->
          (Sugg.success r = true <-> Sugg.error r = None))
    /\ (forall t,
           endpoint (countCalls w) = Rejects t ->
           (forall m,
               stringMessage t = Some m ->
               c = Normal {| Sugg.suggestion :=
                               {| Sugg.title := []; Sugg.year := [];
                                  Sugg.type := js "movie"; Sugg.overview := [];
                                  Sugg.reason := []; Sugg.searchKeyword := [] |};
                             Sugg.success := false;
                             Sugg.error :=
                               Some (handleError host (mkError m)) |})
           /\ (stringMessage t = None ->
               exists e : JsError, kind e = TypeError /\ c = Throw e))
    /\ (forall text,
           endpoint (countCalls w) = Resolves (Response (Some text)) ->
           text <> [] ->
           (forall suggestion,
               parseSuggestionResponse host text = Normal suggestion ->
               c = Normal {| Sugg.suggestion := suggestion;
                             Sugg.success := true; Sugg.error := None |})
           /\ (forall e : JsError,
                  parseSuggestionResponse host text = Throw e ->
                  c = Normal {| Sugg.suggestion :=
                                  {| Sugg.title := []; Sugg.year := [];
                                     Sugg.type := js "movie"; Sugg.overview := [];
                                     Sugg.reason := []; Sugg.searchKeyword := [] |};
                                Sugg.success := false;
                                Sugg.error := Some (handleError host e) |})
           /\ (forall u,
                  parseSuggestionResponse host text = Throw u ->
                  exists e : JsError, u = e))
    /\ (forall u,
           c = Throw u ->
           exists t,
             endpoint (countCalls w) = Rejects t /\ stringMessage t = None).
Proof.
  unfold generateSuggestion, tryCatch, bind, emit, eval.
  rewrite generateContent_run.
  assert (C : countCalls (w ++ [LogInfo (js "Generating AI suggestion") None])
              = countCalls w).
  { rewrite countCalls_app. cbn. lia. }
  rewrite C.
  destruct (endpoint (countCalls w)) as [resp|t] eqn:E.
  - destruct (truthyStr (textOf resp)) eqn:Tx; cbn [negb].
    + destruct (parseSuggestionResponse host _) as [sug|t] eqn:P;
        unfold throw, ret.
      * exists (Normal {| Sugg.suggestion := sug; Sugg.success := true;
                          Sugg.error := None |}).
        split; [settle|]. split; [intros r [= <-]; cbn; tauto|].
        split; [intros ? [=]|]. split; [|intros ? [=]].
        intros text [= ->] _.
        cbn [textOf showOptStr] in P. rewrite P.
        split; [now intros ? [= <-]|]. split; [intros ? [=]|intros ? [=]].
      * destruct (parseSuggestion_throws_error host _ P) as [e ->].
        cbn [handleCaught].
        eexists (Normal _). split; [settle|].
        split; [intros r [= <-]; cbn; split; intros [=]|].
        split; [intros ? [=]|]. split; [|intros ? [=]].
        intros text [= ->] _.
        cbn [textOf showOptStr] in P. rewrite P.
        split; [intros ? [=]|]. split; [now intros ? [= <-]|].
        intros ? [= <-]. now exists e.
    + unfold throw, ret. cbn [handleCaught].
      eexists (Normal _). split; [settle|].
      split; [intros r [= <-]; cbn; split; intros [=]|].
      split; [intros ? [=]|]. split; [|intros ? [=]].
      intros text [= ->] Hne.
      cbn [textOf truthyStr] in Tx. destruct text; [congruence|discriminate Tx].
  - unfold ret. destruct (stringMessage t) as [m|] eqn:Hm.
    + rewrite (handleCaught_string host t Hm).
      eexists (Normal _). split; [settle|].
      split; [intros r [= <-]; cbn; split; intros [=]|].
      split; [|split; [intros ? [=]|intros ? [=]]].
      intros t' [= <-]. split.
      * intros m' Hm'. rewrite Hm in Hm'. now injection Hm' as <-.
      * intros Hn. rewrite Hm in Hn. discriminate Hn.
    + destruct (handleCaught_no_string host t Hm) as (e & He & Hkind & _).
      rewrite He.
      exists (Throw e). split; [settle|]. split; [intros ? [=]|].
      split; [|split; [intros ? [=]|]].
      * intros t' [= <-]. split.
        -- intros m' Hm'. rewrite Hm in Hm'. discriminate Hm'.
        -- intros _. now exists e.
      * intros u' _. now exists t.
Qed.

(** X5: a reply without text (no response object, no [text], or the empty
    string) is not retried: after that one call both operations report
    "Empty response from Gemini API". *)
Theorem empty_reply_not_retried (data : Movie.MovieData) (w : world)
        (r : response) :
  endpoint (countCalls w) = Resolves r ->
  truthyStr (textOf r) = false ->
  (truthyStr (titleOf data) = true ->
   generateFacts host endpoint data w
   = (Normal {| Facts.facts := []; Facts.success := false;
                Facts.error := Some (js "Empty response from Gemini API") |},
      w ++ [LogInfo (js "Generating AI facts") (titleOf data);
            Called MODEL_NAME (createMoviePrompt host data);
            LogError (js "Error generating AI facts")
                     (js "Empty response from Gemini API")]))
  /\ generateSuggestion host endpoint w
     = (Normal {| Sugg.suggestion :=
                    {| Sugg.title := []; Sugg.year := [];
                       Sugg.type := js "movie"; Sugg.overview := [];
                       Sugg.reason := []; Sugg.searchKeyword := [] |};
                  Sugg.success := false;
                  Sugg.error := Some (js "Empty response from Gemini API") |},
        w ++ [LogInfo (js "Generating AI suggestion") None;
              Called MODEL_NAME createSuggestionPrompt;
              LogError (js "Error generating AI suggestion")
                       (js "Empty response from Gemini API")]).
Proof.
  intros E Hr.
  assert (C : forall msg title,
             countCalls (w ++ [LogInfo msg title]) = countCalls w).
  { intros msg title. rewrite countCalls_app. cbn. lia. }
  split.
  - intros Ht. rewrite generateFacts_run by exact Ht.
    erewrite retry_returns.
    2:{ rewrite generateContent_run, C, E. reflexivity. }
    rewrite Hr. unfold factsFailed. cbn [handleCaught].
    rewrite handleError_empty_response. now rewrite <- !app_assoc.
  - unfold generateSuggestion, tryCatch, bind, emit, eval.
    rewrite generateContent_run, C, E, Hr. cbn [negb]. unfold throw, ret.
    cbn [handleCaught].
    rewrite handleError_empty_response. now rewrite <- !app_assoc.
Qed.

End OperationsShape.

Lemma generateFacts_trace_shape_witness :
  exists c k,
    k <= 2
    /\ generateFacts plainHost flaky sampleMovie []
       = (c,
          [] ++ LogInfo (js "Generating AI facts") (titleOf sampleMovie)
             :: attempts (createMoviePrompt plainHost sampleMovie) 900 k
             ++ match c with
                | Normal r =>
                    errorEntry (js "Error generating AI facts") (Facts.error r)
                | Throw _ => []
                end)
    /\ (forall i, i < k -> exists e, flaky (countCalls [] + i) = Rejects e)
    /\ (forall r, c = Normal r ->
          (Facts.success r = true <-> Facts.error r = None))
    /\ (forall t, flaky (countCalls [] + k) = Rejects t ->
          k = 2
          /\ (forall m,
                 stringMessage t = Some m ->
                 c = Normal {| Facts.facts := []; Facts.success := false;
                               Facts.error :=
                                 Some (handleError plainHost (mkError m)) |})
          /\ (stringMessage t = None ->
              exists e : JsError, kind e = TypeError /\ c = Throw e))
    /\ (forall text,
           flaky (countCalls [] + k) = Resolves (Response (Some text)) ->
           text <> [] -> parseFactsResponse text <> [] ->
           c = Normal {| Facts.facts := parseFactsResponse text;
                         Facts.success := true; Facts.error := None |})
    /\ (forall u,
           c = Throw u ->
           exists t,
             flaky (countCalls [] + k) = Rejects t
             /\ stringMessage t = None).
Proof.
  exact (@generateFacts_trace_shape plainHost flaky sampleMovie [] eq_refl).
Defined.

Lemma empty_reply_not_retried_witness :
  generateFacts plainHost mute sampleMovie []
  = (Normal {| Facts.facts := []; Facts.success := false;
               Facts.error := Some (js "Empty response from Gemini API") |},
     [LogInfo (js "Generating AI facts") (Some (js "Heat"));
      Called MODEL_NAME (createMoviePrompt plainHost sampleMovie);
      LogError (js "Error generating AI facts")
               (js "Empty response from Gemini API")]).
Proof.
  exact (proj1 (@empty_reply_not_retried plainHost mute sampleMovie []
                  (Response None) eq_refl eq_refl) eq_refl).
Defined.

(** ** Error normalisation composes *)

Section Normalised.
Variable host : Host.

Lemma handleError_cases (error : JsError) :
  handleError host error = authMessage
  \/ handleError host error = rateLimitMessage
  \/ handleError host error = overloadMessage
  \/ handleError host error = safetyMessage
  \/ (handleError host error = message error
      /\ forall e', message e' = message error ->
                    handleError host e' = message error).
Proof.
  unfold handleError.
  cbv zeta. set (m := toLowerCase host (message error)).
  destruct (includes m (js "api key") || includes m (js "authentication"))
    eqn:A; [now left|].
  destruct (includes m (js "quota") || includes m (js "rate limit"))
    eqn:R; [now right; left|].
  destruct (includes m (js "overloaded") || includes m (js "unavailable"))
    eqn:O; [now right; right; left|].
  destruct (includes m (js "blocked") || includes m (js "safety"))
    eqn:S; [now right; right; right; left|].
  do 4 right. split; [reflexivity|].
  intros e' ->. fold m. now rewrite A, R, O, S.
Qed.

(** X6: [handleError] is idempotent: the message it returns, taken as the
    message of an error, is returned unchanged.  The four fixed messages
    classify as themselves, on every engine. *)
Theorem handleError_idempotent (error : JsError) :
  handleError host (mkError (handleError host error))
  = handleError host error.
Proof.
  assert (F : forall m,
             In m [authMessage; rateLimitMessage; overloadMessage; safetyMessage] ->
             handleError host (mkError m) = m).
  { intros m Hm. rewrite handleError_ascii.
    - cbn [In] in Hm.
      destruct Hm as [<-|[<-|[<-|[<-|[]]]]]; vm_compute; reflexivity.
    - cbn [In] in Hm.
      destruct Hm as [<-|[<-|[<-|[<-|[]]]]]; vm_compute; reflexivity. }
  destruct (handleError_cases error) as [E|[E|[E|[E|[E P]]]]]; rewrite E.
  - apply F. cbn; tauto.
  - apply F. cbn; tauto.
  - apply F. cbn; tauto.
  - apply F. cbn; tauto.
  - now apply P.
Qed.

End Normalised.

(** ** Fences *)

Lemma stripFenceOpen_noFence (s : jsstring) :
  noFence s = true -> stripFenceOpen s = s.
Proof.
  intros H. unfold stripFenceOpen.
  destruct s as [|c s]; [reflexivity|].
  simpl in H. apply andb_true_iff in H as [Hc _]. apply negb_true_iff in Hc.
  change (js "```") with [96%N; 96%N; 96%N]. cbn [startsWith].
  now rewrite N.eqb_sym, Hc.
Qed.

Lemma stripFenceClose_noFence (s : jsstring) :
  noFence s = true -> stripFenceClose s = s.
Proof.
  induction s as [|c s IH]; [reflexivity|]. intros H.
  simpl in H. apply andb_true_iff in H as [Hc H]. apply negb_true_iff in Hc.
  cbn [stripFenceClose].
  change (js "```") with [96%N; 96%N; 96%N]. cbn [startsWith].
  rewrite N.eqb_sym, Hc. cbn [andb]. now rewrite IH.
Qed.

Lemma cleaned_plain (body : jsstring) :
  noFence body = true ->
  noLeadingSpace body = true -> noLeadingSpace (rev body) = true ->
  cleaned body = body.
Proof.
  intros Hf Hs Hr. unfold cleaned.
  rewrite stripFenceOpen_noFence, stripFenceClose_noFence by assumption.
  rewrite <- (app_nil_r body) at 1. rewrite <- (app_nil_l (body ++ [])).
  now apply trim_padded.
Qed.

Lemma splitLines_app (a b : jsstring) :
  splitLines (a ++ newline ++ b) = splitLines a ++ splitLines b.
Proof.
  induction a as [|c a IH]; [reflexivity|].
  cbn [app splitLines]. destruct (N.eqb c 10).
  - now rewrite IH.
  - rewrite IH. pose proof (splitLines_nonempty a).
    destruct (splitLines a); [contradiction|reflexivity].
Qed.

Lemma factLines_fenced (body : jsstring) :
  factLines (js "```json" ++ newline ++ body ++ newline ++ js "```")
  = factLines body.
Proof.
  unfold factLines. rewrite splitLines_app, splitLines_app.
  rewrite !map_app, !filter_app.
  change (filter isFactLine (map trim (splitLines (js "```json")))) with (@nil jsstring).
  change (filter isFactLine (map trim (splitLines (js "```")))) with (@nil jsstring).
  now rewrite app_nil_l, app_nil_r.
Qed.

(** X7: a [```json] fence around a reply is transparent to both parsers.
    For a body without backquotes that neither begins nor ends with white
    space, the fenced text gives what the body alone gives: the same
    facts, on the JSON path and on the line path, and the same suggestion or
    the same error. *)
Theorem fence_transparent (host : Host) (body : jsstring) :
  noFence body = true ->
  noLeadingSpace body = true -> noLeadingSpace (rev body) = true ->
  parseFactsResponse (js "```json" ++ newline ++ body ++ newline ++ js "```")
  = parseFactsResponse body
  /\ parseSuggestionResponse host
       (js "```json" ++ newline ++ body ++ newline ++ js "```")
     = parseSuggestionResponse host body.
Proof.
  intros Hf Hs Hr. unfold parseFactsResponse, parseSuggestionResponse.
  rewrite cleaned_fenced, cleaned_plain by assumption.
  rewrite factLines_fenced. split; reflexivity.
Qed.

Lemma fence_transparent_witness :
  parseFactsResponse
    (js "```json" ++ newline ++ js "1. Heat was shot in 107 days"
        ++ newline ++ js "```")
  = parseFactsResponse (js "1. Heat was shot in 107 days")
  /\ parseSuggestionResponse plainHost
       (js "```json" ++ newline ++ js "1. Heat was shot in 107 days"
           ++ newline ++ js "```")
     = parseSuggestionResponse plainHost (js "1. Heat was shot in 107 days").
Proof.
  apply (@fence_transparent plainHost (js "1. Heat was shot in 107 days"));
    reflexivity.
Defined.

Lemma stripFenceClose_space (lead rest : jsstring) :
  forallb isWhiteSpace lead = true ->
  stripFenceClose (lead ++ rest) = lead ++ stripFenceClose rest.
Proof.
  intros H. induction lead as [|c lead IH]; [reflexivity|].
  cbn [forallb] in H. apply andb_true_iff in H as [Hc H].
  cbn [app stripFenceClose].
  assert (E : startsWith (js "```") (c :: lead ++ rest) = false).
  { change (js "```") with [96%N; 96%N; 96%N]. cbn [startsWith].
    destruct (N.eqb 96 c) eqn:E; [|reflexivity].
    apply N.eqb_eq in E. subst c. discriminate Hc. }
  rewrite E. cbn [andb]. now rewrite IH.
Qed.

Lemma stripFenceClose_open (r : jsstring) :
  stripFenceClose (js "```json" ++ r) = js "```json" ++ stripFenceClose r.
Proof. reflexivity. Qed.

Lemma noLeadingSpace_rev_app (p s : jsstring) :
  s <> [] -> noLeadingSpace (rev (p ++ s)) = noLeadingSpace (rev s).
Proof.
  intros H. rewrite rev_app_distr. destruct (rev s) as [|c r] eqn:R.
  - apply (f_equal (@length _)) in R. rewrite length_rev in R.
    destruct s; [congruence|discriminate R].
  - reflexivity.
Qed.

Lemma JSON_parse_backquote (r : jsstring) : JSON_parse (96%N :: r) = None.
Proof.
  unfold JSON_parse.
  replace (2 * length (96%N :: r) + 2) with (S (2 * length (96%N :: r) + 1))
    by lia.
  reflexivity.
Qed.

Lemma trim_space_cons (c : char16) (l : jsstring) :
  isWhiteSpace c = true -> trim (c :: l) = trim l.
Proof. intros H. unfold trim, trimStart. cbn [dropWhile]. now rewrite H. Qed.

Lemma lines_before_fence (lead : jsstring) :
  forallb isWhiteSpace lead = true ->
  filter isFactLine (map trim (splitLines (lead ++ js "```json"))) = [].
Proof.
  intros H.
  assert (G : exists l ls,
             splitLines (lead ++ js "```json") = l :: ls
             /\ length (trim l) <= 7
             /\ filter isFactLine (map trim ls) = []).
  { induction lead as [|c lead IH].
    - exists (js "```json"), []. repeat split. cbn. lia.
    - cbn [forallb] in H. apply andb_true_iff in H as [Hc H].
      destruct (IH H) as (l & ls & E & L & F).
      cbn [app splitLines]. rewrite E. destruct (N.eqb c 10).
      + exists [], (l :: ls). split; [reflexivity|]. split; [cbn; lia|].
        cbn [map filter]. rewrite F.
        unfold isFactLine.
        destruct (Nat.ltb 20 (length (trim l))) eqn:N; [|reflexivity].
        apply Nat.ltb_lt in N. lia.
      + exists (c :: l), ls. split; [reflexivity|].
        split; [now rewrite trim_space_cons|exact F]. }
  destruct G as (l & ls & E & L & F). rewrite E. cbn [map filter].
  rewrite F. unfold isFactLine.
  destruct (Nat.ltb 20 (length (trim l))) eqn:N; [|reflexivity].
  apply Nat.ltb_lt in N. lia.
Qed.

Lemma splitLines_one_line (s : jsstring) :
  ~ In 10%N s -> splitLines s = [s].
Proof.
  induction s as [|c s IH]; [reflexivity|]. intros H.
  cbn [splitLines]. destruct (N.eqb c 10) eqn:E.
  - apply N.eqb_eq in E. subst c. elim H. now left.
  - rewrite IH; [reflexivity|]. intros Hs. apply H. now right.
Qed.

Section BeforeFence.
Variable host : Host.
Variable endpoint : nat -> outcome.

(** X12: the opening fence is only recognised at the very start of the
    reply.  When white space (a blank line, say) precedes a fenced one-line
    array, the cleaned text still begins with the fence, [JSON.parse]
    rejects it, the line path drops the array line because it begins with
    a bracket, and no fact is returned: [generateFacts] reports "No valid
    facts extracted" although the array may hold valid facts. *)
Theorem space_before_fence_loses_array (lead body : jsstring) :
  lead <> [] -> forallb isWhiteSpace lead = true ->
  noFence body = true -> ~ In 10%N body ->
  startsWith (js "[") body = true -> noLeadingSpace (rev body) = true ->
  let reply := lead ++ js "```json" ++ newline ++ body ++ newline ++ js "```" in
  cleaned reply = js "```json" ++ newline ++ body
  /\ parseFactsResponse reply = []
  /\ forall data w,
      truthyStr (titleOf data) = true ->
      endpoint (countCalls w) = Resolves (Response (Some reply)) ->
      fst (generateFacts host endpoint data w)
      = Normal {| Facts.facts := []; Facts.success := false;
                  Facts.error := Some (js "No valid facts extracted") |}.
Proof.
  intros Hne Hlead Hf Hnl Hb Hr reply.
  assert (Hbody : exists b : jsstring, body = 91%N :: b).
  { destruct body as [|c b]; [discriminate|].
    change (js "[") with [91%N] in Hb. cbn [startsWith] in Hb.
    apply andb_true_iff in Hb as [Hb _]. apply N.eqb_eq in Hb. subst c. eauto. }
  assert (C : cleaned reply = js "```json" ++ newline ++ body).
  { unfold cleaned.
    assert (O : stripFenceOpen reply = reply).
    { unfold stripFenceOpen, reply. destruct lead as [|c lead']; [congruence|].
      cbn [forallb] in Hlead. apply andb_true_iff in Hlead as [Hc _].
      change (js "```") with [96%N; 96%N; 96%N]. cbn [app startsWith].
      destruct (N.eqb 96 c) eqn:E; [|reflexivity].
      apply N.eqb_eq in E. subst c. discriminate Hc. }
    rewrite O. unfold reply. rewrite stripFenceClose_space by assumption.
    rewrite stripFenceClose_open, (app_assoc newline).
    rewrite stripFenceClose_fenced by exact Hf.
    rewrite <- (app_assoc newline), (app_assoc (js "```json")), (app_assoc _ body).
    apply trim_padded; try assumption; try reflexivity.
    rewrite noLeadingSpace_rev_app by discriminate.
    rewrite noLeadingSpace_rev_app; [exact Hr|].
    destruct Hbody as [b ->]. discriminate. }
  assert (P : parseFactsResponse reply = []).
  { unfold parseFactsResponse. rewrite C.
    change (js "```json" ++ newline ++ body)
      with (96%N :: js "``json" ++ newline ++ body).
    rewrite JSON_parse_backquote. unfold factLines, reply.
    rewrite app_assoc, splitLines_app, splitLines_app.
    rewrite (@splitLines_one_line body) by exact Hnl.
    rewrite !map_app, !filter_app, lines_before_fence by assumption.
    cbn [app map filter].
    assert (Tb : isFactLine (trim body) = false).
    { unfold isFactLine.
      destruct (startsWith (js "[") (trim body)) eqn:E;
        [now rewrite andb_false_r|].
      destruct Hbody as [b ->].
      assert (T : trim ([] ++ (91%N :: b) ++ []) = 91%N :: b)
        by (apply trim_padded; try reflexivity; assumption).
      rewrite app_nil_r in T. cbn [app] in T. rewrite T in E. discriminate E. }
    rewrite Tb. reflexivity. }
  split; [exact C|]. split; [exact P|].
  intros data w Ht E.
  rewrite generateFacts_run by exact Ht.
  erewrite retry_returns.
  2:{ rewrite generateContent_run, countCalls_app.
      cbn [countCalls filter length]. rewrite Nat.add_0_r, E. reflexivity. }
  cbn [textOf].
  assert (Tr : truthyStr (Some reply) = true).
  { unfold reply. destruct lead; [congruence|reflexivity]. }
  rewrite Tr. cbv zeta. cbn [showOptStr]. rewrite P. cbn [length Nat.eqb].
  unfold factsFailed. cbn [handleCaught fst].
  now rewrite handleError_no_facts.
Qed.

End BeforeFence.

Lemma space_before_fence_loses_array_witness :
  parseFactsResponse
    (newline ++ js "```json" ++ newline
       ++ jq "['a valid fact here','another one too']" ++ newline ++ js "```")
  = []
  /\ parseFactsResponse twoFacts
     = [js "a valid fact here"; js "another one too"].
Proof.
  split.
  - refine (proj1 (proj2 (@space_before_fence_loses_array plainHost
                            (fun _ => Resolves NoResponse) newline
                            (jq "['a valid fact here','another one too']")
                            _ _ _ _ _ _))).
    + discriminate.
    + reflexivity.
    + reflexivity.
    + vm_compute. intuition discriminate.
    + reflexivity.
    + reflexivity.
  - reflexivity.
Defined.

(** ** Replies that are JSON but not an object *)

Section NonObject.
Variable host : Host.
Variable endpoint : nat -> outcome.

(** X8: a reply that is JSON but not an object ([null], a number, a
    string, a boolean, an array) is rejected by [parseSuggestionResponse]
    with "Invalid suggestion format", not with a [TypeError], and
    [generateSuggestion] reports that message with the placeholder. *)
Theorem parseSuggestion_non_object (text : jsstring) (v : JSON) :
  JSON_parse (cleaned text) = Some v ->
  (forall ms, v <> JObj ms) ->
  parseSuggestionResponse host text
  = Throw (mkError (js "Invalid suggestion format"))
  /\ forall w,
      endpoint (countCalls w) = Resolves (Response (Some text)) ->
      generateSuggestion host endpoint w
      = (Normal {| Sugg.suggestion :=
                     {| Sugg.title := []; Sugg.year := [];
                        Sugg.type := js "movie"; Sugg.overview := [];
                        Sugg.reason := []; Sugg.searchKeyword := [] |};
                   Sugg.success := false;
                   Sugg.error := Some (js "Invalid suggestion format") |},
         w ++ [LogInfo (js "Generating AI suggestion") None;
               Called MODEL_NAME createSuggestionPrompt;
               LogError (js "Error generating AI suggestion")
                        (js "Invalid suggestion format")]).
Proof.
  intros Hp Hv.
  assert (P : parseSuggestionResponse host text
              = Throw (mkError (js "Invalid suggestion format"))).
  { unfold parseSuggestionResponse. rewrite Hp.
    destruct v; try reflexivity. now elim (Hv members). }
  split; [exact P|]. intros w E.
  assert (Ht : truthyStr (Some text) = true).
  { destruct text; [|reflexivity]. discriminate Hp. }
  unfold generateSuggestion, tryCatch, bind, emit.
  rewrite generateContent_run, countCalls_app.
  cbn [countCalls filter length]. rewrite Nat.add_0_r, E.
  cbn [textOf]. rewrite Ht. cbn [negb showOptStr]. rewrite P.
  unfold throw, ret, eval. cbn [handleCaught].
  rewrite handleError_invalid_format.
  now rewrite <- !app_assoc.
Qed.

End NonObject.

Lemma parseSuggestion_non_object_witness :
  parseSuggestionResponse plainHost (js "null")
  = Throw (mkError (js "Invalid suggestion format")).
Proof.
  refine (proj1 (@parseSuggestion_non_object plainHost (fun _ => Resolves NoResponse)
                   (js "null") JNull _ _)).
  - reflexivity.
  - discriminate.
Defined.

(** ** The line path quotes the reply *)

Lemma suffix_refl (s : jsstring) : suffix s s.
Proof. now exists []. Qed.

Lemma suffix_trans (a b c : jsstring) : suffix a b -> suffix b c -> suffix a c.
Proof. intros [p ->] [q ->]. exists (q ++ p). now rewrite app_assoc. Qed.

Lemma suffix_infix (a b c : jsstring) : suffix a b -> infix b c -> infix a c.
Proof.
  intros [p ->] [pre [post ->]]. exists (pre ++ p), post.
  now rewrite <- !app_assoc.
Qed.

Lemma infix_trans (a b c : jsstring) : infix a b -> infix b c -> infix a c.
Proof.
  intros [p [q ->]] [pre [post ->]]. exists (pre ++ p), (q ++ post).
  now rewrite <- !app_assoc.
Qed.

Lemma dropWhile_suffix (p : char16 -> bool) (s : jsstring) :
  suffix (dropWhile p s) s.
Proof.
  induction s as [|c s [pre IH]]; [apply suffix_refl|]. simpl.
  destruct (p c); [|apply suffix_refl].
  exists (c :: pre). simpl. now rewrite <- IH.
Qed.

Lemma skipn_suffix (n : nat) (s : jsstring) : suffix (skipn n s) s.
Proof. exists (firstn n s). now rewrite firstn_skipn. Qed.

Lemma stripEnumeration_suffix (l : jsstring) : suffix (stripEnumeration l) l.
Proof.
  unfold stripEnumeration.
  destruct (takeWhile isDigit l) as [|d ds]; [apply suffix_refl|].
  destruct (skipn (length (d :: ds)) l) as [|c r] eqn:E; [apply suffix_refl|].
  destruct (N.eqb c 46); [|apply suffix_refl].
  eapply suffix_trans; [apply dropWhile_suffix|].
  eapply suffix_trans; [|apply (skipn_suffix (length (d :: ds)))].
  rewrite E. now exists [c].
Qed.

Lemma stripBullet_suffix (l : jsstring) : suffix (stripBullet l) l.
Proof.
  destruct l as [|c r]; [apply suffix_refl|]. simpl.
  destruct (isBullet c); [|apply suffix_refl].
  eapply suffix_trans; [apply dropWhile_suffix|]. now exists [c].
Qed.

Lemma trim_infix (s : jsstring) : infix (trim s) s.
Proof.
  unfold trim, trimEnd, trimStart.
  destruct (dropWhile_suffix isWhiteSpace s) as [a Ha].
  destruct (dropWhile_suffix isWhiteSpace (rev (dropWhile isWhiteSpace s)))
    as [b Hb].
  exists a, (rev b). rewrite Ha at 1. f_equal.
  rewrite <- (rev_involutive (dropWhile isWhiteSpace s)) at 1.
  rewrite Hb at 1. now rewrite rev_app_distr.
Qed.

Lemma infix_cons (c : char16) (x s : jsstring) : infix x s -> infix x (c :: s).
Proof. intros [pre [post ->]]. now exists (c :: pre), post. Qed.

Lemma splitLines_shape (s : jsstring) :
  exists l ls post,
    splitLines s = l :: ls /\ s = l ++ post
    /\ forall x, In x ls -> infix x s.
Proof.
  induction s as [|c s (l0 & ls0 & post0 & E & P & I)].
  - exists [], [], []. repeat split. intros x [].
  - cbn [splitLines]. rewrite E. destruct (N.eqb c 10).
    + exists [], (l0 :: ls0), (c :: s). repeat split.
      intros x [<-|Hx]; apply infix_cons.
      * exists [], post0. exact P.
      * now apply I.
    + exists (c :: l0), ls0, post0. split; [reflexivity|].
      split; [now rewrite P at 1|].
      intros x Hx. apply infix_cons. now apply I.
Qed.

Lemma splitLines_infix (s l : jsstring) : In l (splitLines s) -> infix l s.
Proof.
  destruct (splitLines_shape s) as (l0 & ls0 & post0 & E & P & I).
  rewrite E. intros [<-|Hx]; [|now apply I].
  exists [], post0. exact P.
Qed.

Lemma infix_no_newline (x s : jsstring) :
  infix x s -> ~ In 10%N s -> ~ In 10%N x.
Proof.
  intros [pre [post ->]] H Hx. apply H.
  apply in_or_app. right. apply in_or_app. now left.
Qed.

Lemma in_firstn {A} (n : nat) (l : list A) (x : A) :
  In x (firstn n l) -> In x l.
Proof.
  revert l; induction n as [|n IH]; intros [|y l]; simpl; try tauto.
  intros [->|H]; [now left|right; now apply IH].
Qed.

(** X9: on the line path [parseFactsResponse] only quotes the reply.
    Every fact it returns is the end of a trimmed line of the reply that
    was longer than 20 code units, stands in the reply as it is, and
    holds no line feed. *)
Theorem fallback_facts_quote_reply (text f : jsstring) :
  JSON_parse (cleaned text) = None ->
  In f (parseFactsResponse text) ->
  (exists l,
      In l (splitLines text)
      /\ 20 < length (trim l)
      /\ suffix f (trim l))
  /\ infix f text
  /\ ~ In 10%N f.
Proof.
  intros Hp Hf. unfold parseFactsResponse in Hf. rewrite Hp in Hf.
  unfold factLines in Hf.
  apply in_firstn in Hf.
  apply in_map_iff in Hf as (t & <- & Ht).
  apply filter_In in Ht as [Ht Hfact].
  apply in_map_iff in Ht as (l & <- & Hl).
  assert (S : suffix (stripBullet (stripEnumeration (trim l))) (trim l)).
  { eapply suffix_trans; [apply stripBullet_suffix|apply stripEnumeration_suffix]. }
  assert (L : infix (stripBullet (stripEnumeration (trim l))) l).
  { eapply suffix_infix; [exact S|apply trim_infix]. }
  split; [|split].
  - exists l. split; [exact Hl|]. split; [|exact S].
    unfold isFactLine in Hfact.
    apply andb_true_iff in Hfact as [Hfact _].
    apply andb_true_iff in Hfact as [Hfact _].
    now apply Nat.ltb_lt in Hfact.
  - eapply infix_trans; [exact L|]. now apply splitLines_infix.
  - eapply infix_no_newline; [exact L|].
    destruct (splitLines_join text) as [_ F].
    rewrite Forall_forall in F. now apply F.
Qed.

Lemma fallback_facts_quote_reply_witness :
  infix (js "Heat was shot in 107 days")
        (js "1. Heat was shot in 107 days" ++ newline ++ js "short").
Proof.
  refine (proj1 (proj2 (@fallback_facts_quote_reply
                          (js "1. Heat was shot in 107 days" ++ newline ++ js "short")
                          (js "Heat was shot in 107 days") _ _))).
  - reflexivity.
  - left. reflexivity.
Defined.

(** ** Replies in the format the prompts ask for *)

Lemma parseChars_plain (s rest : jsstring) :
  plain s = true -> parseChars (s ++ dquote ++ rest) = Parsed s rest.
Proof.
  induction s as [|c s IH]; [reflexivity|]. intros H.
  unfold plain in H. cbn [forallb] in H.
  apply andb_true_iff in H as [Hc Hs].
  unfold plainChar in Hc.
  apply andb_true_iff in Hc as [Hc H32]. apply andb_true_iff in Hc as [H34 H92].
  apply negb_true_iff in H34, H92, H32.
  cbn [app parseChars]. rewrite H34, H92, H32. now rewrite IH.
Qed.

Lemma skipWs_gap (gap rest : jsstring) (c : char16) :
  forallb isJsonWs gap = true -> isJsonWs c = false ->
  skipWs (gap ++ c :: rest) = c :: rest.
Proof. intros Hg Hc. unfold skipWs. now apply dropWhile_all. Qed.

Lemma parseValue_quoted (fuel : nat) (lead s rest : jsstring) :
  1 <= fuel ->
  forallb isJsonWs lead = true -> plain s = true ->
  parseValue fuel (lead ++ quoted s ++ rest) = Parsed (JStr s) rest.
Proof.
  intros Hf Hl Hs. destruct fuel as [|fuel]; [lia|].
  unfold quoted, dquote. cbn [parseValue].
  rewrite <- !app_assoc. cbn [app].
  rewrite skipWs_gap by (assumption || reflexivity).
  change (N.eqb 34 34) with true. cbv iota.
  change (34%N :: rest) with (dquote ++ rest).
  now rewrite parseChars_plain.
Qed.

Lemma parseElements_quoted (gap : jsstring) (ss : list jsstring) :
  forallb isJsonWs gap = true ->
  Forall (fun s => plain s = true) ss ->
  ss <> [] ->
  forall fuel lead rest,
    length ss + 1 <= fuel ->
    forallb isJsonWs lead = true ->
    parseElements fuel
      (lead ++ join (js "," ++ gap) (map quoted ss) ++ js "]" ++ rest)
    = Parsed (map JStr ss) rest.
Proof.
  intros Hg Hss. induction Hss as [|s ss Hs Hss IH]; [congruence|].
  intros _ fuel lead rest Hfuel Hlead.
  destruct fuel as [|fuel]; [simpl in Hfuel; lia|].
  cbn [parseElements]. destruct ss as [|s2 ss].
  - cbn [map join].
    rewrite parseValue_quoted by (assumption || (simpl in Hfuel; lia)).
    reflexivity.
  - change (map quoted (s :: s2 :: ss)) with (quoted s :: map quoted (s2 :: ss)).
    change (join (js "," ++ gap) (quoted s :: map quoted (s2 :: ss)))
      with (quoted s ++ (js "," ++ gap) ++ join (js "," ++ gap) (map quoted (s2 :: ss))).
    rewrite <- !app_assoc.
    rewrite parseValue_quoted by (assumption || (simpl in Hfuel; lia)).
    change (js "," ++ gap ++ ?x) with (44%N :: gap ++ x).
    change (skipWs (44%N :: ?x)) with (44%N :: x).
    cbv iota. change (N.eqb 44 93) with false. change (N.eqb 44 44) with true.
    cbv iota.
    rewrite (IH ltac:(discriminate) fuel gap rest); [reflexivity| |assumption].
    simpl in *; lia.
Qed.

Lemma quoted_join_length (sep : jsstring) (ss : list jsstring) :
  2 * length ss <= length (join sep (map quoted ss)).
Proof.
  induction ss as [|s ss IH]; [simpl; lia|].
  destruct ss as [|s2 ss].
  - cbn [map join]. unfold quoted, dquote. rewrite !length_app. simpl. lia.
  - change (join sep (map quoted (s :: s2 :: ss)))
      with (quoted s ++ sep ++ join sep (map quoted (s2 :: ss))).
    unfold quoted at 1. unfold dquote. rewrite !length_app.
    cbn [length] in *. lia.
Qed.

Lemma parseValue_arrayLiteral (gap : jsstring) (ss : list jsstring)
      (fuel : nat) (rest : jsstring) :
  forallb isJsonWs gap = true ->
  Forall (fun s => plain s = true) ss ->
  length ss + 2 <= fuel ->
  parseValue fuel (arrayLiteral gap ss ++ rest) = Parsed (JArr (map JStr ss)) rest.
Proof.
  intros Hg Hss Hfuel. destruct fuel as [|fuel]; [lia|].
  destruct ss as [|s ss]; [reflexivity|].
  unfold arrayLiteral.
  assert (Q : exists r, join (js "," ++ gap) (map quoted (s :: ss)) = 34%N :: r).
  { destruct ss; cbn [map join]; unfold quoted, dquote;
      eexists; reflexivity. }
  destruct Q as [r Hr].
  rewrite <- !app_assoc.
  change (js "[" ++ ?x) with (91%N :: x).
  cbn [parseValue]. change (skipWs (91%N :: ?x)) with (91%N :: x). cbv iota.
  change (N.eqb 91 34) with false. change (N.eqb 91 91) with true. cbv iota.
  rewrite Hr at 1. cbn [app]. change (skipWs (34%N :: ?x)) with (34%N :: x).
  cbv iota. change (N.eqb 34 93) with false. cbv iota.
  rewrite <- (app_nil_l (join _ _ ++ js "]" ++ rest)).
  rewrite (@parseElements_quoted gap (s :: ss) Hg Hss ltac:(discriminate));
    [reflexivity| |reflexivity].
  cbn [length] in *. lia.
Qed.

Lemma JSON_parse_arrayLiteral (gap : jsstring) (ss : list jsstring) :
  forallb isJsonWs gap = true ->
  Forall (fun s => plain s = true) ss ->
  JSON_parse (arrayLiteral gap ss) = Some (JArr (map JStr ss)).
Proof.
  intros Hg Hss. unfold JSON_parse.
  rewrite <- (app_nil_r (arrayLiteral gap ss)) at 2.
  rewrite parseValue_arrayLiteral; [reflexivity|assumption|assumption|].
  pose proof (quoted_join_length (js "," ++ gap) ss) as L.
  unfold arrayLiteral. rewrite !length_app. lia.
Qed.

Lemma stripFenceClose_ends (s : jsstring) (c : char16) :
  isWhiteSpace c = false -> c <> 96%N ->
  stripFenceClose (s ++ [c]) = s ++ [c].
Proof.
  intros Hw Hc. induction s as [|a s IH].
  - cbn [app stripFenceClose]. change (js "```") with [96%N; 96%N; 96%N].
    cbn [startsWith]. now rewrite andb_false_r.
  - cbn [app stripFenceClose].
    assert (E : startsWith (js "```") (a :: s ++ [c])
                && forallb isWhiteSpace (skipn 3 (a :: s ++ [c])) = false).
    { change (js "```") with [96%N; 96%N; 96%N].
      destruct s as [|b [|d s]].
      - cbn [app startsWith]. now rewrite !andb_false_r.
      - cbn [app startsWith]. apply N.eqb_neq in Hc.
        rewrite (N.eqb_sym 96 c), Hc. now rewrite !andb_false_r.
      - cbn [app skipn]. rewrite forallb_app. cbn [forallb]. rewrite Hw.
        now rewrite !andb_false_r. }
    rewrite E. now rewrite IH.
Qed.

Lemma cleaned_delimited (a b : char16) (s : jsstring) :
  isWhiteSpace a = false -> a <> 96%N ->
  isWhiteSpace b = false -> b <> 96%N ->
  cleaned (a :: s ++ [b]) = a :: s ++ [b].
Proof.
  intros Ha Ha' Hb Hb'. unfold cleaned.
  assert (O : stripFenceOpen (a :: s ++ [b]) = a :: s ++ [b]).
  { unfold stripFenceOpen. change (js "```") with [96%N; 96%N; 96%N].
    cbn [startsWith]. apply N.eqb_neq in Ha'. now rewrite N.eqb_sym, Ha'. }
  rewrite O. change (a :: s ++ [b]) with ((a :: s) ++ [b]).
  rewrite stripFenceClose_ends by assumption.
  set (t := (a :: s) ++ [b]).
  assert (T : trim ([] ++ t ++ []) = t).
  { apply trim_padded; try reflexivity.
    - unfold t. cbn. now rewrite Ha.
    - unfold t. rewrite rev_app_distr. cbn. now rewrite Hb. }
  now rewrite app_nil_r in T.
Qed.

Lemma cleaned_arrayLiteral (gap : jsstring) (ss : list jsstring) :
  cleaned (arrayLiteral gap ss) = arrayLiteral gap ss.
Proof.
  unfold cleaned, arrayLiteral.
  change (stripFenceOpen (js "[" ++ ?x)) with (js "[" ++ x).
  rewrite (app_assoc (js "[")).
  change (js "]") with [93%N].
  rewrite stripFenceClose_ends by (reflexivity || discriminate).
  set (t := (js "[" ++ _) ++ [93%N]).
  assert (T : trim ([] ++ t ++ []) = t).
  { apply trim_padded; try reflexivity.
    unfold t. now rewrite rev_app_distr. }
  now rewrite app_nil_r in T.
Qed.

Lemma strings_map_JStr (ss : list jsstring) : strings (map JStr ss) = ss.
Proof. induction ss as [|s ss IH]; simpl; congruence. Qed.

Lemma filter_all {A} (p : A -> bool) (l : list A) :
  Forall (fun x => p x = true) l -> filter p l = l.
Proof. induction 1 as [|x l Hx _ IH]; simpl; [|rewrite Hx, IH]; reflexivity. Qed.

(** X10: a reply in the format the facts prompt asks for is read back.  For
    a JSON array of string literals of plain characters (no quote, no
    backslash, no control character), with any JSON white space after the
    commas, [parseFactsResponse] returns the strings whose trimmed length
    exceeds 10, cut to the first 10; when there are at most 10 and each is
    long enough, it returns exactly the strings. *)
Theorem parseFacts_compliant_reply (gap : jsstring) (ss : list jsstring) :
  forallb isJsonWs gap = true ->
  Forall (fun s => plain s = true) ss ->
  parseFactsResponse (arrayLiteral gap ss) = firstn 10 (filter longEnough ss)
  /\ (length ss <= 10 ->
      Forall (fun s => longEnough s = true) ss ->
      parseFactsResponse (arrayLiteral gap ss) = ss).
Proof.
  intros Hg Hss.
  assert (E : parseFactsResponse (arrayLiteral gap ss)
              = firstn 10 (filter longEnough ss)).
  { unfold parseFactsResponse.
    rewrite cleaned_arrayLiteral, JSON_parse_arrayLiteral by assumption.
    now rewrite strings_firstn_filter, strings_map_JStr. }
  split; [exact E|]. intros Hn Hlong.
  rewrite E, filter_all by assumption. now apply firstn_all2.
Qed.

Lemma parseFacts_compliant_reply_witness :
  parseFactsResponse
    (jq "['Heat was shot in 107 days', 'Pacino and De Niro share two scenes']")
  = [js "Heat was shot in 107 days";
     js "Pacino and De Niro share two scenes"].
Proof.
  refine (proj2 (@parseFacts_compliant_reply (js " ")
                   [js "Heat was shot in 107 days";
                    js "Pacino and De Niro share two scenes"] _ _) _ _).
  - reflexivity.
  - repeat constructor.
  - simpl. lia.
  - repeat constructor.
Defined.

Lemma parseMembers_fields (lead mid close : jsstring)
      (fields : list (jsstring * jsstring)) :
  forallb isJsonWs lead = true -> forallb isJsonWs mid = true ->
  forallb isJsonWs close = true ->
  Forall plainField fields ->
  fields <> [] ->
  forall fuel acc rest,
    length fields + 1 <= fuel ->
    parseMembers fuel acc
      (lead ++ join (js "," ++ lead) (map (memberText mid) fields)
            ++ close ++ js "}" ++ rest)
    = Parsed (fold_left (fun a kv => setProp (fst kv) (JStr (snd kv)) a)
                        fields acc) rest.
Proof.
  intros Hl Hm Hc Hf. induction Hf as [|[k v] fields [Hk Hv] Hf IH]; [congruence|].
  intros _ fuel acc rest Hfuel. cbn [fst snd] in Hk, Hv.
  destruct fuel as [|fuel]; [simpl in Hfuel; lia|].
  assert (Key : forall tail,
             parseMembers (S fuel) acc (lead ++ memberText mid (k, v) ++ tail)
             = match skipWs tail with
               | c :: r =>
                   if N.eqb c 125 then Parsed (setProp k (JStr v) acc) r
                   else if N.eqb c 44
                        then parseMembers fuel (setProp k (JStr v) acc) r
                        else SyntaxErr
               | [] => SyntaxErr
               end).
  { intros tail. cbn [parseMembers]. unfold memberText. cbn [fst snd].
    unfold quoted at 1. unfold dquote. rewrite <- !app_assoc. cbn [app].
    rewrite skipWs_gap by (assumption || reflexivity).
    change (N.eqb 34 34) with true. cbv iota.
    change (34%N :: js ":" ++ ?x) with (dquote ++ 58%N :: x).
    rewrite parseChars_plain by assumption.
    change (skipWs (58%N :: ?x)) with (58%N :: x). cbv iota.
    change (N.eqb 58 58) with true. cbv iota.
    rewrite parseValue_quoted by (assumption || (simpl in Hfuel; lia)).
    reflexivity. }
  destruct fields as [|kv2 fields].
  - cbn [map join fold_left fst snd]. rewrite Key.
    change (js "}" ++ rest) with (125%N :: rest).
    rewrite skipWs_gap by (assumption || reflexivity).
    reflexivity.
  - change (join (js "," ++ lead) (map (memberText mid) ((k, v) :: kv2 :: fields)))
      with (memberText mid (k, v) ++ (js "," ++ lead)
              ++ join (js "," ++ lead) (map (memberText mid) (kv2 :: fields))).
    rewrite <- !app_assoc. rewrite Key.
    change (js "," ++ lead ++ ?x) with (44%N :: lead ++ x).
    change (skipWs (44%N :: ?x)) with (44%N :: x). cbv iota.
    change (N.eqb 44 125) with false. change (N.eqb 44 44) with true. cbv iota.
    rewrite (IH ltac:(discriminate) fuel); [reflexivity|].
    simpl in *; lia.
Qed.

Lemma memberText_head (mid : jsstring) (kv : jsstring * jsstring) :
  exists r, memberText mid kv = 34%N :: r.
Proof. unfold memberText, quoted, dquote. eexists. reflexivity. Qed.

Lemma parseValue_objectLiteral (lead mid close : jsstring)
      (fields : list (jsstring * jsstring)) (fuel : nat) (rest : jsstring) :
  forallb isJsonWs lead = true -> forallb isJsonWs mid = true ->
  forallb isJsonWs close = true ->
  Forall plainField fields ->
  length fields + 2 <= fuel ->
  parseValue fuel (objectLiteral lead mid close fields ++ rest)
  = Parsed (JObj (objectOf fields)) rest.
Proof.
  intros Hl Hm Hc Hf Hfuel. destruct fuel as [|fuel]; [lia|].
  unfold objectLiteral. rewrite <- !app_assoc.
  change (js "{" ++ ?x) with (123%N :: x).
  cbn [parseValue]. change (skipWs (123%N :: ?x)) with (123%N :: x). cbv iota.
  change (N.eqb 123 34) with false. change (N.eqb 123 91) with false.
  change (N.eqb 123 123) with true. cbv iota.
  destruct fields as [|kv fields].
  - cbn [map join app]. rewrite app_assoc.
    change (js "}" ++ rest) with (125%N :: rest).
    rewrite skipWs_gap;
      [reflexivity|now rewrite forallb_app, Hl, Hc|reflexivity].
  - assert (Q : exists r,
               join (js "," ++ lead) (map (memberText mid) (kv :: fields))
               = 34%N :: r).
    { destruct (memberText_head mid kv) as [r Hr].
      destruct fields; cbn [map join]; rewrite Hr; eexists; reflexivity. }
    destruct Q as [r Hr]. rewrite Hr at 1. cbn [app].
    rewrite skipWs_gap by (assumption || reflexivity).
    change (N.eqb 34 125) with false. cbv iota.
    rewrite (@parseMembers_fields lead mid close (kv :: fields) Hl Hm Hc Hf
               ltac:(discriminate));
      [reflexivity|].
    cbn [length] in *. lia.
Qed.

Lemma memberText_join_length (mid sep : jsstring)
      (fields : list (jsstring * jsstring)) :
  length fields <= length (join sep (map (memberText mid) fields)).
Proof.
  induction fields as [|kv fields IH]; [simpl; lia|].
  destruct (memberText_head mid kv) as [r Hr].
  destruct fields as [|kv2 fields].
  - cbn [map join]. rewrite Hr. simpl. lia.
  - change (join sep (map (memberText mid) (kv :: kv2 :: fields)))
      with (memberText mid kv ++ sep
              ++ join sep (map (memberText mid) (kv2 :: fields))).
    rewrite Hr, !length_app. cbn [length] in *. lia.
Qed.

Lemma JSON_parse_objectLiteral (lead mid close : jsstring)
      (fields : list (jsstring * jsstring)) :
  forallb isJsonWs lead = true -> forallb isJsonWs mid = true ->
  forallb isJsonWs close = true ->
  Forall plainField fields ->
  JSON_parse (objectLiteral lead mid close fields) = Some (JObj (objectOf fields)).
Proof.
  intros Hl Hm Hc Hf. unfold JSON_parse.
  rewrite <- (app_nil_r (objectLiteral lead mid close fields)) at 2.
  rewrite parseValue_objectLiteral; [reflexivity|assumption..|].
  pose proof (memberText_join_length mid (js "," ++ lead) fields) as L.
  unfold objectLiteral. rewrite !length_app. cbn [length]. lia.
Qed.

Lemma cleaned_objectLiteral (lead mid close : jsstring)
      (fields : list (jsstring * jsstring)) :
  cleaned (objectLiteral lead mid close fields)
  = objectLiteral lead mid close fields.
Proof.
  unfold objectLiteral.
  change (js "{" ++ ?x) with (123%N :: x). change (js "}") with [125%N].
  rewrite !app_assoc. apply cleaned_delimited; reflexivity || discriminate.
Qed.

Lemma truthy_nonempty (t : jsstring) :
  t <> [] -> truthy (Some (JStr t)) = true.
Proof. intros H. now apply truthy_string. Qed.

Section CompliantSuggestion.
Variable host : Host.
Variable endpoint : nat -> outcome.

(** X11: a reply in the format the suggestion prompt asks for is read
    back.  For an object literal with the six members in the prompt's order,
    each a string literal of plain characters, none empty, the type "movie"
    or "series", and any JSON white space before the members, after the
    colons and before the closing brace, [parseSuggestionResponse] returns
    the values, the four texts trimmed, the year and the type as they
    are; and [generateSuggestion] succeeds with that suggestion after one
    call, logging no error. *)
Theorem parseSuggestion_compliant_reply
        (lead mid close title year type overview reason searchKeyword : jsstring) :
  forallb isJsonWs lead = true -> forallb isJsonWs mid = true ->
  forallb isJsonWs close = true ->
  Forall (fun s => plain s = true /\ s <> [])
         [title; year; overview; reason; searchKeyword] ->
  type = js "movie" \/ type = js "series" ->
  let reply :=
    suggestionReply lead mid close title year type overview reason searchKeyword in
  let suggestion :=
    {| Sugg.title := trim title; Sugg.year := year; Sugg.type := type;
       Sugg.overview := trim overview; Sugg.reason := trim reason;
       Sugg.searchKeyword := trim searchKeyword |} in
  parseSuggestionResponse host reply = Normal suggestion
  /\ forall w,
      endpoint (countCalls w) = Resolves (Response (Some reply)) ->
      generateSuggestion host endpoint w
      = (Normal {| Sugg.suggestion := suggestion; Sugg.success := true;
                   Sugg.error := None |},
         w ++ [LogInfo (js "Generating AI suggestion") None;
               Called MODEL_NAME createSuggestionPrompt]).
Proof.
  intros Hl Hm Hc Hs Hty reply suggestion.
  apply Forall_cons_iff in Hs as [[Pt Nt] Hs].
  apply Forall_cons_iff in Hs as [[Py Ny] Hs].
  apply Forall_cons_iff in Hs as [[Po No] Hs].
  apply Forall_cons_iff in Hs as [[Pr Nr] Hs].
  apply Forall_cons_iff in Hs as [[Pk Nk] _].
  assert (Pty : plain type = true) by (destruct Hty as [->| ->]; reflexivity).
  assert (Nty : type <> []) by (destruct Hty as [->| ->]; discriminate).
  assert (P : parseSuggestionResponse host reply = Normal suggestion).
  { unfold parseSuggestionResponse, reply, suggestionReply.
    rewrite cleaned_objectLiteral.
    rewrite JSON_parse_objectLiteral;
      [|assumption|assumption|assumption
       |repeat constructor; assumption || reflexivity].
    change (objectOf _)
      with [(js "title", JStr title); (js "year", JStr year);
            (js "type", JStr type); (js "overview", JStr overview);
            (js "reason", JStr reason); (js "searchKeyword", JStr searchKeyword)].
    change (member (JObj ?ms) (js "title")) with (Some (JStr title)).
    change (member (JObj ?ms) (js "year")) with (Some (JStr year)).
    change (member (JObj ?ms) (js "type")) with (Some (JStr type)).
    change (member (JObj ?ms) (js "overview")) with (Some (JStr overview)).
    change (member (JObj ?ms) (js "reason")) with (Some (JStr reason)).
    change (member (JObj ?ms) (js "searchKeyword")) with (Some (JStr searchKeyword)).
    rewrite !truthy_nonempty by assumption. cbn [negb orb].
    assert (M : isMovieOrSeries (Some (JStr type)) = true).
    { apply isMovieOrSeries_iff. eauto. }
    rewrite M. cbn [negb].
    reflexivity. }
  split; [exact P|]. intros w E.
  assert (Ht : truthyStr (Some reply) = true) by reflexivity.
  unfold generateSuggestion, tryCatch, bind, emit.
  rewrite generateContent_run, countCalls_app.
  cbn [countCalls filter length]. rewrite Nat.add_0_r, E.
  cbn [textOf]. rewrite Ht. cbn [negb showOptStr]. rewrite P.
  unfold ret. now rewrite <- !app_assoc.
Qed.

End CompliantSuggestion.

Lemma parseSuggestion_compliant_reply_witness :
  parseSuggestionResponse plainHost
    (lines [js "{";
            jq "  'title': 'Coherence',";
            jq "  'year': '2013',";
            jq "  'type': 'movie',";
            jq "  'overview': 'A dinner party goes wrong.',";
            jq "  'reason': 'Clever and tense.',";
            jq "  'searchKeyword': 'Coherence 2013'";
            js "}"])
  = Normal {| Sugg.title := js "Coherence"; Sugg.year := js "2013";
              Sugg.type := js "movie";
              Sugg.overview := js "A dinner party goes wrong.";
              Sugg.reason := js "Clever and tense.";
              Sugg.searchKeyword := js "Coherence 2013" |}.
Proof.
  refine (proj1 (@parseSuggestion_compliant_reply plainHost
                   (fun _ => Resolves NoResponse)
                   (newline ++ js "  ") (js " ") newline
                   (js "Coherence") (js "2013") (js "movie")
                   (js "A dinner party goes wrong.") (js "Clever and tense.")
                   (js "Coherence 2013") _ _ _ _ _)).
  - reflexivity.
  - reflexivity.
  - reflexivity.
  - repeat constructor; discriminate.
  - left. reflexivity.
Defined.

(** ** What the facts prompt reads *)

Lemma names_namesOf (xs ys : option (list Movie.Named)) :
  namesOf xs = namesOf ys -> names xs = names ys /\ nonEmpty xs = nonEmpty ys.
Proof.
  destruct xs as [xs|], ys as [ys|]; cbn; try discriminate; [|tauto].
  intros [= E]. split; [now rewrite E|].
  destruct xs, ys; try discriminate; reflexivity.
Qed.

Lemma genres_names (gs hs : option (list Movie.Genre)) :
  option_map (map Movie.genre_name) gs = option_map (map Movie.genre_name) hs ->
  option_map (fun l => join (js ", ") (map Movie.genre_name l)) gs
  = option_map (fun l => join (js ", ") (map Movie.genre_name l)) hs.
Proof.
  destruct gs, hs; cbn; try discriminate; [|reflexivity].
  now intros [= ->].
Qed.

Lemma generateFacts_ext (host : Host) (endpoint : nat -> outcome)
      (d d' : Movie.MovieData) (w : world) :
  titleOf d = titleOf d' ->
  createMoviePrompt host d = createMoviePrompt host d' ->
  generateFacts host endpoint d w = generateFacts host endpoint d' w.
Proof. unfold generateFacts. now intros -> ->. Qed.

(** X13: the facts prompt, and with it the whole of [generateFacts],
    depends on a record only through its view.  Of a movie (no [name]):
    title, release date, overview, language, genre names, runtime and
    company names; of a series: name, first air date, the same general
    fields, and creators, networks, seasons and episodes.  Identifiers,
    rating, director, cast, episode run times and genre identifiers never
    reach the model, nor do the series fields and dates of a movie or the
    title and release date of a series. *)
Theorem prompt_reads_only_view (host : Host) (endpoint : nat -> outcome)
        (d d' : Movie.MovieData) (w : world) :
  viewOf d = viewOf d' ->
  createMoviePrompt host d = createMoviePrompt host d'
  /\ generateFacts host endpoint d w = generateFacts host endpoint d' w.
Proof.
  intros V.
  assert (P : createMoviePrompt host d = createMoviePrompt host d'
              /\ titleOf d = titleOf d').
  { unfold viewOf in V.
    unfold createMoviePrompt, promptTitle, releaseYear, titleOf.
    unfold isTV in *.
    destruct (truthyStr (Movie.name d)) eqn:T,
             (truthyStr (Movie.name d')) eqn:T'; try discriminate V.
    - injection V as En Ed Eo El Eg Er Ep Ec Ek Es Ee.
      apply names_namesOf in Ep as [Ep Ep'], Ec as [Ec Ec'], Ek as [Ek Ek'].
      apply genres_names in Eg.
      cbv zeta.
      now rewrite En, Ed, Eo, El, Eg, Er, Ep, Ep', Ec, Ec', Ek, Ek', Es, Ee.
    - injection V as Et Ed Eo El Eg Er Ep.
      apply names_namesOf in Ep as [Ep Ep']. apply genres_names in Eg.
      cbv zeta. cbn [andb].
      now rewrite Et, Ed, Eo, El, Eg, Er, Ep, Ep'. }
  destruct P as [P T]. split; [exact P|]. now apply generateFacts_ext.
Qed.

Lemma prompt_reads_only_view_witness :
  createMoviePrompt plainHost sampleMovie
  = createMoviePrompt plainHost creditedMovie
  /\ generateFacts plainHost flaky sampleMovie []
     = generateFacts plainHost flaky creditedMovie [].
Proof.
  apply (@prompt_reads_only_view plainHost flaky sampleMovie creditedMovie []).
  reflexivity.
Defined.

Lemma join_app (sep : jsstring) (a b : list jsstring) :
  a <> [] -> b <> [] ->
  join sep (a ++ b) = join sep a ++ sep ++ join sep b.
Proof.
  intros Ha Hb. induction a as [|x a IH]; [congruence|].
  destruct a as [|y a].
  - destruct b; [congruence|reflexivity].
  - change (join sep ((x :: y :: a) ++ b))
      with (x ++ sep ++ join sep ((y :: a) ++ b)).
    rewrite IH by discriminate.
    change (join sep (x :: y :: a)) with (x ++ sep ++ join sep (y :: a)).
    now rewrite <- !app_assoc.
Qed.

Lemma lines_nth (L : list jsstring) (i : nat) (l : jsstring) :
  nth_error L i = Some l -> 0 < i -> S i < length L ->
  hasLine (lines L) l.
Proof.
  intros H Hi Hlen. apply nth_error_split in H as (a & b & -> & Ha).
  rewrite length_app in Hlen. cbn [length] in Hlen.
  assert (a <> []) by (destruct a; [simpl in Ha; lia|discriminate]).
  assert (b <> []) by (destruct b; [simpl in Hlen; lia|discriminate]).
  exists (join newline a), (join newline b). unfold lines.
  rewrite join_app by (assumption || discriminate).
  change (l :: b) with ([l] ++ b).
  rewrite join_app by (assumption || discriminate).
  reflexivity.
Qed.

Section PromptFallbacks.
Variable host : Host.

(** X14: what the prompt says when data is missing.  An absent or empty
    overview reads "Not available"; an absent or empty language "en";
    absent or empty genres "various"; an absent, zero or NaN runtime "not
    specified" (0 is falsy); and a series with seasons but no episode
    count gets the line "- Seasons: n, Episodes: undefined". *)
Theorem prompt_fallbacks (data : Movie.MovieData) :
  let prompt := createMoviePrompt host data in
  (truthyStr (Movie.overview data) = false ->
   hasLine prompt (js "- Overview: Not available"))
  /\ (truthyStr (Movie.original_language data) = false ->
      hasLine prompt (js "- Language: en"))
  /\ (Movie.genres data = None \/ Movie.genres data = Some [] ->
      hasLine prompt (js "- Genres: various"))
  /\ (truthyNum (Movie.runtime data) = false ->
      hasLine prompt (js "- Runtime: not specified"))
  /\ truthyNum (Some (ofZ 0)) = false
  /\ (isTV data = true ->
      truthyNum (Movie.number_of_seasons data) = true ->
      Movie.number_of_episodes data = None ->
      hasLine prompt
        (js "- Seasons: " ++ showOptNum host (Movie.number_of_seasons data)
            ++ js ", Episodes: undefined")).
Proof.
  cbv zeta. unfold createMoviePrompt. cbv zeta.
  split; [|split; [|split; [|split; [|split]]]].
  - intros H. apply (@lines_nth _ 7); [|lia|simpl; lia].
    cbn [nth_error]. unfold orElse. now rewrite H.
  - intros H. apply (@lines_nth _ 8); [|lia|simpl; lia].
    cbn [nth_error]. unfold orElse. now rewrite H.
  - intros H. apply (@lines_nth _ 9); [|lia|simpl; lia].
    cbn [nth_error]. destruct H as [-> | ->]; reflexivity.
  - intros H. apply (@lines_nth _ 10); [|lia|simpl; lia].
    cbn [nth_error]. now rewrite H.
  - reflexivity.
  - intros Htv Hs He. apply (@lines_nth _ 14); [|lia|simpl; lia].
    cbn [nth_error]. rewrite Htv, Hs, He. reflexivity.
Qed.

End PromptFallbacks.

(** ** The module-level handle *)

Lemma dropWhile_nil_iff (p : char16 -> bool) (s : jsstring) :
  dropWhile p s = [] <-> forallb p s = true.
Proof.
  induction s as [|c s IH]; cbn; [tauto|].
  destruct (p c); [exact IH|]. split; discriminate.
Qed.

Lemma forallb_rev (p : char16 -> bool) (s : jsstring) :
  forallb p (rev s) = forallb p s.
Proof.
  induction s as [|c s IH]; [reflexivity|].
  cbn [rev forallb]. rewrite forallb_app, IH. cbn. now destruct (p c), (forallb p s).
Qed.

Lemma forallb_dropWhile (p : char16 -> bool) (s : jsstring) :
  forallb p (dropWhile p s) = forallb p s.
Proof.
  induction s as [|c s IH]; [reflexivity|]. cbn [dropWhile].
  destruct (p c) eqn:E; [now cbn; rewrite E|reflexivity].
Qed.

(** [trim] leaves nothing exactly of the texts that are white space
    throughout. *)
Lemma trim_nil_iff (s : jsstring) :
  trim s = [] <-> forallb isWhiteSpace s = true.
Proof.
  unfold trim, trimEnd, trimStart.
  rewrite <- (forallb_dropWhile isWhiteSpace s).
  rewrite <- (forallb_rev isWhiteSpace (dropWhile isWhiteSpace s)).
  rewrite <- dropWhile_nil_iff.
  split; [|now intros ->].
  intros H. apply (f_equal (@rev _)) in H. now rewrite rev_involutive in H.
Qed.

Lemma blankKey_iff (env : option jsstring) :
  blankKey env = true
  <-> env = None \/ exists key, env = Some key /\ forallb isWhiteSpace key = true.
Proof.
  unfold blankKey. destruct env as [key|]; cbn [option_map truthyStr].
  - destruct (trim key) as [|c r] eqn:T; cbn [negb].
    + apply trim_nil_iff in T. split; [eauto|reflexivity].
    + split; [discriminate|]. intros [H|(k & [= <-] & F)]; [discriminate|].
      apply trim_nil_iff in F. congruence.
  - cbn. split; [now left|reflexivity].
Qed.

(** X15: [getGeminiService] is a singleton.  Once a call has returned a
    service, the module variable holds it, and every later call returns
    that same service and leaves the module state as it is, whatever the
    environment variable has become: no second client is created and
    nothing more is logged. *)
Theorem getGeminiService_singleton (env : option jsstring) (st st' : moduleState)
        (service : GeminiService) :
  getGeminiService env st = (Normal service, st') ->
  geminiServiceInstance st' = Some service
  /\ forall envs,
      getRepeatedly envs st'
      = (map (fun _ => Normal service) envs, st').
Proof.
  intros H.
  assert (I : geminiServiceInstance st' = Some service).
  { unfold getGeminiService in H.
    destruct (geminiServiceInstance st) as [s|] eqn:G.
    - injection H as <- <-. exact G.
    - destruct (blankKey env); [discriminate|].
      unfold newGeminiService in H. destruct (blankKey env); [discriminate|].
      injection H as <- <-. reflexivity. }
  split; [exact I|].
  induction envs as [|e envs IH]; [reflexivity|].
  cbn [getRepeatedly map]. unfold getGeminiService at 1. rewrite I.
  now rewrite IH.
Qed.

Lemma getGeminiService_singleton_witness :
  getRepeatedly [Some (js "other-key"); None; Some (js "  ")]
    (snd (getGeminiService (Some (js "key-1")) freshModule))
  = ([Normal {| apiKeyOf := js "key-1"; identity := 0 |};
      Normal {| apiKeyOf := js "key-1"; identity := 0 |};
      Normal {| apiKeyOf := js "key-1"; identity := 0 |}],
     snd (getGeminiService (Some (js "key-1")) freshModule)).
Proof.
  exact (proj2 (@getGeminiService_singleton (Some (js "key-1")) freshModule
                  _ _ eq_refl)
               [Some (js "other-key"); None; Some (js "  ")]).
Defined.

(** X16: the first use of [getGeminiService].  With no instance yet: a
    key that is absent or white space throughout (exactly the keys whose
    trimmed text is empty) makes it log "GEMINI_API_KEY is missing" and
    throw "GEMINI_API_KEY is not configured", leaving the instance unset
    and creating no client, so that a later call is free to succeed; any
    other key creates one client with the key as given, untrimmed, logs
    the initialisation, and stores the service.  It throws nothing else:
    the constructor's own "Invalid API key provided" never escapes it. *)
Theorem getGeminiService_configuration (env : option jsstring) (st : moduleState) :
  geminiServiceInstance st = None ->
  (blankKey env = true ->
   getGeminiService env st
   = (Throw (mkError (js "GEMINI_API_KEY is not configured")),
      {| geminiServiceInstance := None;
         setupLog := setupLog st ++ [ErrorLogged (js "GEMINI_API_KEY is missing")] |}))
  /\ (forall key,
         env = Some key -> blankKey env = false ->
         getGeminiService env st
         = (Normal {| apiKeyOf := key; identity := clientsCreated (setupLog st) |},
            {| geminiServiceInstance :=
                 Some {| apiKeyOf := key; identity := clientsCreated (setupLog st) |};
               setupLog := setupLog st
                           ++ [ClientCreated key;
                               InfoLogged (js "GeminiService initialized successfully")] |}))
  /\ (blankKey env = true
      <-> env = None
          \/ exists key, env = Some key /\ forallb isWhiteSpace key = true)
  /\ (forall e st', getGeminiService env st = (Throw e, st') ->
                    e = mkError (js "GEMINI_API_KEY is not configured")
                    /\ geminiServiceInstance st' = None
                    /\ clientsCreated (setupLog st') = clientsCreated (setupLog st)).
Proof.
  intros G. split; [|split; [|split]].
  - intros B. unfold getGeminiService. now rewrite G, B.
  - intros key -> B. unfold getGeminiService, newGeminiService.
    now rewrite G, B.
  - apply blankKey_iff.
  - intros e st' H. unfold getGeminiService, newGeminiService in H.
    rewrite G in H. destruct (blankKey env); [|discriminate].
    injection H as <- <-. cbn [geminiServiceInstance setupLog].
    split; [reflexivity|]. split; [reflexivity|].
    unfold clientsCreated. rewrite filter_app, length_app. cbn. lia.
Qed.

Lemma getGeminiService_configuration_witness :
  getGeminiService (Some (js "   ")) freshModule
  = (Throw (mkError (js "GEMINI_API_KEY is not configured")),
     {| geminiServiceInstance := None;
        setupLog := [ErrorLogged (js "GEMINI_API_KEY is missing")] |})
  /\ getGeminiService (Some (js " key-1 "))
       (snd (getGeminiService (Some (js "   ")) freshModule))
     = (Normal {| apiKeyOf := js " key-1 "; identity := 0 |},
        {| geminiServiceInstance :=
             Some {| apiKeyOf := js " key-1 "; identity := 0 |};
           setupLog := [ErrorLogged (js "GEMINI_API_KEY is missing");
                        ClientCreated (js " key-1 ");
                        InfoLogged (js "GeminiService initialized successfully")] |}).
Proof.
  split.
  - exact (proj1 (@getGeminiService_configuration (Some (js "   ")) freshModule
                    eq_refl) eq_refl).
  - exact (proj1 (proj2 (@getGeminiService_configuration (Some (js " key-1 "))
                           (snd (getGeminiService (Some (js "   ")) freshModule))
                           eq_refl))
                 (js " key-1 ") eq_refl eq_refl).
Defined.
